(** * The FaceFormer-style sequence decoder of [gdl.models.talkinghead]

    A shallow embedding of [src/gdl/models/talkinghead/FaceFormerDecoder.py]:
    the positional encoders, the temporal bias mask ([init_biased_mask]), the
    alignment mask ([enc_dec_mask]) and the teacher-forced / autoregressive
    control flow of [AutoRegressiveDecoder.forward].

    Conventions of the embedding.
    - A torch tensor is its shape together with its entries, read through an
      accessor; an operation that torch rejects on the shapes at hand is an
      [Err] of the exception it raises.
    - Float entries are idealised as exact reals ([R]); the only non-finite
      float the code writes is [-inf], kept apart in [xreal].
    - Sizes and indices are [nat]: torch refuses negative sizes.
    - Modules are in inference mode, where [nn.Dropout] is the identity.
    - The attention stack [nn.TransformerDecoder] is library code: the
      values it returns are a parameter of the development, the shapes it
      accepts and returns are those torch documents.
    - [FlameFormerDecoder] needs the FLAME shape model, which is not among
      the sources; the decoder with the direct head, [FaceFormerDecoder],
      is the one embedded. *)

From Stdlib Require Import Reals Lra Lia List ZArith Bool String Arith PeanoNat.
From Equations Require Import Equations.
Import ListNotations.

Set Implicit Arguments.

(** ** Exceptions and fallible computations *)

Inductive error : Type :=
| KeyError
| ValueError
| IndexError
| RuntimeError
| ZeroDivisionError
| NotImplementedError.

Inductive result (A : Type) : Type :=
| Ok (a : A)
| Err (e : error).

Arguments Ok {A} a.
Arguments Err {A} e.

Definition bind {A B : Type} (r : result A) (k : A -> result B) : result B :=
  match r with
  | Ok a => k a
  | Err e => Err e
  end.

Notation "x <- r ;; k" := (bind r (fun x => k))
  (at level 61, r at next level, right associativity).

Definition is_ok {A : Type} (r : result A) : bool :=
  match r with Ok _ => true | Err _ => false end.

(** [for i in range(n): s = body(s, i)] *)
Fixpoint for_each {S : Type} (l : list nat) (body : S -> nat -> result S) (s : S)
  : result S :=
  match l with
  | [] => Ok s
  | i :: l' => s' <- body s i ;; for_each l' body s'
  end.

Definition for_range {S : Type} (n : nat) (body : S -> nat -> result S) (s : S)
  : result S :=
  for_each (seq 0 n) body s.

(** ** Tensors of rank one, two and three *)

Record tensor1 (A : Type) : Type := T1 { len1 : nat; at1 : nat -> A }.
Record tensor2 (A : Type) : Type :=
  T2 { nrows : nat; ncols : nat; at2 : nat -> nat -> A }.
Record tensor3 (A : Type) : Type :=
  T3 { dim0 : nat; dim1 : nat; dim2 : nat; at3 : nat -> nat -> nat -> A }.

(** The float [-inf] of the additive masks. *)
Inductive xreal : Type :=
| NegInf
| Fin (r : R).

(** [x == y] on float entries. *)
Definition Reqb (x y : R) : bool := if Req_dec_T x y then true else false.

(** ** Alignment bias: [enc_dec_mask] *)

Module Alignment.

(** [mask[i, j] = v] for an integer index pair. *)
Definition setitem2 {A : Type} (m : tensor2 A) (i j : nat) (v : A) : result (tensor2 A) :=
  if (i <? nrows m) && (j <? ncols m)
  then Ok (T2 (nrows m) (ncols m)
              (fun r c => if (r =? i) && (c =? j) then v else at2 m r c))
  else Err IndexError.

(** [mask[i, lo:hi] = v]: the column slice is clamped to the row. *)
Definition setslice2 {A : Type} (m : tensor2 A) (i lo hi : nat) (v : A) : result (tensor2 A) :=
  if i <? nrows m
  then Ok (T2 (nrows m) (ncols m)
              (fun r c => if (r =? i) && (lo <=? c) && (c <? hi) then v else at2 m r c))
  else Err IndexError.

Definition ones (T S : nat) : tensor2 R := T2 T S (fun _ _ => 1%R).

Definition enc_dec_mask (T S : nat) (dataset : string) : result (tensor2 bool) :=
  let mask := ones T S in
  let smaller_dim := Nat.min T S in
  mask' <-
    (if String.eqb dataset "BIWI"%string then
       for_range smaller_dim (fun m i => setslice2 m i (i * 2) (i * 2 + 2) 0%R) mask
     else if String.eqb dataset "vocaset"%string then
       for_range smaller_dim (fun m i => setitem2 m i i 0%R) mask
     else Err NotImplementedError) ;;
  Ok (T2 (nrows mask') (ncols mask') (fun i j => Reqb (at2 mask' i j) 1%R)).

(** The default of the [dataset] keyword. *)
Definition default_dataset : string := "vocaset"%string.

(** In the returned boolean mask [true] forbids attention. *)
Definition permits (m : tensor2 bool) (i j : nat) : Prop := at2 m i j = false.
Definition forbids (m : tensor2 bool) (i j : nat) : Prop := at2 m i j = true.

End Alignment.

(** ** Elementwise and shape operations shared by the components *)

Section TensorOps.

Context {A B C : Type}.

Definition map1 (f : A -> B) (t : tensor1 A) : tensor1 B :=
  T1 (len1 t) (fun i => f (at1 t i)).

Definition map2 (f : A -> B) (t : tensor2 A) : tensor2 B :=
  T2 (nrows t) (ncols t) (fun i j => f (at2 t i j)).

Definition map3 (f : A -> B) (t : tensor3 A) : tensor3 B :=
  T3 (dim0 t) (dim1 t) (dim2 t) (fun i j k => f (at3 t i j k)).

(** [torch.Tensor(l)] of a Python list. *)
Definition of_list (d : A) (l : list A) : tensor1 A :=
  T1 (List.length l) (fun i => nth i l d).

(** [t.unsqueeze(1)] of a vector: shape [(n, 1)]. *)
Definition unsqueeze1_of1 (t : tensor1 A) : tensor2 A :=
  T2 (len1 t) 1 (fun r _ => at1 t r).

(** [t.unsqueeze(1).unsqueeze(1)] of a vector: shape [(n, 1, 1)]. *)
Definition unsqueeze11_of1 (t : tensor1 A) : tensor3 A :=
  T3 (len1 t) 1 1 (fun h _ _ => at1 t h).

(** [t.unsqueeze(0)] of a matrix: shape [(1, r, c)]. *)
Definition unsqueeze0 (t : tensor2 A) : tensor3 A :=
  T3 1 (nrows t) (ncols t) (fun _ i j => at2 t i j).

(** [t.unsqueeze(1)] of a matrix: shape [(r, 1, c)]. *)
Definition unsqueeze1 (t : tensor2 A) : tensor3 A :=
  T3 (nrows t) 1 (ncols t) (fun i _ j => at2 t i j).

(** [t.repeat(a, b)] of a matrix. *)
Definition repeat2 (a b : nat) (t : tensor2 A) : tensor2 A :=
  T2 (a * nrows t) (b * ncols t)
     (fun r c => at2 t (r mod nrows t) (c mod ncols t)).

(** [t.repeat(a, b, c)] of a rank-three tensor. *)
Definition repeat3 (a b c : nat) (t : tensor3 A) : tensor3 A :=
  T3 (a * dim0 t) (b * dim1 t) (c * dim2 t)
     (fun i j k => at3 t (i mod dim0 t) (j mod dim1 t) (k mod dim2 t)).

(** [t.view(-1)] of a matrix, row-major. *)
Definition view_flat (t : tensor2 A) : tensor1 A :=
  T1 (nrows t * ncols t) (fun m => at2 t (m / ncols t) (m mod ncols t)).

(** [torch.flip(t, dims=[0])]. *)
Definition flip (t : tensor1 A) : tensor1 A :=
  T1 (len1 t) (fun i => at1 t (len1 t - 1 - i)).

(** [t[-k:]]: the last [k] entries, all of [t] when it is shorter. *)
Definition slice_last (k : nat) (t : tensor1 A) : tensor1 A :=
  let k' := Nat.min k (len1 t) in
  T1 k' (fun j => at1 t (len1 t - k' + j)).

(** [t.transpose(0, 1)]. *)
Definition transpose (t : tensor2 A) : tensor2 A :=
  T2 (ncols t) (nrows t) (fun i j => at2 t j i).

(** Size of one axis of a broadcast, when the two sizes are compatible. *)
Definition bdim (a b : nat) : option nat :=
  if a =? b then Some a
  else if a =? 1 then Some b
  else if b =? 1 then Some a
  else None.

(** Index read on an axis of size [d] for the broadcast index [i]. *)
Definition bidx (d i : nat) : nat := if d =? 1 then 0 else i.

(** Elementwise binary operation with torch's broadcasting. *)
Definition broadcast3 (f : A -> B -> C) (x : tensor3 A) (y : tensor3 B)
  : result (tensor3 C) :=
  match bdim (dim0 x) (dim0 y), bdim (dim1 x) (dim1 y), bdim (dim2 x) (dim2 y) with
  | Some d0, Some d1, Some d2 =>
      Ok (T3 d0 d1 d2
             (fun i j k =>
                f (at3 x (bidx (dim0 x) i) (bidx (dim1 x) j) (bidx (dim2 x) k))
                  (at3 y (bidx (dim0 y) i) (bidx (dim1 y) j) (bidx (dim2 y) k))))
  | _, _, _ => Err RuntimeError
  end.

End TensorOps.

(** ** Temporal bias: [init_biased_mask] *)

Module BiasMask.

Local Open Scope R_scope.

(** [math.log2(n)] *)
Definition log2 (n : nat) : R := ln (INR n) / ln 2.

(** [math.log2(n).is_integer()], decided on the integer argument. *)
Definition log2_is_integer (n : nat) : bool := (2 ^ Nat.log2 n =? n)%nat.

(** [l[0::2]] *)
Fixpoint evens {A : Type} (l : list A) : list A :=
  match l with
  | [] => []
  | x :: l' => x :: match l' with [] => [] | _ :: l'' => evens l'' end
  end.

(** [2**(-2**-(math.log2(n)-3))] *)
Definition slope_start (n : nat) : R := Rpower 2 (- Rpower 2 (- (log2 n - 3))).

(** [math.log2] raises [ValueError] outside the positive integers. *)
Definition get_slopes_power_of_2 (n : nat) : result (list R) :=
  if (n =? 0)%nat then Err ValueError
  else
    let start := slope_start n in
    let ratio := start in
    Ok (map (fun i => start * ratio ^ i) (seq 0 n)).

Definition inspect {A : Type} (a : A) : {b : A | a = b} := exist _ a eq_refl.

Equations? get_slopes (n : nat) : result (list R)
  by wf (if log2_is_integer n then 0%nat else 1%nat) lt :=
  get_slopes n with inspect (n =? 0)%nat => {
    | exist _ true _ => Err ValueError
    | exist _ false _ with inspect (log2_is_integer n) => {
      | exist _ true _ => get_slopes_power_of_2 n
      | exist _ false Hn =>
          let closest_power_of_2 := (2 ^ Nat.log2 n)%nat in
          match get_slopes_power_of_2 closest_power_of_2 with
          | Err e => Err e
          | Ok head =>
              match get_slopes (2 * closest_power_of_2) with
              | Err e => Err e
              | Ok next =>
                  Ok (head ++ firstn (n - closest_power_of_2) (evens next))
              end
          end } }.
Proof.
  rewrite Hn. unfold log2_is_integer.
  replace (closest_power_of_2 + (closest_power_of_2 + 0))%nat
    with (2 ^ S (Nat.log2 n))%nat by (subst closest_power_of_2; simpl; lia).
  rewrite Nat.log2_pow2 by lia. rewrite Nat.eqb_refl. lia.
Qed.

(** [torch.arange(start=0, end=stop, step=step)] *)
Definition arange (stop step : nat) : result (tensor1 Z) :=
  if (step =? 0)%nat then Err RuntimeError
  else Ok (T1 ((stop + step - 1) / step) (fun i => Z.of_nat (i * step))).

(** [t // d] *)
Definition floor_divide (t : tensor1 Z) (d : Z) : tensor1 Z :=
  map1 (fun v => (v / d)%Z) t.

Definition zeros (r c : nat) : tensor2 R := T2 r c (fun _ _ => 0).
Definition ones (r c : nat) : tensor2 R := T2 r c (fun _ _ => 1).

(** [m[i, :hi] = src], the integer source converted to float. *)
Definition setrow_prefix (m : tensor2 R) (i hi : nat) (src : tensor1 Z)
  : result (tensor2 R) :=
  if (i <? nrows m)%nat then
    let width := Nat.min hi (ncols m) in
    if (len1 src =? width)%nat then
      Ok (T2 (nrows m) (ncols m)
             (fun r c => if (r =? i)%nat && (c <? width)%nat
                         then IZR (at1 src c) else at2 m r c))
    else if (len1 src =? 1)%nat then
      Ok (T2 (nrows m) (ncols m)
             (fun r c => if (r =? i)%nat && (c <? width)%nat
                         then IZR (at1 src 0) else at2 m r c))
    else Err RuntimeError
  else Err IndexError.

(** [torch.triu(t)] *)
Definition triu (t : tensor2 R) : tensor2 R :=
  T2 (nrows t) (ncols t) (fun i j => if (i <=? j)%nat then at2 t i j else 0).

(** [b == k] for a boolean entry and a Python integer. *)
Definition bool_eq_int (b : bool) (k : Z) : bool :=
  ((if b then 1 else 0) =? k)%Z.

(** [t.masked_fill(cond, v)] *)
Definition masked_fill (t : tensor2 xreal) (cond : tensor2 bool) (v : xreal)
  : tensor2 xreal :=
  T2 (nrows t) (ncols t) (fun i j => if at2 cond i j then v else at2 t i j).

(** [mask.float()] *)
Definition to_float (b : bool) : R := if b then 1 else 0.

(** Float addition when the left operand may be [-inf]. *)
Definition xadd (x : xreal) (y : R) : xreal :=
  match x with
  | NegInf => NegInf
  | Fin a => Fin (a + y)
  end.

Definition init_biased_mask (n_head max_seq_len period : nat)
  : result (tensor3 xreal) :=
  slopes_list <- get_slopes n_head ;;
  let slopes := of_list 0 slopes_list in
  steps <- arange max_seq_len period ;;
  let bias :=
    floor_divide (view_flat (repeat2 1 period (unsqueeze1_of1 steps)))
                 (Z.of_nat period) in
  let bias := map1 Z.opp (flip bias) in
  let alibi := zeros max_seq_len max_seq_len in
  alibi <- for_range max_seq_len
             (fun alibi i => setrow_prefix alibi i (i + 1) (slice_last (i + 1) bias))
             alibi ;;
  alibi <- broadcast3 Rmult (unsqueeze11_of1 slopes) (unsqueeze0 alibi) ;;
  let mask :=
    transpose (map2 (fun v => Reqb v 1) (triu (ones max_seq_len max_seq_len))) in
  let mask :=
    masked_fill
      (masked_fill (map2 (fun b => Fin (to_float b)) mask)
                   (map2 (fun b => bool_eq_int b 0) mask) NegInf)
      (map2 (fun b => bool_eq_int b 1) mask) (Fin 0) in
  broadcast3 xadd (unsqueeze0 mask) alibi.

End BiasMask.

(** ** More tensor operations *)

Section TensorOps3.

Context {A B C : Type}.

(** A vector read as a one-row matrix, the way broadcasting aligns it. *)
Definition as_row (t : tensor1 A) : tensor2 A :=
  T2 1 (len1 t) (fun _ c => at1 t c).

(** A matrix read with a leading axis of size one, the way broadcasting
    aligns it against a rank-three tensor. *)
Definition as_leading1 (t : tensor2 A) : tensor3 A :=
  T3 1 (nrows t) (ncols t) (fun _ i j => at2 t i j).

Definition broadcast2 (f : A -> B -> C) (x : tensor2 A) (y : tensor2 B)
  : result (tensor2 C) :=
  match bdim (nrows x) (nrows y), bdim (ncols x) (ncols y) with
  | Some r, Some c =>
      Ok (T2 r c
             (fun i j =>
                f (at2 x (bidx (nrows x) i) (bidx (ncols x) j))
                  (at2 y (bidx (nrows y) i) (bidx (ncols y) j))))
  | _, _ => Err RuntimeError
  end.

(** [t[:, :n, :]] *)
Definition slice1 (n : nat) (t : tensor3 A) : tensor3 A :=
  T3 (dim0 t) (Nat.min n (dim1 t)) (dim2 t) (at3 t).

(** [t[:, :n, :m]] *)
Definition slice12 (n m : nat) (t : tensor3 A) : tensor3 A :=
  T3 (dim0 t) (Nat.min n (dim1 t)) (Nat.min m (dim2 t)) (at3 t).

(** [t[:, :-1]] *)
Definition drop_last1 (t : tensor3 A) : tensor3 A :=
  T3 (dim0 t) (dim1 t - 1) (dim2 t) (at3 t).

(** [t[:, -1, :]] *)
Definition last1 (t : tensor3 A) : result (tensor2 A) :=
  if dim1 t =? 0 then Err IndexError
  else Ok (T2 (dim0 t) (dim2 t) (fun i k => at3 t i (dim1 t - 1) k)).

(** [torch.cat((x, y), 1)] *)
Definition cat1 (x y : tensor3 A) : result (tensor3 A) :=
  if (dim0 x =? dim0 y) && (dim2 x =? dim2 y)
  then Ok (T3 (dim0 x) (dim1 x + dim1 y) (dim2 x)
              (fun i j k => if j <? dim1 x then at3 x i j k
                            else at3 y i (j - dim1 x) k))
  else Err RuntimeError.

(** [torch.cat([x, y], dim=2)] *)
Definition cat2 (x y : tensor3 A) : result (tensor3 A) :=
  if (dim0 x =? dim0 y) && (dim1 x =? dim1 y)
  then Ok (T3 (dim0 x) (dim1 x) (dim2 x + dim2 y)
              (fun i j k => if k <? dim2 x then at3 x i j k
                            else at3 y i j (k - dim2 x)))
  else Err RuntimeError.

End TensorOps3.

(** ** Positional encoders *)

(** What the two encoders share. *)
Module PE.

Local Open Scope R_scope.

(** [torch.arange(0, n).unsqueeze(1)] as floats: shape [(n, 1)]. *)
Definition position (n : nat) : tensor2 R := T2 n 1 (fun p _ => INR p).

(** [torch.exp(torch.arange(0, d_model, 2) * (-math.log(10000.0) / d_model))];
    the Python division raises on [d_model = 0]. *)
Definition div_term (d_model : nat) : result (tensor1 R) :=
  if (d_model =? 0)%nat then Err ZeroDivisionError
  else Ok (T1 ((d_model + 1) / 2)
              (fun k => exp (INR (2 * k) * (- ln 10000 / INR d_model)))).

(** Number of columns selected by [start::2] among [n]. *)
Definition strided_count (start n : nat) : nat := ((n - start + 1) / 2)%nat.

(** Is column [c] selected by [start::2]? *)
Definition strided (start c : nat) : bool :=
  (start <=? c)%nat && ((c - start) mod 2 =? 0)%nat.

(** Can a source axis of size [s] be written to a destination axis of
    size [d]? *)
Definition fits (s d : nat) : bool := (s =? d)%nat || (s =? 1)%nat.

(** [dst[:, start::2] = src] *)
Definition set_cols_strided (start : nat) (dst src : tensor2 R)
  : result (tensor2 R) :=
  if fits (nrows src) (nrows dst)
     && fits (ncols src) (strided_count start (ncols dst))
  then Ok (T2 (nrows dst) (ncols dst)
              (fun r c =>
                 if strided start c
                 then at2 src (bidx (nrows src) r)
                          (bidx (ncols src) ((c - start) / 2))
                 else at2 dst r c))
  else Err RuntimeError.

(** [dst[:, 0, start::2] = src] *)
Definition set_mid0_cols_strided (start : nat) (dst : tensor3 R) (src : tensor2 R)
  : result (tensor3 R) :=
  if (dim1 dst =? 0)%nat then Err IndexError
  else if fits (nrows src) (dim0 dst)
          && fits (ncols src) (strided_count start (dim2 dst))
  then Ok (T3 (dim0 dst) (dim1 dst) (dim2 dst)
              (fun i j k =>
                 if (j =? 0)%nat && strided start k
                 then at2 src (bidx (nrows src) i)
                          (bidx (ncols src) ((k - start) / 2))
                 else at3 dst i j k))
  else Err RuntimeError.

Definition op_is_add (op : string) : bool :=
  existsb (String.eqb op) ["add"; "sum"]%string.

Definition op_is_concat (op : string) : bool :=
  existsb (String.eqb op) ["concat"; "cat"; "concatenate"]%string.

(** [nn.Dropout] in inference mode. *)
Definition dropout (x : tensor3 R) : tensor3 R := x.

(** The body shared by the two [forward] methods, on the registered
    buffer [pe]. *)
Definition combine (op : string) (pe x : tensor3 R) : result (tensor3 R) :=
  let pe := slice1 (dim1 x) pe in
  x <- (if op_is_add op then broadcast3 Rplus x pe
        else if op_is_concat op then cat2 x (repeat3 1 (dim1 x) 1 pe)
        else Err ValueError) ;;
  Ok (dropout x).

Definition output_size_factor (op : string) : result nat :=
  if op_is_add op then Ok 1%nat
  else if op_is_concat op then Ok 2%nat
  else Err ValueError.

End PE.

Module PeriodicPositionalEncoding.

Local Open Scope R_scope.

Record t : Type := Build { op : string; pe : tensor3 R }.

Definition init (d_model period max_seq_len : nat) (op : string) : result t :=
  let pe := BiasMask.zeros period d_model in
  let position := PE.position period in
  div_term <- PE.div_term d_model ;;
  angles <- broadcast2 Rmult position (as_row div_term) ;;
  pe <- PE.set_cols_strided 0 pe (map2 sin angles) ;;
  pe <- PE.set_cols_strided 1 pe (map2 cos angles) ;;
  let pe := unsqueeze0 pe in
  repeat_num <- (if (period =? 0)%nat then Err ZeroDivisionError
                 else Ok (max_seq_len / period + 1)%nat) ;;
  let pe := repeat3 1 repeat_num 1 pe in
  Ok (Build op pe).

Definition forward (self : t) (x : tensor3 R) : result (tensor3 R) :=
  PE.combine (op self) (pe self) x.

Definition output_size_factor (self : t) : result nat :=
  PE.output_size_factor (op self).

End PeriodicPositionalEncoding.

Module PositionalEncoding.

Local Open Scope R_scope.

Record t : Type := Build { op : string; pe : tensor3 R }.

Definition init (d_model max_len : nat) (op : string) : result t :=
  let position := PE.position max_len in
  div_term <- PE.div_term d_model ;;
  let pe := T3 max_len 1 d_model (fun _ _ _ => 0) in
  angles <- broadcast2 Rmult position (as_row div_term) ;;
  pe <- PE.set_mid0_cols_strided 0 pe (map2 sin angles) ;;
  pe <- PE.set_mid0_cols_strided 1 pe (map2 cos angles) ;;
  Ok (Build op pe).

Definition forward (self : t) (x : tensor3 R) : result (tensor3 R) :=
  PE.combine (op self) (pe self) x.

Definition output_size_factor (self : t) : result nat :=
  PE.output_size_factor (op self).

End PositionalEncoding.

(** ** Linear layers *)

Module Linear.

Local Open Scope R_scope.

(** [nn.Linear(in_features, out_features, bias)]; [weight] is indexed
    [out, in] as in torch. *)
Record t : Type := Build {
  in_features : nat;
  out_features : nat;
  weight : nat -> nat -> R;
  bias : option (nat -> R)
}.

(** [sum(f(k) for k in range(n))] *)
Definition sum_upto (n : nat) (f : nat -> R) : R :=
  fold_right Rplus 0 (map f (seq 0 n)).

(** One output coordinate of [x @ weight.T + bias]. *)
Definition apply_row (l : t) (x : nat -> R) (j : nat) : R :=
  let s := sum_upto (in_features l) (fun k => x k * weight l j k) in
  match bias l with
  | Some b => s + b j
  | None => s
  end.

Definition forward2 (l : t) (x : tensor2 R) : result (tensor2 R) :=
  if (ncols x =? in_features l)%nat
  then Ok (T2 (nrows x) (out_features l) (fun b j => apply_row l (at2 x b) j))
  else Err RuntimeError.

Definition forward3 (l : t) (x : tensor3 R) : result (tensor3 R) :=
  if (dim2 x =? in_features l)%nat
  then Ok (T3 (dim0 x) (dim1 x) (out_features l)
              (fun b r j => apply_row l (at3 x b r) j))
  else Err RuntimeError.

(** [nn.init.constant_(l.weight, v)] *)
Definition constant_weight (l : t) (v : R) : t :=
  Build (in_features l) (out_features l) (fun _ _ => v) (bias l).

(** [nn.init.constant_(l.bias, v)] of a layer built with a bias. *)
Definition constant_bias (l : t) (v : R) : t :=
  Build (in_features l) (out_features l) (weight l) (Some (fun _ => v)).

End Linear.

(** ** The sample dictionary *)

(** The keys the decoder reads and writes; a key that is absent is [None]
    and looking it up raises [KeyError]. *)
Record sample : Type := Sample {
  seq_encoder_output : option (tensor3 R);
  hidden_feature : option (tensor3 R);
  gt_vertices : option (tensor3 R);
  template : option (tensor2 R);
  one_hot : option (tensor2 R);
  style_emb : option (tensor3 R);
  embedded_output : option (tensor3 R);
  predicted_vertices : option (tensor3 R)
}.

Definition getitem {A : Type} (entry : option A) : result A :=
  match entry with
  | Some v => Ok v
  | None => Err KeyError
  end.

Definition set_hidden_feature (s : sample) (v : tensor3 R) : sample :=
  Sample (seq_encoder_output s) (Some v) (gt_vertices s) (template s)
         (one_hot s) (style_emb s) (embedded_output s) (predicted_vertices s).

Definition set_style_emb (s : sample) (v : tensor3 R) : sample :=
  Sample (seq_encoder_output s) (hidden_feature s) (gt_vertices s) (template s)
         (one_hot s) (Some v) (embedded_output s) (predicted_vertices s).

Definition set_embedded_output (s : sample) (v : tensor3 R) : sample :=
  Sample (seq_encoder_output s) (hidden_feature s) (gt_vertices s) (template s)
         (one_hot s) (style_emb s) (Some v) (predicted_vertices s).

Definition set_predicted_vertices (s : sample) (v : tensor3 R) : sample :=
  Sample (seq_encoder_output s) (hidden_feature s) (gt_vertices s) (template s)
         (one_hot s) (style_emb s) (embedded_output s) (Some v).

(** ** The decoding loop of [AutoRegressiveDecoder] *)

(** The methods a decoder supplies; the base class raises
    [NotImplementedError] in each of them. *)
Class AutoRegressiveDecoder (D : Type) : Type := {
  _max_auto_regressive_steps : D -> nat;
  _teacher_forced_step : D -> sample -> result sample;
  _autoregressive_step : D -> sample -> nat -> result sample;
  _post_prediction : D -> sample -> result sample
}.

(** The number of frames the stepping loop is asked for. *)
Definition requested_frames (s : sample) (hidden_states : tensor3 R) : nat :=
  match gt_vertices s with
  | Some gt => dim1 gt
  | None => dim1 hidden_states
  end.

Definition forward {D : Type} `{AutoRegressiveDecoder D}
  (self : D) (s : sample) (train teacher_forcing : bool) : result sample :=
  hidden_states <- getitem (seq_encoder_output s) ;;
  let s := set_hidden_feature s hidden_states in
  s <- (if teacher_forcing then _teacher_forced_step self s
        else
          let num_frames := requested_frames s hidden_states in
          let num_frames := Nat.min num_frames (_max_auto_regressive_steps self) in
          for_range num_frames (_autoregressive_step self) s) ;;
  _post_prediction self s.

(** ** [FaceFormerDecoder] *)

(** [cfg.positional_encoding]; an absent keyword takes the default of the
    constructor it is passed to.  The [dropout] keyword is not among them:
    the development covers evaluation mode, where dropout is the identity,
    with a probability that [nn.Dropout] accepts. *)
Record pe_cfg : Type := {
  pe_type : string;
  pe_period : option nat;
  pe_max_seq_len : option nat;
  pe_max_len : option nat;
  pe_op : option string
}.

Record cfg : Type := {
  feature_dim : nat;
  nhead : nat;
  max_len : nat;
  period : nat;
  num_layers : nat;
  vertices_dim : nat;
  num_training_subjects : nat;
  positional_encoding : pe_cfg
}.

Inductive positional_encoder : Type :=
| Periodic (p : PeriodicPositionalEncoding.t)
| Monotonic (p : PositionalEncoding.t).

Definition default {A : Type} (o : option A) (d : A) : A :=
  match o with Some v => v | None => d end.

Definition positional_encoding_from_cfg (c : cfg) : result positional_encoder :=
  let p := positional_encoding c in
  if String.eqb (pe_type p) "PeriodicPositionalEncoding" then
    pe <- PeriodicPositionalEncoding.init (feature_dim c)
            (default (pe_period p) 25) (default (pe_max_seq_len p) 600)
            (default (pe_op p) "add"%string) ;;
    Ok (Periodic pe)
  else if String.eqb (pe_type p) "PositionalEncoding" then
    pe <- PositionalEncoding.init (feature_dim c)
            (default (pe_max_len p) 600) (default (pe_op p) "add"%string) ;;
    Ok (Monotonic pe)
  else Err ValueError.

Definition PE_forward (pe : positional_encoder) (x : tensor3 R) : result (tensor3 R) :=
  match pe with
  | Periodic p => PeriodicPositionalEncoding.forward p x
  | Monotonic p => PositionalEncoding.forward p x
  end.

(** The decoder object: its buffers, its layers, and the hyperparameters
    the attention stack was built with. *)
Record FaceFormerDecoder : Type := {
  PE : positional_encoder;
  biased_mask : tensor3 xreal;
  d_model : nat;
  n_head : nat;
  vertice_map : Linear.t;
  obj_vector : Linear.t;
  vertex_map : Linear.t
}.

(** The parameters torch allocates for the three linear layers, before
    [__init__] overwrites any of them. *)
Record fresh_parameters : Type := {
  vertice_map_weight : nat -> nat -> R;
  vertice_map_bias : nat -> R;
  obj_vector_weight : nat -> nat -> R;
  vertex_map_weight : nat -> nat -> R;
  vertex_map_bias : nat -> R
}.

(** [FaceFormerDecoder(cfg)].  The attention stack itself is built by
    torch from [feature_dim], [nhead] and [num_layers]; what it computes
    enters below as a parameter, and the development covers the
    configurations torch builds a working stack for ([nhead] divides
    [feature_dim], at least one layer). *)
Definition FaceFormerDecoder_init (c : cfg) (w : fresh_parameters)
  : result FaceFormerDecoder :=
  pe <- positional_encoding_from_cfg c ;;
  mask <- BiasMask.init_biased_mask (nhead c) (max_len c) (period c) ;;
  let vertice_map :=
    Linear.Build (vertices_dim c) (feature_dim c)
                 (vertice_map_weight w) (Some (vertice_map_bias w)) in
  let obj_vector :=
    Linear.Build (num_training_subjects c) (feature_dim c)
                 (obj_vector_weight w) None in
  let vertex_map :=
    Linear.Build (feature_dim c) (vertices_dim c)
                 (vertex_map_weight w) (Some (vertex_map_bias w)) in
  let vertex_map := Linear.constant_weight vertex_map 0 in
  let vertex_map := Linear.constant_bias vertex_map 0 in
  Ok {| PE := pe; biased_mask := mask;
        d_model := feature_dim c; n_head := nhead c;
        vertice_map := vertice_map; obj_vector := obj_vector;
        vertex_map := vertex_map |}.

Section Engine.

(** The values computed by the attention stack
    [nn.TransformerDecoder(decoder_layer, num_layers)] with its trained
    weights, on [tgt], [memory], [tgt_mask] and [memory_mask]: library
    code, taken as a parameter. *)
Variable attention :
  tensor3 R -> tensor3 R -> tensor3 xreal -> tensor2 bool -> nat -> nat -> nat -> R.

(** [self.transformer_decoder(tgt, memory, tgt_mask=..., memory_mask=...)]
    for a batch-first stack of at least one layer: torch checks the widths
    against [d_model], wants a rank-three [tgt_mask] of shape
    [(batch * nhead, T, T)] and a [memory_mask] of shape [(T, S)], and
    returns a tensor of the shape of [tgt]. *)
Definition transformer_decoder (self : FaceFormerDecoder)
  (tgt memory : tensor3 R) (tgt_mask : tensor3 xreal) (memory_mask : tensor2 bool)
  : result (tensor3 R) :=
  if (dim2 tgt =? d_model self) && (dim2 memory =? d_model self)
     && (dim0 memory =? dim0 tgt)
     && (dim0 tgt_mask =? dim0 tgt * n_head self)
     && (dim1 tgt_mask =? dim1 tgt) && (dim2 tgt_mask =? dim1 tgt)
     && (nrows memory_mask =? dim1 tgt) && (ncols memory_mask =? dim1 memory)
  then Ok (T3 (dim0 tgt) (dim1 tgt) (dim2 tgt)
              (attention tgt memory tgt_mask memory_mask))
  else Err RuntimeError.

Definition _decode_vertices (self : FaceFormerDecoder) (s : sample)
  (transformer_out : tensor3 R) : result (tensor3 R) :=
  Linear.forward3 (vertex_map self) transformer_out.

Definition _decode (self : FaceFormerDecoder) (s : sample)
  (vertices_input hidden_states : tensor3 R) : result (tensor3 R) :=
  let tgt_mask :=
    slice12 (dim1 vertices_input) (dim1 vertices_input) (biased_mask self) in
  memory_mask <- Alignment.enc_dec_mask (dim1 vertices_input) (dim1 hidden_states)
                   Alignment.default_dataset ;;
  transformer_out <-
    transformer_decoder self vertices_input hidden_states tgt_mask memory_mask ;;
  _decode_vertices self s transformer_out.

Definition FaceFormer_max_auto_regressive_steps (self : FaceFormerDecoder) : nat :=
  dim1 (biased_mask self).

Definition FaceFormer_autoregressive_step (self : FaceFormerDecoder)
  (s : sample) (i : nat) : result sample :=
  hidden_states <- getitem (hidden_feature s) ;;
  st <- (if i =? 0 then
           one_hot <- getitem (one_hot s) ;;
           obj_embedding <- Linear.forward2 (obj_vector self) one_hot ;;
           let vertice_emb := unsqueeze1 obj_embedding in
           let style_emb := vertice_emb in
           let s := set_style_emb s style_emb in
           vertices_input <- PE_forward (PE self) style_emb ;;
           Ok (s, vertice_emb, style_emb, vertices_input)
         else
           vertice_emb <- getitem (embedded_output s) ;;
           style_emb <- getitem (style_emb s) ;;
           vertices_input <- PE_forward (PE self) vertice_emb ;;
           Ok (s, vertice_emb, style_emb, vertices_input)) ;;
  let '(s, vertice_emb, style_emb, vertices_input) := st in
  vertices_out <- _decode self s vertices_input hidden_states ;;
  let s := set_predicted_vertices s vertices_out in
  last <- last1 vertices_out ;;
  new_output <- Linear.forward2 (vertice_map self) last ;;
  let new_output := unsqueeze1 new_output in
  new_output <- broadcast3 Rplus new_output style_emb ;;
  vertice_emb <- cat1 vertice_emb new_output ;;
  Ok (set_embedded_output s vertice_emb).

Definition FaceFormer_teacher_forced_step (self : FaceFormerDecoder)
  (s : sample) : result sample :=
  vertices <- getitem (gt_vertices s) ;;
  template <- getitem (template s) ;;
  let template := unsqueeze1 template in
  hidden_states <- getitem (hidden_feature s) ;;
  one_hot <- getitem (one_hot s) ;;
  obj_embedding <- Linear.forward2 (obj_vector self) one_hot ;;
  let vertice_emb := unsqueeze1 obj_embedding in
  let style_emb := vertice_emb in
  vertices_input <- cat1 template (drop_last1 vertices) ;;
  vertices_input <- broadcast3 Rminus vertices_input template ;;
  vertices_input <- Linear.forward3 (vertice_map self) vertices_input ;;
  vertices_input <- broadcast3 Rplus vertices_input style_emb ;;
  vertices_input <- PE_forward (PE self) vertices_input ;;
  vertices_out <- _decode self s vertices_input hidden_states ;;
  Ok (set_predicted_vertices s vertices_out).

Definition FaceFormer_post_prediction (self : FaceFormerDecoder)
  (s : sample) : result sample :=
  template <- getitem (template s) ;;
  vertices_out <- getitem (predicted_vertices s) ;;
  vertices_out <- broadcast3 Rplus vertices_out (as_leading1 template) ;;
  Ok (set_predicted_vertices s vertices_out).

#[export] Instance FaceFormer_decoder : AutoRegressiveDecoder FaceFormerDecoder := {
  _max_auto_regressive_steps := FaceFormer_max_auto_regressive_steps;
  _teacher_forced_step := FaceFormer_teacher_forced_step;
  _autoregressive_step := FaceFormer_autoregressive_step;
  _post_prediction := FaceFormer_post_prediction
}.

End Engine.

(** [self.forward(sample, train, teacher_forcing)] of a [FaceFormerDecoder]
    whose attention stack computes [attention]. *)
Definition FaceFormer_forward
  (attention : tensor3 R -> tensor3 R -> tensor3 xreal -> tensor2 bool ->
               nat -> nat -> nat -> R)
  (self : FaceFormerDecoder) (s : sample) (train teacher_forcing : bool)
  : result sample :=
  forward (H := FaceFormer_decoder attention) self s train teacher_forcing.

(** Number of rows of the registered positional table. *)
Definition PE_rows (pe : positional_encoder) : nat :=
  match pe with
  | Periodic p => dim1 (PeriodicPositionalEncoding.pe p)
  | Monotonic p => dim1 (PositionalEncoding.pe p)
  end.

(** What [__init__] establishes about the buffers and survives training:
    a non-empty positional table and a square bias mask with one slice per
    head of the attention stack. *)
Definition well_formed (self : FaceFormerDecoder) : Prop :=
  1 <= PE_rows (PE self)
  /\ 1 <= n_head self
  /\ dim0 (biased_mask self) = n_head self
  /\ dim2 (biased_mask self) = dim1 (biased_mask self).

(** State of the sample after [k >= 1] rounds of the stepping loop started
    on [s0]: the inputs are untouched, [k] frames are predicted and the
    running embedded sequence holds [k + 1] entries. *)
Definition stepping_state (self : FaceFormerDecoder) (k : nat) (s0 s : sample) : Prop :=
  seq_encoder_output s = seq_encoder_output s0
  /\ hidden_feature s = hidden_feature s0
  /\ gt_vertices s = gt_vertices s0
  /\ template s = template s0
  /\ one_hot s = one_hot s0
  /\ exists h pv e st,
       hidden_feature s0 = Some h /\ dim0 h = 1
       /\ predicted_vertices s = Some pv
       /\ embedded_output s = Some e
       /\ style_emb s = Some st
       /\ dim0 pv = 1 /\ dim1 pv = k
       /\ dim2 pv = Linear.out_features (vertex_map self)
       /\ dim1 e = k + 1 /\ dim1 st = 1.

(** The template of a sample has one row per sequence of the conditioning
    batch. *)
Definition template_per_sequence (s : sample) : Prop :=
  forall h tmpl, seq_encoder_output s = Some h -> template s = Some tmpl ->
                 nrows tmpl = dim0 h.

(** A decoder with the periodic encoder in sum mode whose layers have the
    widths of a configuration with [feature_dim = F], [vertices_dim = D]
    and [num_training_subjects = K]. *)
Definition periodic_add_decoder (self : FaceFormerDecoder) (F D K : nat) : Prop :=
  exists p,
    PE self = Periodic p
    /\ PE.op_is_add (PeriodicPositionalEncoding.op p) = true
    /\ dim0 (PeriodicPositionalEncoding.pe p) = 1
    /\ dim2 (PeriodicPositionalEncoding.pe p) = F
    /\ d_model self = F
    /\ Linear.in_features (vertice_map self) = D
    /\ Linear.out_features (vertice_map self) = F
    /\ Linear.in_features (obj_vector self) = K
    /\ Linear.out_features (obj_vector self) = F
    /\ Linear.in_features (vertex_map self) = F
    /\ Linear.out_features (vertex_map self) = D.

(** A sample holding one sequence: conditioning of shape [(1, S, F)],
    one-hot identity of shape [(1, K)], template of shape [(1, D)]. *)
Definition batch_of_one (s : sample) (F D K S : nat) : Prop :=
  exists h oh tmpl,
    seq_encoder_output s = Some h
    /\ dim0 h = 1 /\ dim1 h = S /\ dim2 h = F
    /\ one_hot s = Some oh /\ nrows oh = 1 /\ ncols oh = K
    /\ template s = Some tmpl /\ nrows tmpl = 1 /\ ncols tmpl = D.

(** The decoder after its parameters were updated (training, or
    [load_state_dict]): buffers and layer shapes stay, the weights of the
    three linear layers are replaced. *)
Definition load_parameters (self : FaceFormerDecoder) (w : fresh_parameters)
  : FaceFormerDecoder :=
  {| PE := PE self; biased_mask := biased_mask self;
     d_model := d_model self; n_head := n_head self;
     vertice_map :=
       Linear.Build (Linear.in_features (vertice_map self))
                    (Linear.out_features (vertice_map self))
                    (vertice_map_weight w) (Some (vertice_map_bias w));
     obj_vector :=
       Linear.Build (Linear.in_features (obj_vector self))
                    (Linear.out_features (obj_vector self))
                    (obj_vector_weight w) None;
     vertex_map :=
       Linear.Build (Linear.in_features (vertex_map self))
                    (Linear.out_features (vertex_map self))
                    (vertex_map_weight w) (Some (vertex_map_bias w)) |}.

(** ** A small configuration used in examples *)

Module Demo.

Local Open Scope R_scope.

(** Width 2, one head, a bias mask for 2 steps, 3 output coordinates, one
    training subject, the periodic encoder with its defaults. *)
Definition config : cfg :=
  {| feature_dim := 2; nhead := 1; max_len := 2; period := 1; num_layers := 1;
     vertices_dim := 3; num_training_subjects := 1;
     positional_encoding :=
       {| pe_type := "PeriodicPositionalEncoding";
          pe_period := None; pe_max_seq_len := None; pe_max_len := None;
          pe_op := None |} |}.

Definition zero_parameters : fresh_parameters :=
  {| vertice_map_weight := fun _ _ => 0; vertice_map_bias := fun _ => 0;
     obj_vector_weight := fun _ _ => 0;
     vertex_map_weight := fun _ _ => 0; vertex_map_bias := fun _ => 0 |}.

(** Parameters with a frame embedder of bias one and an output head that
    sums its input. *)
Definition trained_parameters : fresh_parameters :=
  {| vertice_map_weight := fun _ _ => 0; vertice_map_bias := fun _ => 1;
     obj_vector_weight := fun _ _ => 0;
     vertex_map_weight := fun _ _ => 1; vertex_map_bias := fun _ => 0 |}.

(** One sequence with [S] conditioning positions and no ground truth. *)
Definition inference_sample (S : nat) : sample :=
  {| seq_encoder_output := Some (T3 1 S 2 (fun _ _ _ => 0));
     hidden_feature := None;
     gt_vertices := None;
     template := Some (T2 1 3 (fun _ c => INR c));
     one_hot := Some (T2 1 1 (fun _ _ => 1));
     style_emb := None;
     embedded_output := None;
     predicted_vertices := None |}.

(** One sequence with [S] conditioning positions and [T] ground-truth
    frames. *)
Definition training_sample (S T : nat) : sample :=
  {| seq_encoder_output := Some (T3 1 S 2 (fun _ _ _ => 0));
     hidden_feature := None;
     gt_vertices := Some (T3 1 T 3 (fun _ r c => INR (r + c)));
     template := Some (T2 1 3 (fun _ c => INR c));
     one_hot := Some (T2 1 1 (fun _ _ => 1));
     style_emb := None;
     embedded_output := None;
     predicted_vertices := None |}.

(** An attention stack that hands its target through. *)
Definition pass_through
  (tgt memory : tensor3 R) (tgt_mask : tensor3 xreal) (memory_mask : tensor2 bool)
  : nat -> nat -> nat -> R :=
  at3 tgt.

End Demo.

(** ** The stepping loop fed with the ground truth *)

Section GroundTruthFed.

Local Open Scope R_scope.

Variable attention :
  tensor3 R -> tensor3 R -> tensor3 xreal -> tensor2 bool -> nat -> nat -> nat -> R.

(** [t[:, i, :]] *)
Definition select1 {A : Type} (i : nat) (t : tensor3 A) : result (tensor2 A) :=
  if (i <? dim1 t)%nat
  then Ok (T2 (dim0 t) (dim2 t) (fun b k => at3 t b i k))
  else Err IndexError.

(** Follows the spec's words ("STEPPING is fed the ground-truth history at
    every step instead of its own predictions"): the step of the
    autoregressive loop, except that the frame embedded for the next step
    is ground-truth frame [i], taken relative to the template as the
    predictions are, in place of the frame just predicted. *)
Definition ground_truth_fed_step (self : FaceFormerDecoder)
  (s : sample) (i : nat) : result sample :=
  hidden_states <- getitem (hidden_feature s) ;;
  st <- (if (i =? 0)%nat then
           one_hot <- getitem (one_hot s) ;;
           obj_embedding <- Linear.forward2 (obj_vector self) one_hot ;;
           let vertice_emb := unsqueeze1 obj_embedding in
           let style_emb := vertice_emb in
           let s := set_style_emb s style_emb in
           vertices_input <- PE_forward (PE self) style_emb ;;
           Ok (s, vertice_emb, style_emb, vertices_input)
         else
           vertice_emb <- getitem (embedded_output s) ;;
           style_emb <- getitem (style_emb s) ;;
           vertices_input <- PE_forward (PE self) vertice_emb ;;
           Ok (s, vertice_emb, style_emb, vertices_input)) ;;
  let '(s, vertice_emb, style_emb, vertices_input) := st in
  vertices_out <- _decode attention self s vertices_input hidden_states ;;
  let s := set_predicted_vertices s vertices_out in
  vertices <- getitem (gt_vertices s) ;;
  template <- getitem (template s) ;;
  frame <- select1 i vertices ;;
  offset <- broadcast2 Rminus frame template ;;
  new_output <- Linear.forward2 (vertice_map self) offset ;;
  let new_output := unsqueeze1 new_output in
  new_output <- broadcast3 Rplus new_output style_emb ;;
  vertice_emb <- cat1 vertice_emb new_output ;;
  Ok (set_embedded_output s vertice_emb).

End GroundTruthFed.

(** The attention stack is causal: when the self-attention mask hides
    every position from [n] on from the first [n] target positions, the
    first [n] output positions are a function of the first [n] target
    positions, of the memory, and of the first [n] rows of the two masks. *)
Definition causal_attention
  (attention : tensor3 R -> tensor3 R -> tensor3 xreal -> tensor2 bool ->
               nat -> nat -> nat -> R) : Prop :=
  forall (x x' mem : tensor3 R) (m m' : tensor3 xreal) (mm mm' : tensor2 bool)
         (n : nat),
    dim0 x' = dim0 x -> dim2 x' = dim2 x -> n <= dim1 x -> n <= dim1 x' ->
    (forall b r k, b < dim0 x -> r < n -> k < dim2 x ->
                   at3 x' b r k = at3 x b r k) ->
    dim0 m' = dim0 m ->
    (forall h r c, h < dim0 m -> r < n -> c < n -> at3 m' h r c = at3 m h r c) ->
    (forall h r c, h < dim0 m -> r < n -> n <= c -> c < dim2 m ->
                   at3 m h r c = NegInf) ->
    (forall h r c, h < dim0 m' -> r < n -> n <= c -> c < dim2 m' ->
                   at3 m' h r c = NegInf) ->
    (forall r c, r < n -> c < dim1 mem -> at2 mm' r c = at2 mm r c) ->
    forall b r k, b < dim0 x -> r < n -> k < dim2 x ->
      attention x' mem m' mm' b r k = attention x mem m mm b r k.

(** The bias mask forbids the future. *)
Definition future_masked (m : tensor3 xreal) : Prop :=
  forall h r c, h < dim0 m -> r < c -> c < dim2 m -> at3 m h r c = NegInf.

(** The frame embedder sends the zero offset to zero. *)
Definition zero_bias (l : Linear.t) : Prop :=
  match Linear.bias l with
  | Some b => forall j, b j = 0%R
  | None => True
  end.

(** A sample prepared for a step function: one sequence, the hidden
    feature set, [T] ground-truth frames of width [D]. *)
Definition training_batch_of_one (s : sample) (F D K S T : nat) : Prop :=
  batch_of_one s F D K S
  /\ hidden_feature s = seq_encoder_output s
  /\ exists gt, gt_vertices s = Some gt
                /\ dim0 gt = 1 /\ dim1 gt = T /\ dim2 gt = D.

(** The style embedding of the sequence, coordinate [k]. *)
Definition style_row (self : FaceFormerDecoder) (oh : tensor2 R) (k : nat) : R :=
  Linear.apply_row (obj_vector self) (at2 oh 0) k.

(** A frame taken relative to the template, embedded, plus the style. *)
Definition embedded_frame (self : FaceFormerDecoder) (oh tmpl : tensor2 R)
  (frame : nat -> R) (k : nat) : R :=
  (Linear.apply_row (vertice_map self) (fun d => frame d - at2 tmpl 0 d) k
   + style_row self oh k)%R.

(** Row [r] of the decoder input of the teacher-forced pass, before the
    positional code: the template first, then the ground truth shifted by
    one. *)
Definition forced_row (self : FaceFormerDecoder) (oh tmpl : tensor2 R)
  (gt : tensor3 R) (r k : nat) : R :=
  embedded_frame self oh tmpl
    (if r <? 1 then at2 tmpl 0 else at3 gt 0 (r - 1)) k.

(** Row [r] of the running sequence of the stepping loop fed with the
    ground truth: the style embedding first, then the embedded frames. *)
Definition stepping_row (self : FaceFormerDecoder) (oh tmpl : tensor2 R)
  (gt : tensor3 R) (r k : nat) : R :=
  if r =? 0 then style_row self oh k
  else embedded_frame self oh tmpl (at3 gt 0 (r - 1)) k.

(** State of the sample before round [k] of the ground-truth-fed loop: the
    inputs in place and, from the first round on, a style embedding and a
    running sequence whose rows are [stepping_row]. *)
Definition fed_state (self : FaceFormerDecoder) (F : nat) (h : tensor3 R)
  (oh tmpl : tensor2 R) (gt : tensor3 R) (k : nat) (s : sample) : Prop :=
  hidden_feature s = Some h
  /\ one_hot s = Some oh
  /\ template s = Some tmpl
  /\ gt_vertices s = Some gt
  /\ (k = 0
      \/ exists e st,
           embedded_output s = Some e
           /\ dim0 e = 1 /\ dim1 e = k + 1 /\ dim2 e = F
           /\ style_emb s = Some st
           /\ dim0 st = 1 /\ dim1 st = 1 /\ dim2 st = F
           /\ (forall kk, kk < F -> at3 st 0 0 kk = style_row self oh kk)
           /\ (forall r kk, r <= k -> kk < F ->
                 at3 e 0 r kk = stepping_row self oh tmpl gt r kk)).

(** The registered positional table. *)
Definition PE_table (pe : positional_encoder) : tensor3 R :=
  match pe with
  | Periodic p => PeriodicPositionalEncoding.pe p
  | Monotonic p => PositionalEncoding.pe p
  end.

(** A training sample as [forward] hands it to the step functions, with
    the hidden feature set. *)
Definition stepping_sample (S T : nat) : sample :=
  set_hidden_feature (Demo.training_sample S T) (T3 1 S 2 (fun _ _ _ => 0%R)).

(** The demo decoder after loading [Demo.trained_parameters]. *)
Definition trained_decoder (self0 : FaceFormerDecoder) : FaceFormerDecoder :=
  load_parameters self0 Demo.trained_parameters.

(** ** Proof steps for the result monad *)

(** Splits a hypothesis [x <- r ;; k = Ok v] on the result of [r]. *)
Ltac bind_ok H :=
  match type of H with
  | bind ?r _ = Ok _ =>
      let E := fresh "E" in
      destruct r eqn:E; simpl bind in H; [|discriminate H]
  end.

(** The same, naming the value and the equation. *)
Tactic Notation "bind_named" hyp(H) ident(x) ident(E) :=
  match type of H with
  | bind ?r _ = Ok _ =>
      destruct r as [x|] eqn:E; simpl bind in H; [|discriminate H]
  end.

(** ** Samples that differ in the ground truth only *)

(** [sample["gt_vertices"] = v] *)
Definition set_gt_vertices (s : sample) (v : tensor3 R) : sample :=
  Sample (seq_encoder_output s) (hidden_feature s) (Some v) (template s)
         (one_hot s) (style_emb s) (embedded_output s) (predicted_vertices s).

(** The outcome of a fallible computation with [f] applied to the value it
    returns, the exception kept when it raises. *)
Definition on_ok {A B : Type} (f : A -> B) (r : result A) : result B :=
  match r with
  | Ok a => Ok (f a)
  | Err e => Err e
  end.

(** ** Two more configurations used in examples *)

Module Examples.

(** The demo decoder with a bias mask for five steps over a periodic table
    of two rows ([period = 2], [max_seq_len = 1]). *)
Definition short_table_config : cfg :=
  {| feature_dim := 2; nhead := 1; max_len := 5; period := 1; num_layers := 1;
     vertices_dim := 3; num_training_subjects := 1;
     positional_encoding :=
       {| pe_type := "PeriodicPositionalEncoding";
          pe_period := Some 2; pe_max_seq_len := Some 1; pe_max_len := None;
          pe_op := None |} |}.

(** The demo decoder with the monotonic encoder and its defaults. *)
Definition monotonic_config : cfg :=
  {| feature_dim := 2; nhead := 1; max_len := 2; period := 1; num_layers := 1;
     vertices_dim := 3; num_training_subjects := 1;
     positional_encoding :=
       {| pe_type := "PositionalEncoding";
          pe_period := None; pe_max_seq_len := None; pe_max_len := None;
          pe_op := None |} |}.

End Examples.

(** ** What the stepping loop has computed *)

(** State of the sample after [m >= 1] rounds of the stepping loop on one
    sequence with the conditioning [h]: the running sequence [e] holds
    [m + 1] entries, and the prediction [p] holds [m] frames, the output
    head on the attention stack run over the first [m] entries of [e] with
    their positional codes added. *)
Definition stepped_state
  (attention : tensor3 R -> tensor3 R -> tensor3 xreal -> tensor2 bool ->
               nat -> nat -> nat -> R)
  (self : FaceFormerDecoder) (F D : nat) (h : tensor3 R) (m : nat)
  (s : sample) (e p : tensor3 R) : Prop :=
  hidden_feature s = Some h
  /\ embedded_output s = Some e
  /\ dim0 e = 1 /\ dim1 e = m + 1 /\ dim2 e = F
  /\ (exists st, style_emb s = Some st
                 /\ dim0 st = 1 /\ dim1 st = 1 /\ dim2 st = F)
  /\ predicted_vertices s = Some p
  /\ dim0 p = 1 /\ dim1 p = m /\ dim2 p = D
  /\ exists vin mm,
       dim0 vin = 1 /\ dim1 vin = m /\ dim2 vin = F
       /\ (forall r kk, r < m -> kk < F ->
             at3 vin 0 r kk
             = (at3 e 0 r kk + at3 (PE_table (PE self)) 0 r kk)%R)
       /\ Alignment.enc_dec_mask m (dim1 h) Alignment.default_dataset = Ok mm
       /\ forall b r j,
            at3 p b r j =
            Linear.apply_row (vertex_map self)
              (attention vin h (slice12 m m (biased_mask self)) mm b r) j.

(** ** Floats that are not finite *)

(** A float32 as a tensor holds it: a finite value, an infinity or NaN.
    The special values follow IEEE 754, so that [inf * 0] and [nan * 0]
    are NaN and NaN is absorbing; arithmetic on finite values is taken
    exact, as elsewhere in this development. *)
Module Float32.

Local Open Scope R_scope.

Inductive t : Type :=
| Finite (x : R)
| Infinite (negative : bool)
| NaN.

(** [torch.isfinite] on one entry. *)
Definition is_finite (a : t) : bool :=
  match a with
  | Finite _ => true
  | _ => false
  end.

(** [a * b] *)
Definition mul (a b : t) : t :=
  match a, b with
  | NaN, _ | _, NaN => NaN
  | Finite x, Finite y => Finite (x * y)
  | Infinite n, Infinite m => Infinite (xorb n m)
  | Infinite n, Finite y | Finite y, Infinite n =>
      if Req_dec_T y 0 then NaN
      else if Rlt_dec y 0 then Infinite (negb n)
      else Infinite n
  end.

(** [a + b] *)
Definition add (a b : t) : t :=
  match a, b with
  | NaN, _ | _, NaN => NaN
  | Finite x, Finite y => Finite (x + y)
  | Infinite n, Infinite m => if Bool.eqb n m then Infinite n else NaN
  | Infinite n, Finite _ | Finite _, Infinite n => Infinite n
  end.

(** [sum(f(k) for k in range(n))] *)
Definition sum_upto (n : nat) (f : nat -> t) : t :=
  fold_right add (Finite 0) (map f (seq 0 n)).

(** One output coordinate of [x @ weight.T + bias] for an input of such
    floats; the parameters of the layer are finite. *)
Definition apply_row (l : Linear.t) (x : nat -> t) (j : nat) : t :=
  let s := sum_upto (Linear.in_features l)
             (fun k => mul (x k) (Finite (Linear.weight l j k))) in
  match Linear.bias l with
  | Some b => add s (Finite (b j))
  | None => s
  end.

Definition forward3 (l : Linear.t) (x : tensor3 t) : result (tensor3 t) :=
  if (dim2 x =? Linear.in_features l)%nat
  then Ok (T3 (dim0 x) (dim1 x) (Linear.out_features l)
              (fun b r j => apply_row l (at3 x b r) j))
  else Err RuntimeError.

(** [_decode_vertices]: [self.vertex_map(transformer_out)]. *)
Definition _decode_vertices (self : FaceFormerDecoder)
  (transformer_out : tensor3 t) : result (tensor3 t) :=
  forward3 (vertex_map self) transformer_out.

(** A tensor of finite entries. *)
Definition of_reals (x : tensor2 R) : tensor2 t :=
  T2 (nrows x) (ncols x) (fun i j => Finite (at2 x i j)).

(** The sum of [_post_prediction]: [vertices_out + template]. *)
Definition add_template (vertices_out : tensor3 t) (template : tensor2 R)
  : result (tensor3 t) :=
  broadcast3 add vertices_out (as_leading1 (of_reals template)).

End Float32.
(** * Properties *)

(** ** Basic facts *)

Lemma Reqb_refl (x : R) : Reqb x x = true.
Proof. unfold Reqb. destruct (Req_dec_T x x); [reflexivity | contradiction]. Qed.

Lemma Reqb_neq (x y : R) : x <> y -> Reqb x y = false.
Proof. intros H. unfold Reqb. destruct (Req_dec_T x y); [contradiction | reflexivity]. Qed.


Lemma bind_Ok {A B : Type} (a : A) (k : A -> result B) : bind (Ok a) k = k a.
Proof. reflexivity. Qed.

Lemma for_range_S {S : Type} (n : nat) (body : S -> nat -> result S) (s : S) :
  for_range (Datatypes.S n) body s = s' <- for_range n body s ;; body s' n.
Proof.
  unfold for_range. rewrite seq_S. simpl Nat.add.
  generalize (seq 0 n) as l. intros l. revert s.
  induction l as [|i l IH]; intros s; simpl.
  - destruct (body s n); reflexivity.
  - destruct (body s i); simpl; [apply IH | reflexivity].
Qed.

Lemma for_range_1 {S : Type} (body : S -> nat -> result S) (s : S) :
  for_range 1 body s = body s 0.
Proof. unfold for_range. simpl. destruct (body s 0); reflexivity. Qed.

(** ** The alignment mask *)

Section AlignmentFacts.

Import Alignment.

(** State of the mask after the first [k] rounds of the "vocaset" loop. *)
Lemma vocaset_loop (T S k : nat) :
  k <= Nat.min T S ->
  exists m, for_range k (fun m i => setitem2 m i i 0%R) (ones T S) = Ok m
            /\ nrows m = T /\ ncols m = S
            /\ forall r c, at2 m r c = if (r =? c) && (r <? k) then 0%R else 1%R.
Proof.
  induction k as [|k IH]; intros Hk.
  - exists (ones T S). repeat split; try reflexivity.
    intros r c. rewrite andb_false_r. reflexivity.
  - destruct IH as (m & Hm & Hr & Hc & Hat); [lia|].
    rewrite for_range_S, Hm. simpl. unfold setitem2. rewrite Hr, Hc.
    assert (Hlt1 : (k <? T) = true) by (apply Nat.ltb_lt; lia).
    assert (Hlt2 : (k <? S) = true) by (apply Nat.ltb_lt; lia).
    rewrite Hlt1, Hlt2. simpl. eexists. split; [reflexivity|].
    simpl. repeat split; try reflexivity.
    intros r c. rewrite Hat.
    destruct (Nat.eqb_spec r k) as [->|Hrk]; destruct (Nat.eqb_spec c k) as [->|Hck]; simpl.
    + rewrite Nat.eqb_refl. simpl.
      replace (k <? Datatypes.S k) with true by (symmetry; apply Nat.ltb_lt; lia).
      reflexivity.
    + destruct (Nat.eqb_spec k c); [congruence | reflexivity].
    + destruct (Nat.eqb_spec r k); [congruence |].
      simpl. destruct (Nat.ltb_spec k k); [lia|].
      destruct (Nat.ltb_spec k (Datatypes.S k)); [|lia]. 
      reflexivity.
    + destruct (Nat.eqb_spec r c); simpl; [|reflexivity].
      destruct (Nat.ltb_spec r k), (Nat.ltb_spec r (Datatypes.S k)); try reflexivity; lia.
Qed.

(** Closed form of the default ("vocaset") mask. *)
Lemma enc_dec_mask_vocaset (T S : nat) :
  exists m, enc_dec_mask T S default_dataset = Ok m
            /\ nrows m = T /\ ncols m = S
            /\ forall i j, at2 m i j = negb ((i =? j) && (i <? Nat.min T S)).
Proof.
  destruct (@vocaset_loop T S (Nat.min T S)) as (m & Hm & Hr & Hc & Hat); [lia|].
  unfold enc_dec_mask, default_dataset. simpl String.eqb. cbv iota.
  rewrite Hm. simpl. eexists. split; [reflexivity|]. simpl.
  repeat split; try assumption.
  intros i j. rewrite Hat.
  destruct ((i =? j) && (i <? Nat.min T S)); simpl.
  - apply Reqb_neq. lra.
  - apply Reqb_refl.
Qed.

Lemma Alignment_total (T S : nat) :
  exists m, enc_dec_mask T S default_dataset = Ok m
            /\ nrows m = T /\ ncols m = S.
Proof.
  destruct (enc_dec_mask_vocaset T S) as (m & Hm & Hr & Hc & _).
  exists m. repeat split; assumption.
Qed.

(** C9. For equal target and source lengths the default alignment mask lets
    target position [i] attend to source position [j] exactly when [i = j];
    every off-diagonal entry is forbidden. *)
Theorem enc_dec_mask_equal_rate_diagonal (n : nat) :
  exists m, enc_dec_mask n n default_dataset = Ok m
            /\ nrows m = n /\ ncols m = n
            /\ (forall i j, i < n -> j < n -> (permits m i j <-> i = j))
            /\ (forall i j, i < n -> j < n -> i <> j -> forbids m i j).
Proof.
  destruct (enc_dec_mask_vocaset n n) as (m & Hm & Hr & Hc & Hat).
  exists m. repeat split; try assumption.
  - unfold permits. rewrite Hat. rewrite Nat.min_id.
    destruct (Nat.eqb_spec i j); [intros _; assumption|]. simpl. discriminate.
  - intros ->. unfold permits. rewrite Hat, Nat.min_id, Nat.eqb_refl.
    destruct (Nat.ltb_spec j n); [reflexivity | lia].
  - intros i j Hi Hj Hij. unfold forbids. rewrite Hat.
    destruct (Nat.eqb_spec i j); [contradiction | reflexivity].
Qed.

(** C10. When the target is longer than the source ([S < T]) the default
    alignment mask forbids every source position for each target row [i]
    with [S <= i < T]: the attend entries are set on the diagonal below
    [min T S] only. *)
Theorem enc_dec_mask_target_outgrows_source (T S : nat) :
  S < T ->
  exists m, enc_dec_mask T S default_dataset = Ok m
            /\ nrows m = T /\ ncols m = S
            /\ forall i j, S <= i -> i < T -> j < S -> forbids m i j.
Proof.
  intros HST.
  destruct (enc_dec_mask_vocaset T S) as (m & Hm & Hr & Hc & Hat).
  exists m. repeat split; try assumption.
  intros i j Hi HiT Hj. unfold forbids. rewrite Hat.
  destruct (Nat.eqb_spec i j); [lia | reflexivity].
Qed.

Lemma enc_dec_mask_target_outgrows_source_witness :
  1 < 3 /\
  exists m, enc_dec_mask 3 1 default_dataset = Ok m
            /\ nrows m = 3 /\ ncols m = 1
            /\ forall i j, 1 <= i -> i < 3 -> j < 1 -> forbids m i j.
Proof.
  split; [lia | apply (@enc_dec_mask_target_outgrows_source 3 1); lia].
Defined.

End AlignmentFacts.

(** ** ALiBi slopes *)

Section SlopeFacts.

Import BiasMask.
Open Scope R_scope.

Lemma get_slopes_eq (n : nat) :
  get_slopes n =
  if (n =? 0)%nat then Err ValueError
  else if log2_is_integer n then get_slopes_power_of_2 n
  else match get_slopes_power_of_2 (2 ^ Nat.log2 n) with
       | Err e => Err e
       | Ok head =>
           match get_slopes (2 * 2 ^ Nat.log2 n) with
           | Err e => Err e
           | Ok next => Ok (head ++ firstn (n - 2 ^ Nat.log2 n) (evens next))
           end
       end.
Proof.
  rewrite get_slopes_unfold_eq at 1. unfold get_slopes_unfold.
  destruct (inspect (n =? 0)%nat) as [[] e]; simpl; rewrite e; [reflexivity|].
  destruct (inspect (log2_is_integer n)) as [[] e']; simpl; rewrite e'; reflexivity.
Qed.

Lemma log2_is_integer_pow2 (k : nat) : log2_is_integer (2 ^ k) = true.
Proof.
  unfold log2_is_integer. rewrite Nat.log2_pow2 by lia. apply Nat.eqb_refl.
Qed.

Lemma pow2_nonzero (k : nat) : (2 ^ k)%nat <> 0%nat.
Proof. apply Nat.pow_nonzero. discriminate. Qed.

Lemma slope_start_pos (n : nat) : 0 < slope_start n.
Proof. unfold slope_start, Rpower. apply exp_pos. Qed.

Lemma ln_2_pos : 0 < ln 2.
Proof. rewrite <- ln_1. apply ln_increasing; lra. Qed.

Lemma slope_start_lt_1 (n : nat) : slope_start n < 1.
Proof.
  unfold slope_start. unfold Rpower at 1.
  rewrite <- exp_0. apply exp_increasing.
  assert (H : 0 < Rpower 2 (- (log2 n - 3))) by (unfold Rpower; apply exp_pos).
  pose proof ln_2_pos. nra.
Qed.

Lemma pow_strict_decr (a : R) (i j : nat) :
  0 < a -> a < 1 -> (i < j)%nat -> a ^ j < a ^ i.
Proof.
  intros Ha0 Ha1. induction j as [|j IH]; intros Hij; [lia|].
  assert (Hj : 0 < a ^ j) by (apply pow_lt; assumption).
  simpl. destruct (Nat.eq_dec i j) as [->|Hne].
  - nra.
  - assert (a ^ j < a ^ i) by (apply IH; lia). nra.
Qed.

Lemma nth_map_seq (f : nat -> R) (n i : nat) :
  (i < n)%nat -> nth i (map f (seq 0 n)) 0 = f i.
Proof.
  intros Hi.
  rewrite (nth_indep _ 0 (f 0%nat)) by (rewrite length_map, length_seq; exact Hi).
  rewrite map_nth. rewrite seq_nth by exact Hi. reflexivity.
Qed.

(** The power-of-two slopes: [n] values [start^(i+1)]. *)
Lemma get_slopes_power_of_2_spec (n : nat) :
  n <> 0%nat ->
  exists l, get_slopes_power_of_2 n = Ok l
            /\ List.length l = n
            /\ forall i, (i < n)%nat -> nth i l 0 = slope_start n * slope_start n ^ i.
Proof.
  intros Hn. unfold get_slopes_power_of_2.
  destruct (Nat.eqb_spec n 0); [contradiction|].
  eexists. split; [reflexivity|]. split.
  - rewrite length_map, length_seq. reflexivity.
  - intros i Hi. rewrite nth_map_seq by exact Hi. reflexivity.
Qed.

Lemma get_slopes_pow2 (k : nat) :
  get_slopes (2 ^ k) = get_slopes_power_of_2 (2 ^ k).
Proof.
  rewrite get_slopes_eq. rewrite log2_is_integer_pow2.
  destruct (Nat.eqb_spec (2 ^ k) 0) as [H|_]; [|reflexivity].
  exfalso. exact (pow2_nonzero k H).
Qed.

Lemma nth_evens {A : Type} (d : A) (i : nat) :
  forall l, nth i (evens l) d = nth (2 * i) l d.
Proof.
  induction i as [|i IH]; intros [|x [|y l]]; simpl; try reflexivity.
  - destruct i; reflexivity.
  - rewrite IH. replace (i + S (i + 0))%nat with (S (2 * i)) by lia. reflexivity.
Qed.

Lemma length_evens {A : Type} (l : list A) :
  List.length (evens l) = ((List.length l + 1) / 2)%nat.
Proof.
  assert (H : forall n (l : list A), (List.length l <= n)%nat ->
                List.length (evens l) = ((List.length l + 1) / 2)%nat).
  { clear l. induction n as [|n IH]; intros [|x [|y l]] Hl;
      cbn [evens List.length] in *; try reflexivity; try lia.
    rewrite IH by lia.
    replace (S (S (List.length l)) + 1)%nat with (List.length l + 1 + 1 * 2)%nat by lia.
    rewrite Nat.div_add by lia. lia. }
  apply (H (List.length l)). lia.
Qed.

(** A head count that is not a power of two lies strictly between two
    consecutive powers of two. *)
Lemma between_powers (n : nat) :
  (0 < n)%nat -> (forall k, n <> (2 ^ k)%nat) ->
  (2 ^ Nat.log2 n < n)%nat /\ (n < 2 * 2 ^ Nat.log2 n)%nat
  /\ log2_is_integer n = false.
Proof.
  intros Hn Hnp. pose proof (Nat.log2_spec n Hn) as [Hlo Hhi].
  rewrite Nat.pow_succ_r' in Hhi.
  assert (Hne : (2 ^ Nat.log2 n)%nat <> n) by (intros E; exact (Hnp _ (eq_sym E))).
  repeat split; try lia.
  unfold log2_is_integer. apply Nat.eqb_neq. exact Hne.
Qed.

(** Shape of [get_slopes] off the powers of two. *)
Lemma get_slopes_interleaved (n : nat) :
  (0 < n)%nat -> (forall k, n <> (2 ^ k)%nat) ->
  let p := (2 ^ Nat.log2 n)%nat in
  exists l_p l_2p,
    get_slopes p = Ok l_p /\ List.length l_p = p
    /\ get_slopes (2 * p) = Ok l_2p /\ List.length l_2p = (2 * p)%nat
    /\ get_slopes n = Ok (l_p ++ firstn (n - p) (evens l_2p)).
Proof.
  intros Hn Hnp p. destruct (between_powers Hn Hnp) as (Hlo & Hhi & Hint).
  fold p in Hlo, Hhi.
  destruct (@get_slopes_power_of_2_spec p) as (l_p & Hp & Hlp & _);
    [apply pow2_nonzero|].
  assert (H2p : (2 * p)%nat = (2 ^ S (Nat.log2 n))%nat)
    by (unfold p; rewrite Nat.pow_succ_r'; reflexivity).
  destruct (@get_slopes_power_of_2_spec (2 * p)) as (l_2p & H2 & Hl2 & _);
    [rewrite H2p; apply pow2_nonzero|].
  exists l_p, l_2p. repeat split; try assumption.
  - unfold p. rewrite get_slopes_pow2. exact Hp.
  - rewrite H2p, get_slopes_pow2, <- H2p. exact H2.
  - rewrite get_slopes_eq, Hint.
    destruct (Nat.eqb_spec n 0); [lia|].
    fold p. rewrite Hp.
    rewrite H2p, get_slopes_pow2, <- H2p, H2. reflexivity.
Qed.

(** [get_slopes] returns one slope per head. *)
Lemma get_slopes_length (n : nat) :
  (0 < n)%nat -> exists l, get_slopes n = Ok l /\ List.length l = n.
Proof.
  intros Hn.
  destruct (Nat.eq_dec (2 ^ Nat.log2 n) n) as [E|E].
  - rewrite <- E, get_slopes_pow2.
    destruct (@get_slopes_power_of_2_spec (2 ^ Nat.log2 n)) as (l & Hl & Hlen & _);
      [apply pow2_nonzero|].
    exists l. split; assumption.
  - assert (Hnp : forall k, n <> (2 ^ k)%nat).
    { intros k Hk. apply E. rewrite Hk at 1. rewrite Nat.log2_pow2 by lia.
      symmetry. exact Hk. }
    destruct (get_slopes_interleaved Hn Hnp) as (l_p & l_2p & _ & Hlp & _ & Hl2 & Hl).
    destruct (between_powers Hn Hnp) as (Hlo & Hhi & _).
    eexists. split; [exact Hl|].
    rewrite length_app, length_firstn, length_evens, Hlp, Hl2.
    replace (2 * 2 ^ Nat.log2 n + 1)%nat with (1 + 2 ^ Nat.log2 n * 2)%nat by lia.
    rewrite Nat.div_add by lia. simpl Nat.div. lia.
Qed.

(** C6. For a power-of-two head count the slopes strictly decrease with the
    head index; for any other head count [n] they are the slopes of the
    largest power of two [p <= n], followed by the first [n - p] of the
    even-indexed slopes of head count [2p]. *)
Theorem get_slopes_two_tier :
  (forall k, exists l,
      get_slopes (2 ^ k) = Ok l /\ List.length l = (2 ^ k)%nat
      /\ forall i j, (i < j)%nat -> (j < 2 ^ k)%nat -> nth j l 0 < nth i l 0)
  /\
  (forall n, (0 < n)%nat -> (forall k, n <> (2 ^ k)%nat) ->
     exists k l_p l_2p l,
       let p := (2 ^ k)%nat in
       (p < n)%nat /\ (forall k', (2 ^ k' <= n)%nat -> (2 ^ k' <= p)%nat)
       /\ get_slopes p = Ok l_p
       /\ get_slopes (2 * p) = Ok l_2p
       /\ get_slopes n = Ok l
       /\ l = l_p ++ firstn (n - p) (evens l_2p)
       /\ List.length l = n
       /\ (forall i, (i < p)%nat -> nth i l 0 = nth i l_p 0)
       /\ (forall i, (i < n - p)%nat -> nth (p + i) l 0 = nth (2 * i) l_2p 0)).
Proof.
  split.
  - intros k. rewrite get_slopes_pow2.
    destruct (@get_slopes_power_of_2_spec (2 ^ k)) as (l & Hl & Hlen & Hnth);
      [apply pow2_nonzero|].
    exists l. repeat split; try assumption.
    intros i j Hij Hj. rewrite !Hnth by lia.
    pose proof (slope_start_pos (2 ^ k)) as H0.
    pose proof (slope_start_lt_1 (2 ^ k)) as H1.
    pose proof (pow_strict_decr H0 H1 Hij). nra.
  - intros n Hn Hnp.
    destruct (get_slopes_interleaved Hn Hnp) as (l_p & l_2p & Hp & Hlp & H2 & Hl2 & Hl).
    destruct (between_powers Hn Hnp) as (Hlo & Hhi & _).
    destruct (get_slopes_length Hn) as (l & Hl' & Hlen).
    exists (Nat.log2 n), l_p, l_2p, l. cbv zeta.
    assert (El : l = l_p ++ firstn (n - 2 ^ Nat.log2 n) (evens l_2p)) by congruence.
    repeat split; try assumption.
    + intros k' Hk'. apply Nat.pow_le_mono_r; [lia|].
      assert (Hlt : (2 ^ k' < 2 ^ S (Nat.log2 n))%nat)
        by (rewrite Nat.pow_succ_r'; lia).
      apply Nat.pow_lt_mono_r_iff in Hlt; lia.
    + intros i Hi. rewrite El. apply app_nth1. lia.
    + intros i Hi. rewrite El. rewrite app_nth2 by lia.
      replace (2 ^ Nat.log2 n + i - List.length l_p)%nat with i by lia.
      rewrite nth_firstn.
      destruct (Nat.ltb_spec i (n - 2 ^ Nat.log2 n)); [|lia].
      apply nth_evens.
Qed.

End SlopeFacts.

(** ** Broadcasting *)

Lemma bdim_refl (n : nat) : bdim n n = Some n.
Proof. unfold bdim. rewrite Nat.eqb_refl. reflexivity. Qed.

Lemma bdim_1_l (n : nat) : bdim 1 n = Some n.
Proof.
  unfold bdim. destruct (Nat.eqb_spec 1 n) as [->|_]; reflexivity.
Qed.

Lemma bdim_1_r (n : nat) : bdim n 1 = Some n.
Proof.
  unfold bdim. destruct (Nat.eqb_spec n 1) as [->|_]; [reflexivity|].
  reflexivity.
Qed.

Lemma bidx_lt (d i : nat) : i < d -> bidx d i = i.
Proof.
  intros H. unfold bidx. destruct (Nat.eqb_spec d 1); [lia | reflexivity].
Qed.

Lemma broadcast3_ok {A B C : Type} (f : A -> B -> C)
  (x : tensor3 A) (y : tensor3 B) (d0 d1 d2 : nat) :
  bdim (dim0 x) (dim0 y) = Some d0 ->
  bdim (dim1 x) (dim1 y) = Some d1 ->
  bdim (dim2 x) (dim2 y) = Some d2 ->
  broadcast3 f x y =
  Ok (T3 d0 d1 d2
         (fun i j k =>
            f (at3 x (bidx (dim0 x) i) (bidx (dim1 x) j) (bidx (dim2 x) k))
              (at3 y (bidx (dim0 y) i) (bidx (dim1 y) j) (bidx (dim2 y) k)))).
Proof.
  intros H0 H1 H2. unfold broadcast3. rewrite H0, H1, H2. reflexivity.
Qed.

(** ** The temporal bias mask *)

Section BiasMaskFacts.

Import BiasMask.

(** The flattened block counter covers the maximum length. *)
Lemma blocks_cover (N p : nat) : p <> 0 -> N <= (N + p - 1) / p * p.
Proof.
  intros Hp.
  pose proof (Nat.div_mod_eq (N + p - 1) p) as E.
  pose proof (Nat.mod_upper_bound (N + p - 1) p Hp) as U.
  nia.
Qed.

(** Entries of the flipped, negated block counter built from [arange]. *)
Lemma bias_vector (N p : nat) (steps : tensor1 Z) :
  p <> 0 -> arange N p = Ok steps ->
  let bias :=
    map1 Z.opp
      (flip (floor_divide (view_flat (repeat2 1 p (unsqueeze1_of1 steps)))
                          (Z.of_nat p))) in
  let L := (N + p - 1) / p * p in
  len1 bias = L
  /\ forall m, m < L -> at1 bias m = (- Z.of_nat ((L - 1 - m) / p))%Z.
Proof.
  intros Hp Har. unfold arange in Har.
  destruct (Nat.eqb_spec p 0); [contradiction|].
  injection Har as <-. cbv zeta. simpl. split; [lia|].
  intros m Hm. f_equal.
  rewrite Nat.add_0_r, Nat.mul_1_r.
  set (nb := (N + p - 1) / p) in *.
  set (q := (nb * p - 1 - m) / p).
  assert (Hq : q < nb).
  { unfold q. apply Nat.Div0.div_lt_upper_bound. lia. }
  rewrite (Nat.mod_small q nb Hq).
  rewrite <- Nat2Z.inj_div. f_equal.
  apply Nat.div_mul. exact Hp.
Qed.

(** State of [alibi] after the first [k] rounds of the row-filling loop. *)
Lemma alibi_loop (N p L : nat) (bias : tensor1 Z) (k : nat) :
  N <= L -> len1 bias = L ->
  (forall m, m < L -> at1 bias m = (- Z.of_nat ((L - 1 - m) / p))%Z) ->
  k <= N ->
  exists alibi,
    for_range k
      (fun alibi i => setrow_prefix alibi i (i + 1) (slice_last (i + 1) bias))
      (zeros N N) = Ok alibi
    /\ nrows alibi = N /\ ncols alibi = N
    /\ forall r c, at2 alibi r c =
                   if (r <? k) && (c <=? r)
                   then IZR (- Z.of_nat ((r - c) / p)) else 0%R.
Proof.
  intros HL Hlen Hb. induction k as [|k IH]; intros Hk.
  - exists (zeros N N). repeat split; reflexivity.
  - destruct IH as (a & Ha & Hr & Hc & Hat); [lia|].
    rewrite for_range_S, Ha. simpl bind. unfold setrow_prefix.
    rewrite Hr, Hc.
    destruct (Nat.ltb_spec k N); [|lia].
    assert (Hw : Nat.min (k + 1) N = k + 1) by lia. rewrite Hw.
    assert (Hs : len1 (slice_last (k + 1) bias) = k + 1) by (simpl; lia).
    rewrite Hs, Nat.eqb_refl.
    eexists. split; [reflexivity|]. simpl nrows. simpl ncols.
    repeat split; try reflexivity.
    intros r c. cbn [at2]. rewrite Hat.
    destruct (Nat.eqb_spec r k) as [->|Hrk]; simpl andb.
    + destruct (Nat.ltb_spec c (k + 1)) as [Hck|Hck].
      * destruct (Nat.ltb_spec k (S k)); [|lia].
        destruct (Nat.leb_spec c k); [|lia]. simpl.
        unfold slice_last. cbn [at1]. rewrite Hlen.
        replace (Nat.min (k + 1) L) with (k + 1) by lia.
        rewrite Hb by lia.
        replace (L - 1 - (L - (k + 1) + c)) with (k - c) by lia.
        reflexivity.
      * destruct (Nat.ltb_spec k k); [lia|].
        destruct (Nat.leb_spec c k); [lia|].
        rewrite !andb_false_r. reflexivity.
    + destruct (Nat.ltb_spec r k), (Nat.ltb_spec r (S k)); try reflexivity; lia.
Qed.

(** Entries of the boolean causal mask after the two [masked_fill]s. *)
Lemma causal_fill (N i j : nat) :
  let mask :=
    transpose (map2 (fun v => Reqb v 1) (triu (ones N N))) in
  at2 (masked_fill
         (masked_fill (map2 (fun b => Fin (to_float b)) mask)
                      (map2 (fun b => bool_eq_int b 0) mask) NegInf)
         (map2 (fun b => bool_eq_int b 1) mask) (Fin 0)) i j
  = if j <=? i then Fin 0 else NegInf.
Proof.
  cbv zeta. simpl.
  destruct (Nat.leb_spec j i).
  - rewrite Reqb_refl. reflexivity.
  - rewrite Reqb_neq by lra. reflexivity.
Qed.

(** Closed form of the mask returned by [init_biased_mask]. *)
Lemma init_biased_mask_closed_form (n_head max_seq_len period : nat) :
  0 < n_head -> 0 < period ->
  exists slopes mask,
    get_slopes n_head = Ok slopes /\ List.length slopes = n_head
    /\ init_biased_mask n_head max_seq_len period = Ok mask
    /\ dim0 mask = n_head /\ dim1 mask = max_seq_len /\ dim2 mask = max_seq_len
    /\ forall h i j, h < n_head -> i < max_seq_len -> j < max_seq_len ->
         at3 mask h i j =
         if j <=? i
         then Fin (0 + nth h slopes 0%R * IZR (- Z.of_nat ((i - j) / period)))
         else NegInf.
Proof.
  intros Hh Hp.
  destruct (get_slopes_length Hh) as (slopes & Hs & Hlen).
  assert (Har : exists steps, arange max_seq_len period = Ok steps).
  { unfold arange. destruct (Nat.eqb_spec period 0); [lia|]. eexists. reflexivity. }
  destruct Har as (steps & Har).
  assert (Hp' : period <> 0) by lia.
  destruct (@bias_vector max_seq_len period steps Hp' Har) as (HbL & Hb).
  destruct (@alibi_loop max_seq_len period _ _ max_seq_len
              (@blocks_cover max_seq_len period Hp') HbL Hb (le_n _))
    as (alibi & Hal & Hr & Hc & Hat).
  exists slopes. unfold init_biased_mask.
  rewrite Hs. simpl bind. rewrite Har. simpl bind. rewrite Hal. simpl bind.
  rewrite (@broadcast3_ok _ _ _ Rmult (unsqueeze11_of1 (of_list 0%R slopes))
             (unsqueeze0 alibi) n_head max_seq_len max_seq_len)
    by (simpl; rewrite ?Hlen, ?Hr, ?Hc; auto using bdim_1_r, bdim_1_l).
  simpl bind.
  erewrite (@broadcast3_ok _ _ _ xadd _ _ n_head max_seq_len max_seq_len)
    by (simpl; auto using bdim_1_l, bdim_refl).
  eexists. split; [reflexivity|]. split; [exact Hlen|]. split; [reflexivity|].
  simpl dim0. simpl dim1. simpl dim2.
  repeat split; try assumption.
  intros h i j Hhh Hi Hj.
  cbn [at3 at1 dim0 dim1 dim2 nrows ncols len1 unsqueeze0 unsqueeze11_of1 of_list].
  rewrite ?Hr, ?Hc, ?Hlen.
  repeat rewrite (bidx_lt Hi). repeat rewrite (bidx_lt Hj).
  repeat rewrite (bidx_lt Hhh).
  rewrite causal_fill, Hat.
  destruct (Nat.ltb_spec i max_seq_len); [|lia]. simpl andb.
  destruct (Nat.leb_spec j i); simpl; reflexivity.
Qed.

(** C2. In the mask of [init_biased_mask], for every head [h] and positions
    [i, j] below the maximum length: a future position ([j > i]) holds
    [-inf]; a past or present one ([j <= i]) holds the head's slope times
    [-((i - j) // period)], so that distances in the same period block get
    the same bias. *)
Theorem init_biased_mask_characterization (n_head max_seq_len period : nat) :
  0 < n_head -> 0 < period ->
  exists slopes mask,
    get_slopes n_head = Ok slopes
    /\ init_biased_mask n_head max_seq_len period = Ok mask
    /\ dim0 mask = n_head /\ dim1 mask = max_seq_len /\ dim2 mask = max_seq_len
    /\ (forall h i j, h < n_head -> i < max_seq_len -> j < max_seq_len ->
          i < j -> at3 mask h i j = NegInf)
    /\ (forall h i j, h < n_head -> i < max_seq_len -> j < max_seq_len ->
          j <= i ->
          at3 mask h i j =
          Fin (nth h slopes 0 * IZR (- Z.of_nat ((i - j) / period)))%R)
    /\ (forall h i j i' j', h < n_head ->
          j <= i -> i < max_seq_len -> j' <= i' -> i' < max_seq_len ->
          (i - j) / period = (i' - j') / period ->
          at3 mask h i j = at3 mask h i' j').
Proof.
  intros Hh Hp.
  destruct (@init_biased_mask_closed_form n_head max_seq_len period Hh Hp)
    as (slopes & mask & Hs & _ & Hm & H0 & H1 & H2 & Hat).
  exists slopes, mask. repeat split; try assumption.
  - intros h i j Hhh Hi Hj Hij. rewrite Hat by assumption.
    destruct (Nat.leb_spec j i); [lia | reflexivity].
  - intros h i j Hhh Hi Hj Hij. rewrite Hat by assumption.
    destruct (Nat.leb_spec j i); [|lia]. rewrite Rplus_0_l. reflexivity.
  - intros h i j i' j' Hhh Hji Hi Hji' Hi' Hblk.
    rewrite !Hat by lia.
    destruct (Nat.leb_spec j i); [|lia].
    destruct (Nat.leb_spec j' i'); [|lia].
    rewrite Hblk. reflexivity.
Qed.

Lemma init_biased_mask_characterization_witness :
  0 < 2 /\ 0 < 2 /\
  exists slopes mask,
    get_slopes 2 = Ok slopes
    /\ init_biased_mask 2 5 2 = Ok mask
    /\ dim0 mask = 2 /\ dim1 mask = 5 /\ dim2 mask = 5
    /\ (forall h i j, h < 2 -> i < 5 -> j < 5 ->
          i < j -> at3 mask h i j = NegInf)
    /\ (forall h i j, h < 2 -> i < 5 -> j < 5 ->
          j <= i ->
          at3 mask h i j =
          Fin (nth h slopes 0 * IZR (- Z.of_nat ((i - j) / 2)))%R)
    /\ (forall h i j i' j', h < 2 ->
          j <= i -> i < 5 -> j' <= i' -> i' < 5 ->
          (i - j) / 2 = (i' - j') / 2 ->
          at3 mask h i j = at3 mask h i' j').
Proof.
  split; [lia|]. split; [lia|].
  apply (@init_biased_mask_characterization 2 5 2); lia.
Defined.

(** Without heads or with a zero period no mask is built. *)
Lemma init_biased_mask_rejects (n_head max_seq_len period : nat) :
  n_head = 0 \/ period = 0 ->
  is_ok (init_biased_mask n_head max_seq_len period) = false.
Proof.
  intros [-> | ->]; unfold init_biased_mask.
  - rewrite get_slopes_eq. reflexivity.
  - destruct (get_slopes n_head); reflexivity.
Qed.

End BiasMaskFacts.

(** ** Positional encoders *)


Lemma set_cols_strided_shape (start : nat) (dst src m : tensor2 R) :
  PE.set_cols_strided start dst src = Ok m ->
  nrows m = nrows dst /\ ncols m = ncols dst.
Proof.
  unfold PE.set_cols_strided.
  destruct (PE.fits _ _ && PE.fits _ _); [|discriminate].
  intros H. injection H as <-. split; reflexivity.
Qed.

Lemma fits_refl (n : nat) : PE.fits n n = true.
Proof. unfold PE.fits. rewrite Nat.eqb_refl. reflexivity. Qed.

Lemma set_cols_strided_ok (start : nat) (dst src : tensor2 R) :
  PE.fits (nrows src) (nrows dst) = true ->
  PE.fits (ncols src) (PE.strided_count start (ncols dst)) = true ->
  exists m, PE.set_cols_strided start dst src = Ok m
            /\ nrows m = nrows dst /\ ncols m = ncols dst.
Proof.
  intros H1 H2. unfold PE.set_cols_strided. rewrite H1, H2.
  eexists. repeat split.
Qed.

Lemma div_term_ok (d_model : nat) :
  d_model <> 0 ->
  exists dt, PE.div_term d_model = Ok dt /\ len1 dt = (d_model + 1) / 2.
Proof.
  intros Hd. unfold PE.div_term.
  destruct (Nat.eqb_spec d_model 0); [contradiction|].
  eexists. split; reflexivity.
Qed.

(** [position * div_term] broadcasts a column against a row. *)
Lemma outer_ok (n : nat) (dt : tensor1 R) :
  exists ang, broadcast2 Rmult (PE.position n) (as_row dt) = Ok ang
              /\ nrows ang = n /\ ncols ang = len1 dt.
Proof.
  unfold broadcast2. simpl nrows. simpl ncols.
  rewrite bdim_1_r, bdim_1_l. eexists. repeat split.
Qed.


Section PeriodicFacts.

Import PeriodicPositionalEncoding.

(** What a successful construction leaves in the buffer [pe]: the base
    table of [period] rows, read modulo [period]. *)
Lemma periodic_init_inv (d_model period max_seq_len : nat) (o : string) (self : t) :
  init d_model period max_seq_len o = Ok self ->
  period <> 0 /\ d_model <> 0 /\ op self = o
  /\ dim0 (pe self) = 1
  /\ dim1 (pe self) = (max_seq_len / period + 1) * period
  /\ dim2 (pe self) = d_model
  /\ exists base : tensor2 R,
       nrows base = period /\ ncols base = d_model
       /\ forall b r c, at3 (pe self) b r c = at2 base (r mod period) (c mod d_model).
Proof.
  unfold init. intros H.
  bind_ok H. bind_ok H. bind_ok H. bind_ok H. bind_ok H.
  injection H as <-. simpl.
  assert (Hd : d_model <> 0).
  { unfold PE.div_term in E. destruct (Nat.eqb_spec d_model 0); [discriminate|assumption]. }
  assert (Hp : period <> 0).
  { destruct (Nat.eqb_spec period 0); [discriminate|assumption]. }
  assert (Hn : a3 = max_seq_len / period + 1).
  { destruct (Nat.eqb_spec period 0); [contradiction|]. congruence. }
  apply set_cols_strided_shape in E1, E2. simpl in E1.
  destruct E1 as [R1 C1]. destruct E2 as [R2 C2].
  rewrite R1 in R2. rewrite C1 in C2. rewrite R2, C2.
  repeat split; try assumption; try lia.
  exists a2. repeat split; assumption.
Qed.

(** Construction succeeds for a positive even width and a positive period. *)
Lemma periodic_init_total (d_model period max_seq_len : nat) (o : string) :
  0 < d_model -> Nat.even d_model = true -> 0 < period ->
  exists self, init d_model period max_seq_len o = Ok self.
Proof.
  intros Hd He Hp. unfold init.
  destruct (@div_term_ok d_model) as (dt & Hdt & Hlen); [lia|].
  rewrite Hdt. simpl bind.
  destruct (outer_ok period dt) as (ang & Hang & Hr & Hc).
  rewrite Hang. simpl bind.
  destruct (@set_cols_strided_ok 0 (BiasMask.zeros period d_model) (map2 sin ang))
    as (pe1 & H1 & R1 & C1).
  { simpl. rewrite Hr. apply fits_refl. }
  { simpl. rewrite Hc, Hlen. unfold PE.strided_count.
    rewrite Nat.sub_0_r. apply fits_refl. }
  rewrite H1. simpl bind.
  destruct (@set_cols_strided_ok 1 pe1 (map2 cos ang)) as (pe2 & H2 & R2 & C2).
  { simpl. rewrite Hr, R1. apply fits_refl. }
  { simpl. rewrite Hc, Hlen, C1. simpl ncols. unfold PE.strided_count.
    apply Nat.even_spec in He. destruct He as [m ->].
    replace ((2 * m + 1) / 2) with m
      by (rewrite Nat.add_comm, Nat.mul_comm, Nat.div_add by lia; reflexivity).
    replace ((2 * m - 1 + 1) / 2) with m
      by (replace (2 * m - 1 + 1) with (0 + m * 2) by lia;
          rewrite Nat.div_add by lia; reflexivity).
    apply fits_refl. }
  rewrite H2. simpl bind.
  destruct (Nat.eqb_spec period 0); [lia|]. simpl bind.
  eexists. reflexivity.
Qed.

(** C3. In the table built by [PeriodicPositionalEncoding], row [t] equals
    row [t mod period] for every [t] below [max_seq_len]: the first
    [period] rows are tiled, and both rows lie inside the table. *)
Theorem periodic_table_invariant
  (d_model period max_seq_len : nat) (o : string) (self : t) :
  init d_model period max_seq_len o = Ok self ->
  max_seq_len < dim1 (pe self)
  /\ forall t, t < max_seq_len ->
       t mod period < dim1 (pe self)
       /\ forall c, at3 (pe self) 0 t c = at3 (pe self) 0 (t mod period) c.
Proof.
  intros H.
  destruct (periodic_init_inv _ _ _ _ H)
    as (Hp & Hd & _ & _ & H1 & _ & base & _ & _ & Hat).
  assert (Hlt : max_seq_len < dim1 (pe self)).
  { rewrite H1.
    pose proof (Nat.div_mod_eq max_seq_len period).
    pose proof (Nat.mod_upper_bound max_seq_len period Hp). nia. }
  split; [exact Hlt|].
  intros t Ht. split.
  - pose proof (Nat.mod_upper_bound t period Hp).
    pose proof (Nat.Div0.mod_le t period). lia.
  - intros c. rewrite !Hat. rewrite Nat.Div0.mod_mod. reflexivity.
Qed.

Lemma periodic_table_invariant_witness :
  exists self,
    init 4 25 600 "add" = Ok self
    /\ 600 < dim1 (pe self)
    /\ forall t, t < 600 ->
         t mod 25 < dim1 (pe self)
         /\ forall c, at3 (pe self) 0 t c = at3 (pe self) 0 (t mod 25) c.
Proof.
  destruct (@periodic_init_total 4 25 600 "add") as [self H];
    [lia | reflexivity | lia |].
  exists self. split; [exact H|].
  exact (@periodic_table_invariant 4 25 600 "add" self H).
Defined.

(** Sum mode of the periodic encoder: any batch, any length inside the
    table; the shape of the input is kept. *)
Lemma periodic_add_shape (self : t) (x : tensor3 R) :
  PE.op_is_add (op self) = true ->
  dim0 (pe self) = 1 ->
  dim1 x <= dim1 (pe self) ->
  dim2 x = dim2 (pe self) ->
  exists y, forward self x = Ok y
            /\ dim0 y = dim0 x /\ dim1 y = dim1 x /\ dim2 y = dim2 x
            /\ forall b r c, b < dim0 x -> r < dim1 x -> c < dim2 x ->
                 at3 y b r c = (at3 x b r c + at3 (pe self) 0 r c)%R.
Proof.
  intros Hop H0 H1 H2. unfold forward, PE.combine. rewrite Hop.
  rewrite (@broadcast3_ok _ _ _ Rplus x (slice1 (dim1 x) (pe self))
             (dim0 x) (dim1 x) (dim2 x)); simpl.
  - eexists. split; [reflexivity|]. simpl. repeat split.
    intros b r c Hb Hr Hc.
    rewrite (bidx_lt Hb), (bidx_lt Hr), (bidx_lt Hc).
    rewrite H0. simpl.
    replace (Nat.min (dim1 x) (dim1 (pe self))) with (dim1 x) by lia.
    rewrite <- H2, (bidx_lt Hr), (bidx_lt Hc). reflexivity.
  - rewrite H0. apply bdim_1_r.
  - replace (Nat.min (dim1 x) (dim1 (pe self))) with (dim1 x) by lia.
    apply bdim_refl.
  - rewrite H2. apply bdim_refl.
Qed.

(** Concatenation mode of the periodic encoder: the sliced table is
    repeated [x.shape[1]] times along the sequence axis before [torch.cat],
    which then refuses every input of two or more positions. *)
Lemma periodic_concat_rejects (self : t) (x : tensor3 R) :
  PE.op_is_add (op self) = false ->
  PE.op_is_concat (op self) = true ->
  2 <= dim1 x -> 2 <= dim1 (pe self) ->
  forward self x = Err RuntimeError.
Proof.
  intros Hadd Hcat Hx Hpe. unfold forward, PE.combine. rewrite Hadd, Hcat.
  unfold cat2. simpl.
  assert (Hne : (dim1 x =? dim1 x * Nat.min (dim1 x) (dim1 (pe self))) = false).
  { apply Nat.eqb_neq. nia. }
  rewrite Hne, andb_false_r. reflexivity.
Qed.

(** C8, at its failing input. With the default table (period 25, 600
    positions) and [op = "concat"], an input of one sequence of two
    positions of width four makes [forward] raise; the same encoder takes
    the input in sum mode and keeps its shape. *)
Theorem periodic_concat_two_frames_raises :
  (exists self,
     init 4 25 600 "concat" = Ok self
     /\ output_size_factor self = Ok 2
     /\ forall x : tensor3 R,
          dim0 x = 1 -> dim1 x = 2 -> dim2 x = 4 ->
          forward self x = Err RuntimeError)
  /\
  (exists self,
     init 4 25 600 "add" = Ok self
     /\ forall x : tensor3 R,
          dim0 x = 1 -> dim1 x = 2 -> dim2 x = 4 ->
          exists y, forward self x = Ok y
                    /\ dim0 y = 1 /\ dim1 y = 2 /\ dim2 y = 4).
Proof.
  split.
  - destruct (@periodic_init_total 4 25 600 "concat") as [self H];
      [lia | reflexivity | lia |].
    destruct (periodic_init_inv _ _ _ _ H) as (_ & _ & Ho & _ & H1 & _).
    exists self. split; [exact H|]. split.
    + unfold output_size_factor. rewrite Ho. reflexivity.
    + intros x _ Hx _. apply periodic_concat_rejects.
      * rewrite Ho. reflexivity.
      * rewrite Ho. reflexivity.
      * lia.
      * rewrite H1. simpl. lia.
  - destruct (@periodic_init_total 4 25 600 "add") as [self H];
      [lia | reflexivity | lia |].
    destruct (periodic_init_inv _ _ _ _ H) as (_ & _ & Ho & H0 & H1 & H2 & _).
    exists self. split; [exact H|].
    intros x Hx0 Hx1 Hx2.
    destruct (@periodic_add_shape self x) as (y & Hy & Hy0 & Hy1 & Hy2 & _).
    + rewrite Ho. reflexivity.
    + exact H0.
    + rewrite H1, Hx1. simpl. lia.
    + rewrite H2. exact Hx2.
    + exists y. repeat split; congruence.
Qed.

End PeriodicFacts.

(** ** Shapes through the decoder *)

Section EngineShapes.

Variable attention :
  tensor3 R -> tensor3 R -> tensor3 xreal -> tensor2 bool -> nat -> nat -> nat -> R.

Lemma for_range_S_ok {S : Type} (n : nat) (body : S -> nat -> result S) (s s' : S) :
  for_range (Datatypes.S n) body s = Ok s' ->
  exists s1, for_range n body s = Ok s1 /\ body s1 n = Ok s'.
Proof.
  rewrite for_range_S. intros H.
  destruct (for_range n body s) as [s1|e]; simpl in H; [|discriminate].
  exists s1. split; [reflexivity | exact H].
Qed.

Lemma forward3_shape (l : Linear.t) (x y : tensor3 R) :
  Linear.forward3 l x = Ok y ->
  dim0 y = dim0 x /\ dim1 y = dim1 x /\ dim2 y = Linear.out_features l
  /\ dim2 x = Linear.in_features l
  /\ forall b r j, at3 y b r j = Linear.apply_row l (at3 x b r) j.
Proof.
  unfold Linear.forward3. destruct (Nat.eqb_spec (dim2 x) (Linear.in_features l));
    [|discriminate].
  intros H. injection H as <-. simpl. repeat split. assumption.
Qed.

Lemma forward2_shape (l : Linear.t) (x y : tensor2 R) :
  Linear.forward2 l x = Ok y ->
  nrows y = nrows x /\ ncols y = Linear.out_features l
  /\ ncols x = Linear.in_features l
  /\ forall b j, at2 y b j = Linear.apply_row l (at2 x b) j.
Proof.
  unfold Linear.forward2. destruct (Nat.eqb_spec (ncols x) (Linear.in_features l));
    [|discriminate].
  intros H. injection H as <-. simpl. repeat split. assumption.
Qed.

Lemma cat1_shape {A : Type} (x y z : tensor3 A) :
  cat1 x y = Ok z ->
  dim0 z = dim0 x /\ dim1 z = dim1 x + dim1 y /\ dim2 z = dim2 x
  /\ dim0 y = dim0 x /\ dim2 y = dim2 x.
Proof.
  unfold cat1.
  destruct (Nat.eqb_spec (dim0 x) (dim0 y)); [|discriminate].
  destruct (Nat.eqb_spec (dim2 x) (dim2 y)); [|discriminate].
  simpl. intros H. injection H as <-. simpl. repeat split; congruence.
Qed.

Lemma bdim_some (a b r : nat) :
  bdim a b = Some r ->
  (a = b /\ r = a) \/ (a = 1 /\ r = b) \/ (b = 1 /\ r = a).
Proof.
  unfold bdim.
  destruct (Nat.eqb_spec a b); [intros H; injection H as <-; auto|].
  destruct (Nat.eqb_spec a 1); [intros H; injection H as <-; auto|].
  destruct (Nat.eqb_spec b 1); [intros H; injection H as <-; auto|discriminate].
Qed.

Lemma broadcast3_inv {A B C : Type} (f : A -> B -> C)
  (x : tensor3 A) (y : tensor3 B) (z : tensor3 C) :
  broadcast3 f x y = Ok z ->
  bdim (dim0 x) (dim0 y) = Some (dim0 z)
  /\ bdim (dim1 x) (dim1 y) = Some (dim1 z)
  /\ bdim (dim2 x) (dim2 y) = Some (dim2 z)
  /\ forall i j k,
       at3 z i j k =
       f (at3 x (bidx (dim0 x) i) (bidx (dim1 x) j) (bidx (dim2 x) k))
         (at3 y (bidx (dim0 y) i) (bidx (dim1 y) j) (bidx (dim2 y) k)).
Proof.
  unfold broadcast3.
  destruct (bdim (dim0 x) (dim0 y)); [|discriminate].
  destruct (bdim (dim1 x) (dim1 y)); [|discriminate].
  destruct (bdim (dim2 x) (dim2 y)); [|discriminate].
  intros H. injection H as <-. simpl. repeat split.
Qed.

(** Both encoders keep the sequence length of their input when the
    registered table has a row. *)
Lemma combine_dim1 (o : string) (pe x y : tensor3 R) :
  PE.combine o pe x = Ok y -> 1 <= dim1 pe -> dim1 y = dim1 x.
Proof.
  unfold PE.combine, PE.dropout. intros H Hpe.
  destruct (PE.op_is_add o).
  - bind_ok H. injection H as <-.
    apply broadcast3_inv in E. destruct E as (_ & E1 & _).
    simpl in E1. apply bdim_some in E1. lia.
  - destruct (PE.op_is_concat o); [|discriminate].
    bind_ok H. injection H as <-.
    unfold cat2 in E.
    destruct (_ && _) in E; [|discriminate]. injection E as <-. reflexivity.
Qed.

Lemma PE_forward_dim1 (pe : positional_encoder) (x y : tensor3 R) :
  PE_forward pe x = Ok y -> 1 <= PE_rows pe -> dim1 y = dim1 x.
Proof.
  destruct pe; simpl; apply combine_dim1.
Qed.

(** What a successful call of the attention stack and the output head
    says about the shapes. *)
Lemma decode_shape (self : FaceFormerDecoder) (s : sample)
  (vertices_input hidden_states out : tensor3 R) :
  _decode attention self s vertices_input hidden_states = Ok out ->
  dim0 out = dim0 vertices_input
  /\ dim1 out = dim1 vertices_input
  /\ dim2 out = Linear.out_features (vertex_map self)
  /\ dim0 hidden_states = dim0 vertices_input
  /\ dim0 (biased_mask self) = dim0 vertices_input * n_head self
  /\ dim1 vertices_input <= dim1 (biased_mask self)
  /\ dim1 vertices_input <= dim2 (biased_mask self)
  /\ forall b r j,
       at3 out b r j =
       Linear.apply_row (vertex_map self)
         (attention vertices_input hidden_states
            (slice12 (dim1 vertices_input) (dim1 vertices_input) (biased_mask self))
            (match Alignment.enc_dec_mask (dim1 vertices_input) (dim1 hidden_states)
                     Alignment.default_dataset with
             | Ok m => m
             | Err _ => T2 0 0 (fun _ _ => false)
             end) b r) j.
Proof.
  unfold _decode. intros H. bind_ok H. bind_ok H.
  unfold _decode_vertices in H. apply forward3_shape in H.
  destruct H as (H0 & H1 & H2 & _ & Hat).
  unfold transformer_decoder in E0.
  destruct (_ && _) eqn:Hc in E0; [|discriminate].
  injection E0 as <-. simpl in *.
  repeat (apply andb_prop in Hc; destruct Hc as [Hc ?]).
  repeat match goal with
         | Hx : (_ =? _) = true |- _ => apply Nat.eqb_eq in Hx
         end.
  repeat split; try congruence; try lia.
Qed.

End EngineShapes.

(** ** The stepping loop *)

Section SteppingLoop.

Variable attention :
  tensor3 R -> tensor3 R -> tensor3 xreal -> tensor2 bool -> nat -> nat -> nat -> R.

Variable self : FaceFormerDecoder.
Hypothesis Hwf : well_formed self.

(** One successful step: it reads a running sequence of [i + 1] entries
    (just the style embedding when [i = 0]), predicts [i + 1] frames and
    appends one entry. *)
Lemma autoregressive_step_inv (s s' : sample) (i : nat) :
  FaceFormer_autoregressive_step attention self s i = Ok s' ->
  (i = 0 \/ exists e st, embedded_output s = Some e /\ dim1 e = i + 1
                         /\ style_emb s = Some st /\ dim1 st = 1) ->
  stepping_state self (i + 1) s s'.
Proof.
  destruct Hwf as (Hrows & Hhead & Hm0 & _).
  unfold FaceFormer_autoregressive_step. intros H Hi.
  bind_ok H. rename a into hidden_states. bind_ok H.
  destruct a as [[[s1 vertice_emb] style] vertices_input].
  bind_ok H. rename a into vertices_out.
  bind_ok H. bind_ok H. bind_ok H. bind_ok H.
  injection H as <-.
  assert (Hs1 : seq_encoder_output s1 = seq_encoder_output s
                /\ hidden_feature s1 = hidden_feature s
                /\ gt_vertices s1 = gt_vertices s
                /\ template s1 = template s
                /\ one_hot s1 = one_hot s
                /\ style_emb s1 = Some style
                /\ dim1 style = 1
                /\ dim1 vertices_input = i + 1
                /\ dim1 vertice_emb = i + 1).
  { destruct (Nat.eqb_spec i 0) as [->|Hne].
    - bind_ok E0. bind_ok E0. bind_ok E0. injection E0 as <- <- <- <-.
      apply PE_forward_dim1 in E8; [|exact Hrows].
      simpl in *. repeat split; assumption.
    - bind_ok E0. bind_ok E0. bind_ok E0. injection E0 as <- <- <- <-.
      apply PE_forward_dim1 in E8; [|exact Hrows].
      destruct Hi as [?|(e & st & He & Hlen & Hst & Hst1)]; [contradiction|].
      rewrite He in E6. injection E6 as <-.
      rewrite Hst in E7. injection E7 as <-.
      repeat split; try reflexivity; congruence. }
  destruct Hs1 as (K1 & K2 & K3 & K4 & K5 & K6 & Hst & Hvin & Hemb).
  apply decode_shape in E1.
  destruct E1 as (D0 & D1 & D2 & Dh & Dm & _).
  assert (HB : dim0 vertices_input = 1) by nia.
  apply cat1_shape in E5. destruct E5 as (_ & C1 & _).
  apply broadcast3_inv in E4. destruct E4 as (_ & B1 & _).
  simpl in B1. rewrite bdim_1_l in B1. injection B1 as B1.
  unfold stepping_state. simpl. repeat split; try assumption.
  exists hidden_states, vertices_out, a2, style.
  destruct (hidden_feature s) as [h|] eqn:Hh; simpl in E; [|discriminate].
  injection E as ->.
  repeat split; try reflexivity; try congruence; try lia.
Qed.

(** The loop after [k >= 1] rounds. *)
Lemma stepping_loop_inv (s0 s : sample) (k : nat) :
  1 <= k ->
  for_range k (FaceFormer_autoregressive_step attention self) s0 = Ok s ->
  stepping_state self k s0 s.
Proof.
  induction k as [|k IH] in s |- *; intros Hk H; [lia|].
  apply for_range_S_ok in H. destruct H as (s1 & H1 & H2).
  destruct k as [|k].
  - injection H1 as <-.
    exact (@autoregressive_step_inv s0 s 0 H2 (or_introl eq_refl)).
  - specialize (IH s1 ltac:(lia) H1).
    destruct IH as (I1 & I2 & I3 & I4 & I5 & h & pv & e & st
                    & Ih & Ih0 & Ip & Ie & Ist & _ & _ & _ & Ielen & Ist1).
    assert (Hpre : S k = 0 \/ exists e st, embedded_output s1 = Some e /\ dim1 e = S k + 1
                         /\ style_emb s1 = Some st /\ dim1 st = 1).
    { right. exists e, st. repeat split; try assumption; lia. }
    pose proof (@autoregressive_step_inv s1 s (S k) H2 Hpre) as H3.
    destruct H3 as (J1 & J2 & J3 & J4 & J5 & h' & pv' & e' & st'
                      & Jh & Jh0 & Jp & Je & Jst & J6 & J7 & J8 & J9 & J10).
    unfold stepping_state. repeat split; try congruence.
    exists h, pv', e', st'. replace (S (S k)) with (S k + 1) by lia.
    repeat split; assumption.
Qed.

End SteppingLoop.

(** ** Construction of the decoder *)

Lemma init_biased_mask_inv (n_head max_seq_len period : nat) (m : tensor3 xreal) :
  BiasMask.init_biased_mask n_head max_seq_len period = Ok m ->
  0 < n_head /\ 0 < period
  /\ dim0 m = n_head /\ dim1 m = max_seq_len /\ dim2 m = max_seq_len.
Proof.
  intros H.
  destruct (Nat.eq_dec n_head 0) as [Hn|Hn].
  { pose proof (@init_biased_mask_rejects n_head max_seq_len period (or_introl Hn)) as R.
    rewrite H in R. discriminate. }
  destruct (Nat.eq_dec period 0) as [Hp|Hp].
  { pose proof (@init_biased_mask_rejects n_head max_seq_len period (or_intror Hp)) as R.
    rewrite H in R. discriminate. }
  destruct (@init_biased_mask_closed_form n_head max_seq_len period)
    as (_ & m' & _ & _ & Hm & H0 & H1 & H2 & _); try lia.
  rewrite H in Hm. injection Hm as <-. repeat split; try assumption; lia.
Qed.

Lemma set_mid0_cols_strided_shape (start : nat) (dst m : tensor3 R) (src : tensor2 R) :
  PE.set_mid0_cols_strided start dst src = Ok m ->
  dim0 m = dim0 dst /\ dim1 m = dim1 dst /\ dim2 m = dim2 dst.
Proof.
  unfold PE.set_mid0_cols_strided.
  destruct (dim1 dst =? 0); [discriminate|].
  destruct (PE.fits _ _ && PE.fits _ _); [|discriminate].
  intros H. injection H as <-. repeat split.
Qed.

Lemma monotonic_init_inv (d_model max_len : nat) (o : string) (p : PositionalEncoding.t) :
  PositionalEncoding.init d_model max_len o = Ok p ->
  PositionalEncoding.op p = o
  /\ dim0 (PositionalEncoding.pe p) = max_len
  /\ dim1 (PositionalEncoding.pe p) = 1
  /\ dim2 (PositionalEncoding.pe p) = d_model.
Proof.
  unfold PositionalEncoding.init. intros H.
  bind_ok H. bind_ok H. bind_ok H. bind_ok H. injection H as <-. simpl.
  apply set_mid0_cols_strided_shape in E1, E2. simpl in E1.
  destruct E1 as (A0 & A1 & A2). destruct E2 as (B0 & B1 & B2).
  repeat split; congruence.
Qed.

(** The untrained output head: all weights and the bias are zero. *)
Lemma FaceFormerDecoder_init_inv (c : cfg) (w : fresh_parameters) (self : FaceFormerDecoder) :
  FaceFormerDecoder_init c w = Ok self ->
  well_formed self
  /\ dim1 (biased_mask self) = max_len c
  /\ d_model self = feature_dim c /\ n_head self = nhead c
  /\ Linear.in_features (vertex_map self) = feature_dim c
  /\ Linear.out_features (vertex_map self) = vertices_dim c
  /\ (forall j k, Linear.weight (vertex_map self) j k = 0%R)
  /\ (exists b, Linear.bias (vertex_map self) = Some b /\ forall j, b j = 0%R).
Proof.
  unfold FaceFormerDecoder_init. intros H. bind_ok H. bind_ok H.
  injection H as <-. simpl.
  apply init_biased_mask_inv in E0. destruct E0 as (Hh & Hp & M0 & M1 & M2).
  assert (Hrows : 1 <= PE_rows a).
  { unfold positional_encoding_from_cfg in E.
    destruct (String.eqb _ "PeriodicPositionalEncoding") in E.
    - bind_ok E. injection E as <-. simpl.
      apply periodic_init_inv in E0. destruct E0 as (P & _ & _ & _ & D1 & _).
      rewrite D1. nia.
    - destruct (String.eqb _ "PositionalEncoding") in E; [|discriminate].
      bind_ok E. injection E as <-. simpl.
      apply monotonic_init_inv in E0. lia. }
  unfold well_formed. simpl. repeat split; try assumption; try lia.
  eexists. split; reflexivity.
Qed.

(** ** Length of the autoregressive output *)

Section ForwardFacts.

Variable attention :
  tensor3 R -> tensor3 R -> tensor3 xreal -> tensor2 bool -> nat -> nat -> nat -> R.

(** A successful autoregressive call ran [min(requested, maximum)] steps,
    at least one, and returns that many frames. *)
Lemma forward_autoregressive_frames
  (self : FaceFormerDecoder) (s s' : sample) (train : bool) :
  well_formed self ->
  predicted_vertices s = None ->
  template_per_sequence s ->
  FaceFormer_forward attention self s train false = Ok s' ->
  exists h pv tmpl,
    seq_encoder_output s = Some h /\ dim0 h = 1
    /\ template s = Some tmpl
    /\ predicted_vertices s' = Some pv
    /\ 1 <= dim1 pv
    /\ dim0 pv = 1
    /\ dim1 pv = Nat.min (requested_frames s h) (dim1 (biased_mask self)).
Proof.
  intros Hwf Hfresh Htmpl H.
  unfold FaceFormer_forward, forward in H.
  bind_ok H. rename a into h. cbv zeta in H. bind_ok H. rename a into s1.
  cbn [_post_prediction FaceFormer_decoder] in H.
  unfold FaceFormer_post_prediction in H.
  bind_ok H. rename a into tmpl. bind_ok H. rename a into pv1. bind_ok H.
  injection H as <-.
  cbn [_max_auto_regressive_steps _autoregressive_step FaceFormer_decoder] in E0.
  unfold FaceFormer_max_auto_regressive_steps in E0.
  assert (Hreq : requested_frames (set_hidden_feature s h) h = requested_frames s h)
    by reflexivity.
  rewrite Hreq in E0.
  set (n := Nat.min (requested_frames s h) (dim1 (biased_mask self))) in *.
  destruct (seq_encoder_output s) as [h0|] eqn:Hh; simpl in E; [|discriminate].
  injection E as ->.
  destruct (Nat.eq_dec n 0) as [Hn|Hn].
  { rewrite Hn in E0. injection E0 as <-. simpl in E2.
    rewrite Hfresh in E2. discriminate. }
  apply stepping_loop_inv in E0; [|exact Hwf|lia].
  destruct E0 as (I1 & I2 & I3 & I4 & I5 & h' & pv & e & st
                  & Ih & Ih0 & Ip & Ie & Ist & P0 & P1 & P2 & _).
  simpl in Ih. injection Ih as <-. simpl in I4.
  rewrite Ip in E2. injection E2 as <-.
  rewrite I4 in E1.
  destruct (template s) as [tmpl0|] eqn:Ht; simpl in E1; [|discriminate].
  injection E1 as ->.
  pose proof (Htmpl h tmpl Hh Ht) as Hrow.
  apply broadcast3_inv in E3. destruct E3 as (B0 & B1 & _).
  simpl in B0, B1. rewrite Hrow, Ih0, bdim_1_r in B1. injection B1 as B1.
  rewrite P0, bdim_refl in B0. injection B0 as B0.
  exists h, a, tmpl. simpl. repeat split; try congruence; try lia.
Qed.

(** C4. An autoregressive call that returns, made on a decoder with the
    buffers [__init__] builds and on a sample that carries no earlier
    prediction and one template row per sequence, returns
    [min(ground-truth length if given, else conditioning length, maximum
    steps)] frames; the maximum step count the decoder reports is the
    side length of the precomputed bias mask. *)
Theorem autoregressive_output_length
  (self : FaceFormerDecoder) (s s' : sample) (train : bool) :
  well_formed self ->
  predicted_vertices s = None ->
  template_per_sequence s ->
  FaceFormer_forward attention self s train false = Ok s' ->
  (exists h pv,
     seq_encoder_output s = Some h
     /\ predicted_vertices s' = Some pv
     /\ dim1 pv =
        Nat.min (match gt_vertices s with
                 | Some gt => dim1 gt
                 | None => dim1 h
                 end)
                (@_max_auto_regressive_steps _ (FaceFormer_decoder attention) self))
  /\ @_max_auto_regressive_steps _ (FaceFormer_decoder attention) self
     = dim1 (biased_mask self)
  /\ @_max_auto_regressive_steps _ (FaceFormer_decoder attention) self
     = dim2 (biased_mask self).
Proof.
  intros Hwf Hfresh Htmpl H.
  destruct (@forward_autoregressive_frames self s s' train Hwf Hfresh Htmpl H)
    as (h & pv & tmpl & Hh & _ & _ & Hp & _ & _ & Hlen).
  split; [|split].
  - exists h, pv. repeat split; assumption.
  - reflexivity.
  - destruct Hwf as (_ & _ & _ & Hsq). simpl.
    unfold FaceFormer_max_auto_regressive_steps. congruence.
Qed.

End ForwardFacts.

(** ** Runs of the stepping loop on one sequence *)

Section SteppingRuns.

Variable attention :
  tensor3 R -> tensor3 R -> tensor3 xreal -> tensor2 bool -> nat -> nat -> nat -> R.

Variable self : FaceFormerDecoder.
Variables F D K : nat.
Hypothesis Hwf : well_formed self.
Hypothesis Hshape : periodic_add_decoder self F D K.

(** The attention stack and the output head accept one sequence of at most
    [max_len] positions of width [F]. *)
Lemma decode_ok (s : sample) (vin h : tensor3 R) :
  dim0 vin = 1 -> dim2 vin = F -> dim1 vin <= dim1 (biased_mask self) ->
  dim0 h = 1 -> dim2 h = F ->
  exists out, _decode attention self s vin h = Ok out
              /\ dim0 out = 1 /\ dim1 out = dim1 vin /\ dim2 out = D.
Proof.
  intros V0 V2 V1 H0 H2.
  destruct Hwf as (_ & Hh & M0 & M2).
  destruct Hshape as (p & _ & _ & _ & _ & Dm & _ & _ & _ & _ & VI & VO).
  unfold _decode.
  destruct (Alignment_total (dim1 vin) (dim1 h)) as (mm & Hmm & Mr & Mc).
  rewrite Hmm. simpl bind. unfold transformer_decoder. simpl.
  rewrite Mr, Mc, V0, V2, H0, H2, Dm, M0, M2.
  replace (Nat.min (dim1 vin) (dim1 (biased_mask self))) with (dim1 vin) by lia.
  rewrite !Nat.eqb_refl, Nat.mul_1_l, Nat.eqb_refl. simpl.
  unfold _decode_vertices, Linear.forward3. simpl. rewrite VI, Nat.eqb_refl.
  eexists. split; [reflexivity|]. simpl. repeat split; assumption.
Qed.

(** One step succeeds on a running sequence of [i + 1] entries. *)
Lemma autoregressive_step_ok (s : sample) (S i : nat) :
  batch_of_one s F D K S ->
  (exists h, hidden_feature s = Some h /\ dim0 h = 1 /\ dim2 h = F) ->
  i + 1 <= dim1 (biased_mask self) ->
  i + 1 <= PE_rows (PE self) ->
  (i = 0 \/ exists e st,
              embedded_output s = Some e /\ dim0 e = 1 /\ dim1 e = i + 1 /\ dim2 e = F
              /\ style_emb s = Some st /\ dim0 st = 1 /\ dim1 st = 1 /\ dim2 st = F) ->
  exists s' e st,
    FaceFormer_autoregressive_step attention self s i = Ok s'
    /\ embedded_output s' = Some e /\ dim0 e = 1 /\ dim1 e = i + 2 /\ dim2 e = F
    /\ style_emb s' = Some st /\ dim0 st = 1 /\ dim1 st = 1 /\ dim2 st = F.
Proof.
  intros (h0 & oh & tmpl & Hh0 & _ & _ & _ & Hoh & Or & Oc & _)
         (h & Hh & H0 & H2) Hmask Hrows Hi.
  destruct Hshape as (p & HPE & Hop & P0 & P2 & Dm & MI & MO & OI & OO & VI & VO).
  unfold FaceFormer_autoregressive_step. rewrite Hh. cbn [getitem].
  rewrite bind_Ok. cbv beta.
  match goal with |- context [bind ?r _] => set (pre := r) end.
  assert (Hpre : exists s1 vertice_emb style vin,
             pre
             = Ok (s1, vertice_emb, style, vin)
             /\ style_emb s1 = Some style
             /\ dim0 vertice_emb = 1 /\ dim1 vertice_emb = i + 1 /\ dim2 vertice_emb = F
             /\ dim0 style = 1 /\ dim1 style = 1 /\ dim2 style = F
             /\ dim0 vin = 1 /\ dim1 vin = i + 1 /\ dim2 vin = F).
  { subst pre. rewrite HPE in *. simpl PE_rows in Hrows. simpl PE_forward.
    destruct (Nat.eqb_spec i 0) as [->|Hne].
    - rewrite Hoh. simpl bind. unfold Linear.forward2.
      rewrite Oc, OI, Nat.eqb_refl. simpl bind.
      destruct (@periodic_add_shape p
                  (unsqueeze1 (T2 (nrows oh) (Linear.out_features (obj_vector self))
                     (fun b j => Linear.apply_row (obj_vector self) (at2 oh b) j))))
        as (y & Hy & Y0 & Y1 & Y2 & _); simpl; try assumption; try lia.
      rewrite Hy. simpl bind.
      do 4 eexists. split; [reflexivity|]. simpl in *.
      repeat split; try congruence; try lia.
    - destruct Hi as [?|(e & st & He & E0 & E1 & E2 & Hst & S0 & S1 & S2)];
        [contradiction|].
      rewrite He, Hst. simpl bind.
      destruct (@periodic_add_shape p e) as (y & Hy & Y0 & Y1 & Y2 & _);
        try assumption; try lia.
      rewrite Hy. simpl bind.
      do 4 eexists. split; [reflexivity|].
      repeat split; try congruence; try lia. }
  destruct Hpre as (s1 & vemb & style & vin & Hpre & Hst1 & E0 & E1 & E2
                    & S0 & S1 & S2 & V0 & V1 & V2).
  rewrite Hpre, bind_Ok. cbv beta iota.
  destruct (@decode_ok s1 vin h) as (out & Hout & O0 & O1 & O2);
    try assumption; try lia.
  rewrite Hout. simpl bind.
  unfold last1. destruct (Nat.eqb_spec (dim1 out) 0); [lia|]. simpl bind.
  unfold Linear.forward2. simpl ncols. rewrite O2, MI, Nat.eqb_refl. simpl bind.
  erewrite (@broadcast3_ok _ _ _ Rplus _ style 1 1 F);
    [| simpl; rewrite ?O0, ?S0, ?S1, ?S2, ?MO; apply bdim_refl ..].
  simpl bind. unfold cat1. simpl. rewrite E0, E2, O0, !Nat.eqb_refl. simpl.
  do 3 eexists. split; [reflexivity|]. simpl.
  repeat split; cbn; try eassumption; try lia.
Qed.

(** The loop runs for any number of rounds that the bias mask and the
    positional table cover. *)
Lemma stepping_loop_ok (s : sample) (S k : nat) :
  batch_of_one s F D K S ->
  (exists h, hidden_feature s = Some h /\ dim0 h = 1 /\ dim2 h = F) ->
  1 <= k ->
  k <= dim1 (biased_mask self) ->
  k <= PE_rows (PE self) ->
  exists s' e st,
    for_range k (FaceFormer_autoregressive_step attention self) s = Ok s'
    /\ embedded_output s' = Some e /\ dim0 e = 1 /\ dim1 e = k + 1 /\ dim2 e = F
    /\ style_emb s' = Some st /\ dim0 st = 1 /\ dim1 st = 1 /\ dim2 st = F.
Proof.
  intros Hb Hh. induction k as [|k IH]; intros Hk Hm Hr; [lia|].
  rewrite for_range_S.
  destruct k as [|k].
  - unfold for_range. simpl for_each. simpl bind.
    destruct (@autoregressive_step_ok s S 0 Hb Hh ltac:(lia) ltac:(lia)
                (or_introl eq_refl)) as (s' & e & st & Hs & He).
    exists s', e, st. split; [exact Hs | exact He].
  - destruct IH as (s1 & e & st & Hs1 & He & E0 & E1 & E2 & Hst & S0 & S1 & S2);
      try lia.
    rewrite Hs1. simpl bind.
    pose proof (@stepping_loop_inv attention self Hwf s s1 (Datatypes.S k)
                  ltac:(lia) Hs1) as (I1 & I2 & I3 & I4 & I5 & _).
    destruct (@autoregressive_step_ok s1 S (Datatypes.S k))
      as (s' & e' & st' & Hs & He' & E0' & E1' & E2' & Hst');
      try lia.
    + destruct Hb as (h0 & oh & tmpl & B).
      exists h0, oh, tmpl. rewrite I1, I5, I4. exact B.
    + rewrite I2. exact Hh.
    + right. exists e, st. repeat split; try assumption; lia.
    + exists s', e', st'. split; [exact Hs|].
      destruct Hst' as (? & ? & ? & ?).
      repeat split; try assumption; lia.
Qed.

(** An autoregressive call on one sequence succeeds whenever a step is
    requested and the positional table covers the steps taken. *)
Lemma forward_autoregressive_ok (s : sample) (S : nat) (train : bool) :
  batch_of_one s F D K S ->
  let n := Nat.min (match gt_vertices s with Some gt => dim1 gt | None => S end)
                   (dim1 (biased_mask self)) in
  1 <= n -> n <= PE_rows (PE self) ->
  exists s', FaceFormer_forward attention self s train false = Ok s'.
Proof.
  intros Hb n Hn Hr.
  pose proof Hb as (h & oh & tmpl & Hh & H0 & H1 & H2 & Hoh & O0 & O1 & Ht & T0 & T1).
  unfold FaceFormer_forward, forward. rewrite Hh. simpl bind. cbv zeta.
  cbn [_max_auto_regressive_steps _autoregressive_step _post_prediction
       FaceFormer_decoder].
  unfold FaceFormer_max_auto_regressive_steps.
  assert (Hreq : requested_frames (set_hidden_feature s h) h
                 = match gt_vertices s with Some gt => dim1 gt | None => S end).
  { unfold requested_frames. simpl. rewrite H1. reflexivity. }
  rewrite Hreq. fold n.
  assert (Hb1 : batch_of_one (set_hidden_feature s h) F D K S).
  { exists h, oh, tmpl. simpl. repeat split; assumption. }
  assert (Hh1 : exists h', hidden_feature (set_hidden_feature s h) = Some h'
                           /\ dim0 h' = 1 /\ dim2 h' = F).
  { exists h. simpl. repeat split; assumption. }
  assert (Hm : n <= dim1 (biased_mask self)) by (unfold n; lia).
  destruct (@stepping_loop_ok (set_hidden_feature s h) S n Hb1 Hh1 Hn Hm Hr)
    as (s1 & e & st & Hs1 & _).
  rewrite Hs1. simpl bind.
  pose proof (@stepping_loop_inv attention self Hwf _ s1 n Hn Hs1)
    as (_ & _ & _ & I4 & _ & h' & pv & e' & st' & _ & _ & Ip & _ & _ & P0 & P1 & P2 & _).
  unfold FaceFormer_post_prediction. simpl in I4. rewrite I4, Ht, Ip. simpl bind.
  destruct Hshape as (p & _ & _ & _ & _ & _ & _ & _ & _ & _ & _ & VO).
  erewrite (@broadcast3_ok _ _ _ Rplus pv (as_leading1 tmpl) 1 n D);
    [| simpl; rewrite ?P0, ?P1, ?P2, ?T0, ?T1, ?VO;
       auto using bdim_refl, bdim_1_r ..].
  simpl bind. eexists. reflexivity.
Qed.

End SteppingRuns.

(** ** Decoders built from a configuration *)

Lemma init_periodic_shapes (c : cfg) (w : fresh_parameters) (self : FaceFormerDecoder) :
  FaceFormerDecoder_init c w = Ok self ->
  pe_type (positional_encoding c) = "PeriodicPositionalEncoding"%string ->
  PE.op_is_add (default (pe_op (positional_encoding c)) "add"%string) = true ->
  periodic_add_decoder self (feature_dim c) (vertices_dim c) (num_training_subjects c)
  /\ PE_rows (PE self) =
     (default (pe_max_seq_len (positional_encoding c)) 600
      / default (pe_period (positional_encoding c)) 25 + 1)
     * default (pe_period (positional_encoding c)) 25.
Proof.
  unfold FaceFormerDecoder_init. intros H Hty Hop. bind_ok H. bind_ok H.
  injection H as <-.
  unfold positional_encoding_from_cfg in E. rewrite Hty in E. simpl in E.
  bind_ok E. injection E as <-.
  apply periodic_init_inv in E1.
  destruct E1 as (_ & _ & Ho & P0 & P1 & P2 & _).
  split.
  - exists a1. simpl. rewrite Ho. repeat split; assumption.
  - simpl. exact P1.
Qed.

Lemma demo_init (w : fresh_parameters) :
  exists self, FaceFormerDecoder_init Demo.config w = Ok self.
Proof.
  unfold FaceFormerDecoder_init, positional_encoding_from_cfg.
  cbn [Demo.config positional_encoding pe_type pe_period pe_max_seq_len
       pe_max_len pe_op feature_dim nhead max_len period default].
  rewrite String.eqb_refl.
  destruct (@periodic_init_total 2 25 600 "add") as (p & Hp);
    [lia | reflexivity | lia |].
  rewrite Hp. simpl bind.
  destruct (@init_biased_mask_closed_form 1 2 1) as (_ & m & _ & _ & Hm & _);
    [lia | lia |].
  rewrite Hm. simpl bind. eexists. reflexivity.
Qed.

(** The demo decoder: well formed, periodic sum-mode encoder over 625
    positions, bias mask for two steps. *)
Lemma demo_decoder (w : fresh_parameters) (self : FaceFormerDecoder) :
  FaceFormerDecoder_init Demo.config w = Ok self ->
  well_formed self
  /\ periodic_add_decoder self 2 3 1
  /\ dim1 (biased_mask self) = 2
  /\ PE_rows (PE self) = 625.
Proof.
  intros H.
  destruct (FaceFormerDecoder_init_inv _ _ H) as (Hwf & Hm & _).
  destruct (init_periodic_shapes _ _ H eq_refl eq_refl) as (Hs & Hr).
  split; [exact Hwf|]. split; [exact Hs|]. split; [exact Hm|].
  rewrite Hr. reflexivity.
Qed.

Lemma load_parameters_well_formed (self : FaceFormerDecoder) (w : fresh_parameters) :
  well_formed self -> well_formed (load_parameters self w).
Proof. intros H. exact H. Qed.

Lemma load_parameters_shapes (self : FaceFormerDecoder) (w : fresh_parameters)
  (F D K : nat) :
  periodic_add_decoder self F D K ->
  periodic_add_decoder (load_parameters self w) F D K.
Proof. intros (p & H). exists p. exact H. Qed.

Lemma demo_inference_batch (S : nat) : batch_of_one (Demo.inference_sample S) 2 3 1 S.
Proof.
  unfold batch_of_one, Demo.inference_sample. simpl.
  do 3 eexists. repeat split.
Qed.

Lemma demo_inference_template (S : nat) :
  template_per_sequence (Demo.inference_sample S).
Proof.
  intros h tmpl Hh Ht. simpl in Hh, Ht.
  injection Hh as <-. injection Ht as <-. reflexivity.
Qed.

Lemma autoregressive_output_length_witness :
  exists self s',
    FaceFormerDecoder_init Demo.config Demo.zero_parameters = Ok self
    /\ FaceFormer_forward Demo.pass_through self (Demo.inference_sample 1) false false
       = Ok s'
    /\ (exists h pv,
          seq_encoder_output (Demo.inference_sample 1) = Some h
          /\ predicted_vertices s' = Some pv
          /\ dim1 pv =
             Nat.min (match gt_vertices (Demo.inference_sample 1) with
                      | Some gt => dim1 gt
                      | None => dim1 h
                      end)
                     (@_max_auto_regressive_steps _
                        (FaceFormer_decoder Demo.pass_through) self))
    /\ @_max_auto_regressive_steps _ (FaceFormer_decoder Demo.pass_through) self
       = dim1 (biased_mask self)
    /\ @_max_auto_regressive_steps _ (FaceFormer_decoder Demo.pass_through) self
       = dim2 (biased_mask self).
Proof.
  destruct (demo_init Demo.zero_parameters) as (self & Hinit).
  destruct (demo_decoder Hinit) as (Hwf & Hshape & Hmask & Hrows).
  destruct (@forward_autoregressive_ok Demo.pass_through self 2 3 1 Hwf Hshape
              (Demo.inference_sample 1) 1 false (demo_inference_batch 1))
    as (s' & Hs'); [simpl; rewrite Hmask; simpl; lia ..|].
  exists self, s'. split; [exact Hinit|]. split; [exact Hs'|].
  exact (@autoregressive_output_length Demo.pass_through self
           (Demo.inference_sample 1) s' false Hwf eq_refl
           (@demo_inference_template 1) Hs').
Defined.

(** ** Where the predicted frames come from *)

Section PredictedFrames.

Variable attention :
  tensor3 R -> tensor3 R -> tensor3 xreal -> tensor2 bool -> nat -> nat -> nat -> R.

Variable self : FaceFormerDecoder.

(** After a step the prediction is what [_decode] returned in that step. *)
Lemma autoregressive_step_predicted (s s' : sample) (i : nat) :
  FaceFormer_autoregressive_step attention self s i = Ok s' ->
  exists s1 vin h out,
    hidden_feature s = Some h
    /\ _decode attention self s1 vin h = Ok out
    /\ predicted_vertices s' = Some out.
Proof.
  unfold FaceFormer_autoregressive_step. intros H.
  bind_ok H. rename a into h. bind_ok H.
  destruct a as [[[s1 vertice_emb] style] vin].
  bind_ok H. bind_ok H. bind_ok H. bind_ok H. bind_ok H.
  injection H as <-.
  exists s1, vin, h, a. simpl. repeat split; try assumption.
  destruct (hidden_feature s); simpl in E; [congruence | discriminate].
Qed.

Lemma stepping_loop_predicted (s0 s : sample) (k : nat) :
  well_formed self ->
  1 <= k ->
  for_range k (FaceFormer_autoregressive_step attention self) s0 = Ok s ->
  exists s2 vin h out,
    hidden_feature s0 = Some h
    /\ _decode attention self s2 vin h = Ok out
    /\ predicted_vertices s = Some out.
Proof.
  intros Hwf Hk H. destruct k as [|k]; [lia|].
  apply for_range_S_ok in H. destruct H as (s1 & H1 & H).
  apply autoregressive_step_predicted in H.
  destruct H as (s2 & vin & h & out & Hh & Hd & Hp).
  exists s2, vin, h, out. repeat split; try assumption.
  destruct k as [|k].
  - injection H1 as <-. exact Hh.
  - pose proof (@stepping_loop_inv attention self Hwf s0 s1 (S k) ltac:(lia) H1)
      as (_ & I2 & _).
    congruence.
Qed.

(** The teacher-forced pass decodes [T] positions for [T >= 1] ground-truth
    frames (one position when there is none) and leaves the inputs alone. *)
Lemma teacher_forced_step_inv (s s' : sample) :
  well_formed self ->
  FaceFormer_teacher_forced_step attention self s = Ok s' ->
  exists gt vin h out,
    gt_vertices s = Some gt
    /\ hidden_feature s = Some h
    /\ dim1 vin = 1 + (dim1 gt - 1)
    /\ _decode attention self s vin h = Ok out
    /\ predicted_vertices s' = Some out
    /\ template s' = template s
    /\ seq_encoder_output s' = seq_encoder_output s.
Proof.
  intros (Hrows & _) H. unfold FaceFormer_teacher_forced_step in H.
  bind_named H gt Egt. bind_named H tmpl Etm. bind_named H h Eh.
  bind_named H oh Eoh. bind_named H emb Eemb.
  bind_named H x1 E1. bind_named H x2 E2. bind_named H x3 E3.
  bind_named H x4 E4. bind_named H vin E5. bind_named H out E6.
  injection H as <-.
  apply cat1_shape in E1. destruct E1 as (_ & C1 & _). simpl in C1.
  apply broadcast3_inv in E2. destruct E2 as (_ & B1 & _). simpl in B1.
  apply bdim_some in B1.
  apply forward3_shape in E3. destruct E3 as (_ & L1 & _).
  apply broadcast3_inv in E4. destruct E4 as (_ & B2 & _). simpl in B2.
  apply bdim_some in B2.
  apply PE_forward_dim1 in E5; [|exact Hrows].
  exists gt, vin, h, out. simpl.
  destruct (gt_vertices s); simpl in Egt; [|discriminate]. injection Egt as ->.
  destruct (hidden_feature s); simpl in Eh; [|discriminate]. injection Eh as ->.
  repeat split; try assumption; lia.
Qed.

End PredictedFrames.

(** ** The direct output head *)

Section DirectHead.

Local Open Scope R_scope.

Lemma sum_upto_zero (n : nat) (f : nat -> R) :
  (forall k, f k = 0) -> Linear.sum_upto n f = 0.
Proof.
  intros Hf. unfold Linear.sum_upto.
  induction (seq 0 n) as [|k l IH]; simpl; [reflexivity|].
  rewrite Hf, IH. lra.
Qed.

Lemma zero_layer_row (l : Linear.t) (x : nat -> R) (j : nat) :
  (forall j k, Linear.weight l j k = 0) ->
  (exists b, Linear.bias l = Some b /\ forall j, b j = 0) ->
  Linear.apply_row l x j = 0.
Proof.
  intros Hw (b & Hb & Hb0). unfold Linear.apply_row.
  rewrite Hb, Hb0, sum_upto_zero; [lra|].
  intros k. rewrite Hw. lra.
Qed.

Variable attention :
  tensor3 R -> tensor3 R -> tensor3 xreal -> tensor2 bool -> nat -> nat -> nat -> R.

(** Frames returned by a decoder whose output head is zero. *)
Lemma zero_head_forward (self : FaceFormerDecoder) (s s' : sample)
  (train teacher_forcing : bool) :
  well_formed self ->
  (forall j k, Linear.weight (vertex_map self) j k = 0) ->
  (exists b, Linear.bias (vertex_map self) = Some b /\ forall j, b j = 0) ->
  template_per_sequence s ->
  (forall tmpl, template s = Some tmpl ->
                ncols tmpl = Linear.out_features (vertex_map self)) ->
  (teacher_forcing = false -> predicted_vertices s = None) ->
  FaceFormer_forward attention self s train teacher_forcing = Ok s' ->
  exists tmpl pv,
    template s = Some tmpl
    /\ predicted_vertices s' = Some pv
    /\ dim0 pv = nrows tmpl /\ dim2 pv = ncols tmpl
    /\ forall b r j, (b < dim0 pv)%nat -> (r < dim1 pv)%nat -> (j < dim2 pv)%nat ->
         at3 pv b r j = at2 tmpl b j.
Proof.
  intros Hwf Hw Hb Htmpl Hwidth Hfresh H.
  assert (Hpre : exists h tmpl out s1 s2 vin,
             seq_encoder_output s = Some h
             /\ template s = Some tmpl
             /\ _decode attention self s2 vin h = Ok out
             /\ predicted_vertices s1 = Some out
             /\ template s1 = Some tmpl
             /\ FaceFormer_post_prediction self s1 = Ok s').
  { unfold FaceFormer_forward, forward in H.
    bind_ok H. rename a into h. cbv zeta in H. bind_ok H. rename a into s1.
    cbn [_post_prediction FaceFormer_decoder] in H.
    assert (Hh : seq_encoder_output s = Some h)
      by (destruct (seq_encoder_output s); simpl in E; [congruence|discriminate]).
    assert (Ht1 : exists tmpl, template s1 = Some tmpl).
    { unfold FaceFormer_post_prediction in H. bind_ok H.
      destruct (template s1); [eexists; reflexivity | discriminate]. }
    destruct Ht1 as (tmpl & Ht1).
    destruct teacher_forcing.
    - cbn [_teacher_forced_step FaceFormer_decoder] in E0.
      apply teacher_forced_step_inv in E0; [|exact Hwf].
      destruct E0 as (gt & vin & h' & out & _ & Hh' & _ & Hd & Hp & Ht & _).
      simpl in Hh', Ht. injection Hh' as <-.
      exists h, tmpl, out, s1, (set_hidden_feature s h), vin.
      repeat split; try assumption. congruence.
    - cbn [_autoregressive_step _max_auto_regressive_steps FaceFormer_decoder] in E0.
      match type of E0 with for_range ?n _ _ = _ => set (n0 := n) in * end.
      destruct (Nat.eq_dec n0 0) as [Hn|Hn].
      { rewrite Hn in E0. injection E0 as <-.
        unfold FaceFormer_post_prediction in H. bind_ok H. bind_ok H.
        simpl in E1. rewrite (Hfresh eq_refl) in E1. discriminate. }
      pose proof (@stepping_loop_inv attention self Hwf _ s1 n0 ltac:(lia) E0)
        as (_ & I2 & _ & I4 & _ & hh & pv & e & st & Ih & _ & Ip & _).
      simpl in I4, Ih. injection Ih as <-.
      apply stepping_loop_predicted in E0; [|exact Hwf|lia].
      destruct E0 as (s3 & vin & h' & out & Hh' & Hd & Hp).
      simpl in Hh'. injection Hh' as <-.
      exists h, tmpl, out, s1, s3, vin.
      repeat split; try assumption. congruence. }
  destruct Hpre as (h & tmpl & out & s1 & s2 & vin & Hh & Ht & Hd & Hp & Ht1 & Hpost).
  apply decode_shape in Hd.
  destruct Hd as (D0 & D1 & D2 & Dh & Dm & _ & _ & Hat).
  destruct Hwf as (_ & Hhead & M0 & _).
  assert (HB : dim0 vin = 1%nat) by nia.
  pose proof (Htmpl h tmpl Hh Ht) as Hrow.
  pose proof (Hwidth tmpl Ht) as Hcol.
  unfold FaceFormer_post_prediction in Hpost. rewrite Ht1, Hp in Hpost.
  simpl bind in Hpost. bind_named Hpost pv Epv. injection Hpost as <-.
  apply broadcast3_inv in Epv. destruct Epv as (B0 & _ & B2 & Bat).
  simpl in B0, B2.
  rewrite bdim_1_r in B0. injection B0 as B0.
  rewrite D2, Hcol, bdim_refl in B2. injection B2 as B2.
  assert (Hrow1 : nrows tmpl = 1%nat) by congruence.
  exists tmpl, pv. simpl. repeat split; try congruence.
  intros b r j Hb0 Hr Hj. rewrite Bat. simpl.
  rewrite Hat, zero_layer_row by assumption.
  assert (b = 0)%nat by (clear - Hb0 B0 D0 HB; lia). subst b.
  rewrite Hrow1.
  rewrite (@bidx_lt (ncols tmpl) j) by (clear - Hj B2 Hcol; lia).
  change (bidx 1 r) with 0%nat. lra.
Qed.

End DirectHead.

(** ** The untrained decoder *)

Section UntrainedDecoder.

Local Open Scope R_scope.

Variable attention :
  tensor3 R -> tensor3 R -> tensor3 xreal -> tensor2 bool -> nat -> nat -> nat -> R.

(** The zero head through [forward], in exact arithmetic (every value
    finite).  At construction the final projection of the direct head has
    zero weights and a zero bias; the decoded offset is zero, and every
    frame that a call of the freshly built decoder returns, in either
    mode, is the template (of shape [(batch, vertices_dim)]). *)
Theorem untrained_direct_head_returns_template
  (c : cfg) (w : fresh_parameters) (self : FaceFormerDecoder)
  (s s' : sample) (train teacher_forcing : bool) :
  FaceFormerDecoder_init c w = Ok self ->
  template_per_sequence s ->
  (forall tmpl, template s = Some tmpl -> ncols tmpl = vertices_dim c) ->
  (teacher_forcing = false -> predicted_vertices s = None) ->
  FaceFormer_forward attention self s train teacher_forcing = Ok s' ->
  (forall j k, Linear.weight (vertex_map self) j k = 0)
  /\ (exists b, Linear.bias (vertex_map self) = Some b /\ forall j, b j = 0)
  /\ (forall s0 hidden offset,
        _decode_vertices self s0 hidden = Ok offset ->
        forall b r j, at3 offset b r j = 0)
  /\ exists tmpl pv,
       template s = Some tmpl
       /\ predicted_vertices s' = Some pv
       /\ dim0 pv = nrows tmpl /\ dim2 pv = ncols tmpl
       /\ forall b r j, (b < dim0 pv)%nat -> (r < dim1 pv)%nat -> (j < dim2 pv)%nat ->
            at3 pv b r j = at2 tmpl b j.
Proof.
  intros Hinit Htmpl Hwidth Hfresh H.
  destruct (FaceFormerDecoder_init_inv _ _ Hinit)
    as (Hwf & _ & _ & _ & _ & Hout & Hw & Hb).
  split; [exact Hw|]. split; [exact Hb|]. split.
  - intros s0 hidden offset Hd b r j.
    unfold _decode_vertices in Hd. apply forward3_shape in Hd.
    destruct Hd as (_ & _ & _ & _ & Hat).
    rewrite Hat. apply zero_layer_row; assumption.
  - apply (@zero_head_forward attention self s s' train teacher_forcing);
      try assumption.
    intros tmpl Ht. rewrite Hout. apply Hwidth. exact Ht.
Qed.

End UntrainedDecoder.

Lemma untrained_direct_head_returns_template_witness :
  exists self s',
    FaceFormerDecoder_init Demo.config Demo.trained_parameters = Ok self
    /\ FaceFormer_forward Demo.pass_through self (Demo.inference_sample 2) false false
       = Ok s'
    /\ (forall j k, Linear.weight (vertex_map self) j k = 0%R)
    /\ (exists b, Linear.bias (vertex_map self) = Some b /\ forall j, b j = 0%R)
    /\ (forall s0 hidden offset,
          _decode_vertices self s0 hidden = Ok offset ->
          forall b r j, at3 offset b r j = 0%R)
    /\ exists tmpl pv,
         template (Demo.inference_sample 2) = Some tmpl
         /\ predicted_vertices s' = Some pv
         /\ dim0 pv = nrows tmpl /\ dim2 pv = ncols tmpl
         /\ forall b r j, b < dim0 pv -> r < dim1 pv -> j < dim2 pv ->
              at3 pv b r j = at2 tmpl b j.
Proof.
  destruct (demo_init Demo.trained_parameters) as (self & Hinit).
  destruct (demo_decoder Hinit) as (Hwf & Hshape & Hmask & Hrows).
  destruct (@forward_autoregressive_ok Demo.pass_through self 2 3 1 Hwf Hshape
              (Demo.inference_sample 2) 2 false (demo_inference_batch 2))
    as (s' & Hs'); [simpl; rewrite Hmask; simpl; lia ..|].
  exists self, s'. split; [exact Hinit|]. split; [exact Hs'|].
  apply (@untrained_direct_head_returns_template Demo.pass_through
           Demo.config Demo.trained_parameters self
           (Demo.inference_sample 2) s' false false Hinit
           (@demo_inference_template 2)).
  - intros tmpl Ht. simpl in Ht. injection Ht as <-. reflexivity.
  - reflexivity.
  - exact Hs'.
Defined.

(** ** Requests beyond the capacity of the bias mask *)

(** C5 fails in both of its cases.  The demo decoder has a bias mask for
    two steps.  Asked for three frames (three conditioning positions, no
    ground truth) the autoregressive call raises nothing and returns two
    frames.  Given an empty conditioning sequence and two ground-truth
    frames it raises nothing either and returns two frames. *)
Lemma length_is_not_validated :
  (exists self h s' pv,
     FaceFormerDecoder_init Demo.config Demo.zero_parameters = Ok self
     /\ seq_encoder_output (Demo.inference_sample 3) = Some h
     /\ dim1 h = 3
     /\ @_max_auto_regressive_steps _ (FaceFormer_decoder Demo.pass_through) self = 2
     /\ FaceFormer_forward Demo.pass_through self (Demo.inference_sample 3) false false
        = Ok s'
     /\ predicted_vertices s' = Some pv
     /\ dim1 pv = 2)
  /\ (exists self h s' pv,
        FaceFormerDecoder_init Demo.config Demo.zero_parameters = Ok self
        /\ seq_encoder_output (Demo.training_sample 0 2) = Some h
        /\ dim1 h = 0
        /\ FaceFormer_forward Demo.pass_through self (Demo.training_sample 0 2)
             false false = Ok s'
        /\ predicted_vertices s' = Some pv
        /\ dim1 pv = 2).
Proof.
  destruct (demo_init Demo.zero_parameters) as (self & Hinit).
  destruct (demo_decoder Hinit) as (Hwf & Hshape & Hmask & Hrows).
  split.
  - destruct (@forward_autoregressive_ok Demo.pass_through self 2 3 1 Hwf Hshape
                (Demo.inference_sample 3) 3 false (demo_inference_batch 3))
      as (s' & Hs'); [simpl; rewrite Hmask; simpl; lia ..|].
    destruct (@forward_autoregressive_frames Demo.pass_through self
                (Demo.inference_sample 3) s' false Hwf eq_refl
                (@demo_inference_template 3) Hs')
      as (h & pv & tmpl & Hh & _ & _ & Hp & _ & _ & Hlen).
    exists self, h, s', pv.
    simpl in Hh. injection Hh as <-.
    repeat split; try assumption.
    rewrite Hlen, Hmask. reflexivity.
  - assert (Hb : batch_of_one (Demo.training_sample 0 2) 2 3 1 0).
    { unfold batch_of_one, Demo.training_sample.
      cbn [seq_encoder_output one_hot template].
      do 3 eexists. repeat split. }
    assert (Ht : template_per_sequence (Demo.training_sample 0 2)).
    { intros h tmpl Hh Htm. simpl in Hh, Htm.
      injection Hh as <-. injection Htm as <-. reflexivity. }
    destruct (@forward_autoregressive_ok Demo.pass_through self 2 3 1 Hwf Hshape
                (Demo.training_sample 0 2) 0 false Hb)
      as (s' & Hs'); [simpl; rewrite Hmask; simpl; lia ..|].
    destruct (@forward_autoregressive_frames Demo.pass_through self
                (Demo.training_sample 0 2) s' false Hwf eq_refl Ht Hs')
      as (h & pv & tmpl & Hh & _ & _ & Hp & _ & _ & Hlen).
    exists self, h, s', pv.
    simpl in Hh. injection Hh as <-.
    repeat split; try assumption.
    rewrite Hlen, Hmask. reflexivity.
Qed.

Section LengthFailures.

Variable attention :
  tensor3 R -> tensor3 R -> tensor3 xreal -> tensor2 bool -> nat -> nat -> nat -> R.

(** C5, amended.  No length is validated.  In teacher-forced mode a
    ground truth longer than the side of the bias mask is an error: the
    attention stack refuses the clamped mask.  In autoregressive mode a
    request longer than the mask is cut to the side of the mask, and the
    call on one sequence (periodic encoder in sum mode) returns that many
    frames, at least one, whenever the positional table has that many
    rows.  An empty conditioning sequence makes the
    autoregressive call fail when no ground truth is given: no step runs
    and the prediction looked up afterwards is missing. *)
Theorem length_failures (self : FaceFormerDecoder) (s : sample) (train : bool) :
  well_formed self ->
  predicted_vertices s = None ->
  template_per_sequence s ->
  (forall gt, gt_vertices s = Some gt ->
              dim1 (biased_mask self) < dim1 gt ->
              is_ok (FaceFormer_forward attention self s train true) = false)
  /\ (forall F D K S,
        periodic_add_decoder self F D K ->
        batch_of_one s F D K S ->
        dim1 (biased_mask self)
        < match gt_vertices s with Some gt => dim1 gt | None => S end ->
        1 <= dim1 (biased_mask self) ->
        dim1 (biased_mask self) <= PE_rows (PE self) ->
        exists s' pv,
          FaceFormer_forward attention self s train false = Ok s'
          /\ predicted_vertices s' = Some pv
          /\ dim1 pv = dim1 (biased_mask self))
  /\ (forall h,
        seq_encoder_output s = Some h -> dim1 h = 0 -> gt_vertices s = None ->
        FaceFormer_forward attention self s train false = Err KeyError).
Proof.
  intros Hwf Hfresh Htmpl. split; [|split].
  - intros gt Hgt Hlong.
    destruct (FaceFormer_forward attention self s train true) as [s'|e] eqn:H;
      [|reflexivity].
    exfalso. unfold FaceFormer_forward, forward in H.
    bind_named H h Eh. cbv zeta in H. bind_named H s1 E1.
    cbn [_teacher_forced_step FaceFormer_decoder] in E1.
    apply teacher_forced_step_inv in E1; [|exact Hwf].
    destruct E1 as (gt' & vin & h' & out & Hgt' & _ & Hvin & Hd & _).
    simpl in Hgt'. rewrite Hgt in Hgt'. injection Hgt' as <-.
    apply decode_shape in Hd. destruct Hd as (_ & _ & _ & _ & _ & Hle & _).
    lia.
  - intros F D K S Hshape Hb Hlong Hm Hrows.
    destruct (@forward_autoregressive_ok attention self F D K Hwf Hshape
                s S train Hb) as (s' & Hs'); [cbv zeta; lia ..|].
    destruct (@forward_autoregressive_frames attention self s s' train
                Hwf Hfresh Htmpl Hs')
      as (h & pv & tmpl & Hh & _ & _ & Hp & _ & _ & Hlen).
    destruct Hb as (h0 & _ & _ & Hh0 & _ & H1 & _).
    rewrite Hh in Hh0. injection Hh0 as <-.
    unfold requested_frames in Hlen. rewrite H1 in Hlen.
    exists s', pv. split; [exact Hs'|]. split; [exact Hp|]. lia.
  - intros h Hh Hempty Hgt.
    unfold FaceFormer_forward, forward. rewrite Hh. simpl bind. cbv zeta.
    unfold requested_frames. simpl gt_vertices. rewrite Hgt, Hempty.
    simpl Nat.min. unfold for_range. simpl for_each. simpl bind.
    cbn [_post_prediction FaceFormer_decoder].
    unfold FaceFormer_post_prediction. simpl template. simpl predicted_vertices.
    rewrite Hfresh. destruct (template s); reflexivity.
Qed.

End LengthFailures.

Lemma demo_training_template (S T : nat) :
  template_per_sequence (Demo.training_sample S T).
Proof.
  intros h tmpl Hh Ht. simpl in Hh, Ht.
  injection Hh as <-. injection Ht as <-. reflexivity.
Qed.

Lemma length_failures_witness :
  exists self,
    FaceFormerDecoder_init Demo.config Demo.zero_parameters = Ok self
    /\ dim1 (biased_mask self) = 2
    /\ is_ok (FaceFormer_forward Demo.pass_through self
                (Demo.training_sample 3 3) false true) = false
    /\ (exists s' pv,
          FaceFormer_forward Demo.pass_through self (Demo.inference_sample 3)
            false false = Ok s'
          /\ predicted_vertices s' = Some pv
          /\ dim1 pv = dim1 (biased_mask self))
    /\ FaceFormer_forward Demo.pass_through self (Demo.inference_sample 0)
         false false = Err KeyError.
Proof.
  destruct (demo_init Demo.zero_parameters) as (self & Hinit).
  destruct (demo_decoder Hinit) as (Hwf & Hshape & Hmask & Hrows).
  exists self. split; [exact Hinit|]. split; [exact Hmask|]. split; [|split].
  - destruct (@length_failures Demo.pass_through self (Demo.training_sample 3 3)
                false Hwf eq_refl (@demo_training_template 3 3)) as (Hforced & _).
    apply (Hforced _ eq_refl). rewrite Hmask. simpl. lia.
  - destruct (@length_failures Demo.pass_through self (Demo.inference_sample 3)
                false Hwf eq_refl (@demo_inference_template 3)) as (_ & Hcut & _).
    apply (Hcut 2 3 1 3 Hshape (demo_inference_batch 3)).
    + rewrite Hmask. simpl. lia.
    + rewrite Hmask. lia.
    + rewrite Hmask, Hrows. lia.
  - destruct (@length_failures Demo.pass_through self (Demo.inference_sample 0)
                false Hwf eq_refl (@demo_inference_template 0)) as (_ & _ & Hempty).
    apply (Hempty _ eq_refl); reflexivity.
Defined.

(** ** Operations that succeed, with their entries *)

Section OpsOk.

Lemma forward2_ok (l : Linear.t) (x : tensor2 R) :
  ncols x = Linear.in_features l ->
  exists y, Linear.forward2 l x = Ok y
            /\ nrows y = nrows x /\ ncols y = Linear.out_features l
            /\ forall b j, at2 y b j = Linear.apply_row l (at2 x b) j.
Proof.
  intros H. unfold Linear.forward2. rewrite H, Nat.eqb_refl.
  eexists. repeat split.
Qed.

Lemma forward3_ok (l : Linear.t) (x : tensor3 R) :
  dim2 x = Linear.in_features l ->
  exists y, Linear.forward3 l x = Ok y
            /\ dim0 y = dim0 x /\ dim1 y = dim1 x
            /\ dim2 y = Linear.out_features l
            /\ forall b r j, at3 y b r j = Linear.apply_row l (at3 x b r) j.
Proof.
  intros H. unfold Linear.forward3. rewrite H, Nat.eqb_refl.
  eexists. repeat split.
Qed.

Lemma broadcast3_ex {A B C : Type} (f : A -> B -> C)
  (x : tensor3 A) (y : tensor3 B) (d0 d1 d2 : nat) :
  bdim (dim0 x) (dim0 y) = Some d0 ->
  bdim (dim1 x) (dim1 y) = Some d1 ->
  bdim (dim2 x) (dim2 y) = Some d2 ->
  exists z, broadcast3 f x y = Ok z
            /\ dim0 z = d0 /\ dim1 z = d1 /\ dim2 z = d2
            /\ forall i j k,
                 at3 z i j k =
                 f (at3 x (bidx (dim0 x) i) (bidx (dim1 x) j) (bidx (dim2 x) k))
                   (at3 y (bidx (dim0 y) i) (bidx (dim1 y) j) (bidx (dim2 y) k)).
Proof.
  intros H0 H1 H2. rewrite (broadcast3_ok f x y H0 H1 H2).
  eexists. repeat split.
Qed.

Lemma broadcast2_ex {A B C : Type} (f : A -> B -> C)
  (x : tensor2 A) (y : tensor2 B) (r c : nat) :
  bdim (nrows x) (nrows y) = Some r ->
  bdim (ncols x) (ncols y) = Some c ->
  exists z, broadcast2 f x y = Ok z
            /\ nrows z = r /\ ncols z = c
            /\ forall i j,
                 at2 z i j =
                 f (at2 x (bidx (nrows x) i) (bidx (ncols x) j))
                   (at2 y (bidx (nrows y) i) (bidx (ncols y) j)).
Proof.
  intros H0 H1. unfold broadcast2. rewrite H0, H1.
  eexists. repeat split.
Qed.

Lemma cat1_ok {A : Type} (x y : tensor3 A) :
  dim0 y = dim0 x -> dim2 y = dim2 x ->
  exists z, cat1 x y = Ok z
            /\ dim0 z = dim0 x /\ dim1 z = dim1 x + dim1 y /\ dim2 z = dim2 x
            /\ forall i j k,
                 at3 z i j k = if j <? dim1 x then at3 x i j k
                               else at3 y i (j - dim1 x) k.
Proof.
  intros H0 H2. unfold cat1. rewrite H0, H2, !Nat.eqb_refl. simpl.
  eexists. repeat split.
Qed.

Lemma select1_ok {A : Type} (i : nat) (t : tensor3 A) :
  i < dim1 t ->
  exists y, select1 i t = Ok y
            /\ nrows y = dim0 t /\ ncols y = dim2 t
            /\ forall b k, at2 y b k = at3 t b i k.
Proof.
  intros H. unfold select1. destruct (Nat.ltb_spec i (dim1 t)); [|lia].
  eexists. repeat split.
Qed.

Lemma last1_ok {A : Type} (t : tensor3 A) :
  1 <= dim1 t ->
  exists y, last1 t = Ok y /\ nrows y = dim0 t /\ ncols y = dim2 t.
Proof.
  intros H. unfold last1. destruct (Nat.eqb_spec (dim1 t) 0); [lia|].
  eexists. repeat split.
Qed.

Local Open Scope R_scope.

Lemma sum_upto_ext (n : nat) (f g : nat -> R) :
  (forall k, (k < n)%nat -> f k = g k) -> Linear.sum_upto n f = Linear.sum_upto n g.
Proof.
  intros H. unfold Linear.sum_upto. f_equal.
  apply map_ext_in. intros k Hk. apply in_seq in Hk. apply H. lia.
Qed.

(** A layer reads the first [in_features] coordinates of its input. *)
Lemma apply_row_ext (l : Linear.t) (x y : nat -> R) (j : nat) :
  (forall k, (k < Linear.in_features l)%nat -> x k = y k) ->
  Linear.apply_row l x j = Linear.apply_row l y j.
Proof.
  intros H. unfold Linear.apply_row.
  rewrite (@sum_upto_ext _ (fun k => x k * Linear.weight l j k)
             (fun k => y k * Linear.weight l j k)); [reflexivity|].
  intros k Hk. rewrite H by exact Hk. reflexivity.
Qed.

End OpsOk.

(** ** Teacher forcing against stepping on the ground truth *)

Lemma bidx_1 (i : nat) : bidx 1 i = 0.
Proof. reflexivity. Qed.

Lemma bidx_0 (d : nat) : bidx d 0 = 0.
Proof. unfold bidx. destruct (d =? 1); reflexivity. Qed.

Section DecoderInputs.

Local Open Scope R_scope.

Variable attention :
  tensor3 R -> tensor3 R -> tensor3 xreal -> tensor2 bool -> nat -> nat -> nat -> R.

Variable self : FaceFormerDecoder.
Variables F D K : nat.
Hypothesis Hwf : well_formed self.
Hypothesis Hshape : periodic_add_decoder self F D K.

(** Sum mode of the periodic encoder inside the decoder. *)
Lemma PE_add_ok (x : tensor3 R) :
  (dim1 x <= PE_rows (PE self))%nat -> dim2 x = F ->
  exists y, PE_forward (PE self) x = Ok y
            /\ dim0 y = dim0 x /\ dim1 y = dim1 x /\ dim2 y = dim2 x
            /\ forall b r c, (b < dim0 x)%nat -> (r < dim1 x)%nat -> (c < dim2 x)%nat ->
                 at3 y b r c = at3 x b r c + at3 (PE_table (PE self)) 0 r c.
Proof.
  destruct Hshape as (p & HPE & Hop & P0 & P2 & _).
  rewrite HPE. simpl. intros Hr H2.
  apply periodic_add_shape; try assumption. congruence.
Qed.

(** The attention stack and the head on one sequence, with the entries
    of the result. *)
Lemma decode_values (s : sample) (vin h : tensor3 R) :
  dim0 vin = 1%nat -> dim2 vin = F -> (dim1 vin <= dim1 (biased_mask self))%nat ->
  dim0 h = 1%nat -> dim2 h = F ->
  exists out mm,
    _decode attention self s vin h = Ok out
    /\ Alignment.enc_dec_mask (dim1 vin) (dim1 h) Alignment.default_dataset = Ok mm
    /\ dim0 out = 1%nat /\ dim1 out = dim1 vin /\ dim2 out = D
    /\ forall b r j,
         at3 out b r j =
         Linear.apply_row (vertex_map self)
           (attention vin h
              (slice12 (dim1 vin) (dim1 vin) (biased_mask self)) mm b r) j.
Proof.
  intros V0 V2 V1 H0 H2.
  destruct (@decode_ok attention self F D K Hwf Hshape s vin h V0 V2 V1 H0 H2)
    as (out & Hout & O0 & O1 & O2).
  destruct (Alignment_total (dim1 vin) (dim1 h)) as (mm & Hmm & _).
  exists out, mm. repeat split; try assumption.
  intros b r j. pose proof (decode_shape _ _ _ _ _ Hout) as (_ & _ & _ & _ & _ & _ & _ & Hat).
  rewrite Hat, Hmm. reflexivity.
Qed.

Variable s : sample.
Variable h : tensor3 R.
Variables oh tmpl : tensor2 R.
Variable gt : tensor3 R.
Variable T : nat.

Hypothesis Hh0 : dim0 h = 1%nat.
Hypothesis Hh2 : dim2 h = F.
Hypothesis Hoh0 : nrows oh = 1%nat.
Hypothesis Hoh1 : ncols oh = K.
Hypothesis Htm0 : nrows tmpl = 1%nat.
Hypothesis Htm1 : ncols tmpl = D.
Hypothesis Hgt0 : dim0 gt = 1%nat.
Hypothesis Hgt1 : dim1 gt = T.
Hypothesis Hgt2 : dim2 gt = D.

(** The teacher-forced pass on one sequence: it succeeds, and row [r] of
    the decoder input is [forced_row] plus the positional code. *)
Lemma teacher_forced_ok :
  hidden_feature s = Some h -> one_hot s = Some oh ->
  template s = Some tmpl -> gt_vertices s = Some gt ->
  (1 <= T)%nat -> (T <= dim1 (biased_mask self))%nat ->
  (T <= PE_rows (PE self))%nat ->
  exists vin out mm,
    FaceFormer_teacher_forced_step attention self s
    = Ok (set_predicted_vertices s out)
    /\ dim0 vin = 1%nat /\ dim1 vin = T /\ dim2 vin = F
    /\ (forall r kk, (r < T)%nat -> (kk < F)%nat ->
          at3 vin 0 r kk =
          forced_row self oh tmpl gt r kk + at3 (PE_table (PE self)) 0 r kk)
    /\ Alignment.enc_dec_mask T (dim1 h) Alignment.default_dataset = Ok mm
    /\ dim0 out = 1%nat /\ dim1 out = T /\ dim2 out = D
    /\ forall b r j,
         at3 out b r j =
         Linear.apply_row (vertex_map self)
           (attention vin h (slice12 T T (biased_mask self)) mm b r) j.
Proof.
  intros Hh Hoh Htm Hgt HT Hmask Hrows.
  pose proof Hshape as (p & _ & _ & _ & _ & Dm & MI & MO & OI & OO & VI & VO).
  unfold FaceFormer_teacher_forced_step.
  rewrite Hgt, Htm, Hh, Hoh. cbn [getitem]. rewrite !bind_Ok. cbv beta zeta.
  destruct (@forward2_ok (obj_vector self) oh) as (emb & Hemb & Em0 & Em1 & Emv);
    [congruence|].
  rewrite Hemb, bind_Ok. cbv beta.
  destruct (@cat1_ok _ (unsqueeze1 tmpl) (drop_last1 gt))
    as (x1 & Hx1 & A0 & A1 & A2 & Av); [simpl; congruence ..|].
  simpl in A0, A1, A2. rewrite Hgt1 in A1.
  replace (S (T - 1)) with T in A1 by lia.
  rewrite Hx1, bind_Ok. cbv beta.
  destruct (@broadcast3_ex _ _ _ Rminus x1 (unsqueeze1 tmpl) 1 T D)
    as (x2 & Hx2 & B0 & B1 & B2 & Bv).
  { simpl. rewrite A0, Htm0. apply bdim_refl. }
  { simpl. rewrite A1. apply bdim_1_r. }
  { simpl. rewrite A2, Htm1. apply bdim_refl. }
  rewrite Hx2, bind_Ok. cbv beta.
  destruct (@forward3_ok (vertice_map self) x2) as (x3 & Hx3 & C0 & C1 & C2 & Cv);
    [congruence|].
  rewrite Hx3, bind_Ok. cbv beta.
  destruct (@broadcast3_ex _ _ _ Rplus x3 (unsqueeze1 emb) 1 T F)
    as (x4 & Hx4 & E0 & E1 & E2 & Ev).
  { simpl. rewrite C0, B0, Em0, Hoh0. apply bdim_refl. }
  { simpl. rewrite C1, B1. apply bdim_1_r. }
  { simpl. rewrite C2, MO, Em1, OO. apply bdim_refl. }
  rewrite Hx4, bind_Ok. cbv beta.
  destruct (@PE_add_ok x4) as (vin & Hvin & V0 & V1 & V2 & Vv); [lia | assumption |].
  rewrite Hvin, bind_Ok. cbv beta.
  destruct (@decode_values s vin h) as (out & mm & Hout & Hmm & O0 & O1 & O2 & Ov);
    try congruence; try lia.
  rewrite Hout, bind_Ok. cbv beta.
  exists vin, out, mm. split; [reflexivity|].
  rewrite V1, E1 in *.
  repeat split; try congruence.
  intros r kk Hr Hk.
  rewrite Vv by lia. f_equal.
  rewrite Ev. simpl. rewrite C0, C1, C2, B0, B1, MO, Em1, OO.
  rewrite bidx_1, !(bidx_lt Hk), (bidx_lt Hr).
  rewrite Cv, Emv. unfold forced_row, embedded_frame, style_row. f_equal.
  - apply apply_row_ext. intros d Hd. rewrite MI in Hd.
    rewrite Bv. simpl. rewrite A0, A1, A2, Htm0, Htm1.
    rewrite !bidx_1, (bidx_lt Hr), !(bidx_lt Hd).
    rewrite Av. simpl. destruct (r <? 1)%nat; reflexivity.
  - rewrite bidx_0. reflexivity.
Qed.


(** One round of the ground-truth-fed loop: it succeeds, row [r] of the
    decoder input is [stepping_row] plus the positional code, and the
    running sequence gains the embedded ground-truth frame [i]. *)
Lemma ground_truth_fed_step_ok (si : sample) (i : nat) :
  fed_state self F h oh tmpl gt i si ->
  (i < T)%nat -> (i + 1 <= dim1 (biased_mask self))%nat ->
  (i + 1 <= PE_rows (PE self))%nat ->
  exists s' vin out mm,
    ground_truth_fed_step attention self si i = Ok s'
    /\ fed_state self F h oh tmpl gt (i + 1) s'
    /\ predicted_vertices s' = Some out
    /\ dim0 vin = 1%nat /\ dim1 vin = (i + 1)%nat /\ dim2 vin = F
    /\ (forall r kk, (r <= i)%nat -> (kk < F)%nat ->
          at3 vin 0 r kk =
          stepping_row self oh tmpl gt r kk + at3 (PE_table (PE self)) 0 r kk)
    /\ Alignment.enc_dec_mask (i + 1) (dim1 h) Alignment.default_dataset = Ok mm
    /\ dim0 out = 1%nat /\ dim1 out = (i + 1)%nat /\ dim2 out = D
    /\ forall b r j,
         at3 out b r j =
         Linear.apply_row (vertex_map self)
           (attention vin h (slice12 (i + 1) (i + 1) (biased_mask self)) mm b r) j.
Proof.
  intros (Hh & Hoh & Htm & Hgt & Hst) Hi Hmask Hrows.
  pose proof Hshape as (p & _ & _ & _ & _ & Dm & MI & MO & OI & OO & VI & VO).
  unfold ground_truth_fed_step. rewrite Hh. cbn [getitem].
  rewrite bind_Ok. cbv beta.
  match goal with |- context [bind ?r _] => set (pre := r) end.
  assert (Hpre : exists s1 ve st vin,
             pre = Ok (s1, ve, st, vin)
             /\ hidden_feature s1 = Some h /\ one_hot s1 = Some oh
             /\ template s1 = Some tmpl /\ gt_vertices s1 = Some gt
             /\ style_emb s1 = Some st
             /\ dim0 ve = 1%nat /\ dim1 ve = (i + 1)%nat /\ dim2 ve = F
             /\ dim0 st = 1%nat /\ dim1 st = 1%nat /\ dim2 st = F
             /\ (forall kk, (kk < F)%nat -> at3 st 0 0 kk = style_row self oh kk)
             /\ (forall r kk, (r <= i)%nat -> (kk < F)%nat ->
                   at3 ve 0 r kk = stepping_row self oh tmpl gt r kk)
             /\ dim0 vin = 1%nat /\ dim1 vin = (i + 1)%nat /\ dim2 vin = F
             /\ (forall r kk, (r <= i)%nat -> (kk < F)%nat ->
                   at3 vin 0 r kk =
                   stepping_row self oh tmpl gt r kk
                   + at3 (PE_table (PE self)) 0 r kk)).
  { subst pre. destruct (Nat.eqb_spec i 0) as [->|Hne].
    - rewrite Hoh. cbn [getitem]. rewrite bind_Ok. cbv beta.
      destruct (@forward2_ok (obj_vector self) oh) as (emb & Hemb & Em0 & Em1 & Emv);
        [congruence|].
      rewrite Hemb, bind_Ok. cbv beta zeta.
      destruct (@PE_add_ok (unsqueeze1 emb)) as (vin & Hvin & V0 & V1 & V2 & Vv);
        [simpl; lia | simpl; congruence |].
      rewrite Hvin, bind_Ok. cbv beta.
      simpl in V0, V1, V2, Vv.
      do 4 eexists. split; [reflexivity|]. simpl.
      assert (Hrow : forall kk, at2 emb 0 kk = style_row self oh kk)
        by (intros kk; rewrite Emv; reflexivity).
      repeat split; try congruence.
      all: intros;
        try match goal with
            | Hr : (?r <= 0)%nat |- _ => assert (r = 0)%nat by lia; subst r
            end;
        rewrite ?Vv by lia; rewrite ?Hrow; reflexivity.
    - destruct Hst as [?|(e & st & He & E0 & E1 & E2 & Hs & S0 & S1 & S2 & Sv & Ev)];
        [contradiction|].
      rewrite He, Hs. cbn [getitem]. rewrite !bind_Ok. cbv beta.
      destruct (@PE_add_ok e) as (vin & Hvin & V0 & V1 & V2 & Vv);
        [lia | assumption |].
      rewrite Hvin, bind_Ok. cbv beta.
      do 4 eexists. split; [reflexivity|].
      repeat split; try congruence; try assumption.
      intros r kk Hr Hk. rewrite Vv by lia. rewrite Ev by assumption.
      reflexivity. }
  destruct Hpre as (s1 & ve & st & vin & Hpre & Hh1 & Hoh1' & Htm1' & Hgt1' & Hst1
                    & E0 & E1 & E2 & S0 & S1 & S2 & Sv & Ev & V0 & V1 & V2 & Vv).
  rewrite Hpre, bind_Ok. cbv beta iota.
  destruct (@decode_values s1 vin h) as (out & mm & Hout & Hmm & O0 & O1 & O2 & Ov);
    try assumption; try lia.
  rewrite Hout, bind_Ok. cbv beta zeta.
  cbn [gt_vertices template set_predicted_vertices].
  rewrite Hgt1', Htm1'. cbn [getitem]. rewrite !bind_Ok. cbv beta.
  destruct (@select1_ok _ i gt) as (frame & Hfr & F0 & F1 & Fv); [lia|].
  rewrite Hfr, bind_Ok. cbv beta.
  destruct (@broadcast2_ex _ _ _ Rminus frame tmpl 1 D)
    as (offset & Hoff & Q0 & Q1 & Qv).
  { rewrite F0, Hgt0, Htm0. apply bdim_refl. }
  { rewrite F1, Hgt2, Htm1. apply bdim_refl. }
  rewrite Hoff, bind_Ok. cbv beta.
  destruct (@forward2_ok (vertice_map self) offset) as (no & Hno & N0 & N1 & Nv);
    [congruence|].
  rewrite Hno, bind_Ok. cbv beta zeta.
  destruct (@broadcast3_ex _ _ _ Rplus (unsqueeze1 no) st 1 1 F)
    as (new & Hnew & W0 & W1 & W2 & Wv).
  { simpl. rewrite N0, Q0, S0. apply bdim_refl. }
  { simpl. rewrite S1. apply bdim_refl. }
  { simpl. rewrite N1, MO, S2. apply bdim_refl. }
  rewrite Hnew, bind_Ok. cbv beta.
  destruct (@cat1_ok _ ve new) as (e' & He' & Z0 & Z1 & Z2 & Zv); [congruence ..|].
  rewrite He', bind_Ok. cbv beta.
  rewrite V1 in *.
  exists (set_embedded_output (set_predicted_vertices s1 out) e'), vin, out, mm.
  split; [reflexivity|]. split.
  { unfold fed_state. simpl. repeat split; try assumption.
    right. exists e', st. repeat split; try congruence; try lia; try assumption.
    intros r kk Hr Hk. rewrite Zv, E1.
    destruct (Nat.ltb_spec r (i + 1)) as [Hlt|Hge].
    - apply Ev; [lia | assumption].
    - assert (r = i + 1)%nat by lia. subst r.
      rewrite Nat.sub_diag, Wv. simpl.
      rewrite N0, Q0, N1, MO, S0, S1, S2, !bidx_1, !(bidx_lt Hk).
      rewrite Nv, Sv by assumption.
      unfold stepping_row, embedded_frame.
      destruct (Nat.eqb_spec (i + 1) 0) as [|_]; [lia|].
      replace (i + 1 - 1)%nat with i by lia. f_equal.
      apply apply_row_ext. intros d Hd. rewrite MI in Hd.
      rewrite Qv, F0, F1, Hgt0, Hgt2, Htm0, Htm1, !bidx_1, !(bidx_lt Hd), Fv.
      reflexivity. }
  simpl. repeat split; try assumption; try congruence.
Qed.


Hypothesis Hh : hidden_feature s = Some h.
Hypothesis Hoh : one_hot s = Some oh.
Hypothesis Htm : template s = Some tmpl.
Hypothesis Hgt : gt_vertices s = Some gt.

(** The ground-truth-fed loop runs for every number of rounds up to the
    ground-truth length that the bias mask and the table cover. *)
Lemma ground_truth_fed_loop_ok (k : nat) :
  (k <= T)%nat -> (k <= dim1 (biased_mask self))%nat ->
  (k <= PE_rows (PE self))%nat ->
  exists sk, for_range k (ground_truth_fed_step attention self) s = Ok sk
             /\ fed_state self F h oh tmpl gt k sk.
Proof.
  induction k as [|k IH]; intros HT Hmask Hrows.
  - exists s. split; [reflexivity|].
    unfold fed_state. repeat split; try assumption. left. reflexivity.
  - destruct IH as (sk & Hsk & Hst); try lia.
    destruct (@ground_truth_fed_step_ok sk k Hst)
      as (s' & vin & out & mm & Hs' & Hst' & _); try lia.
    exists s'. rewrite for_range_S, Hsk, bind_Ok.
    split; [exact Hs'|]. replace (S k) with (k + 1)%nat by lia. exact Hst'.
Qed.

(** Embedding the template relative to itself leaves the bias. *)
Lemma embedded_template (k : nat) :
  zero_bias (vertice_map self) ->
  embedded_frame self oh tmpl (at2 tmpl 0) k = style_row self oh k.
Proof.
  unfold zero_bias, embedded_frame, Linear.apply_row. intros Hz.
  rewrite sum_upto_zero by (intros d; lra).
  destruct (Linear.bias (vertice_map self)); [rewrite Hz|]; lra.
Qed.

Lemma forced_row_is_stepping_row (r k : nat) :
  zero_bias (vertice_map self) ->
  forced_row self oh tmpl gt r k = stepping_row self oh tmpl gt r k.
Proof.
  intros Hz. unfold forced_row, stepping_row.
  destruct r as [|r]; simpl.
  - apply embedded_template. exact Hz.
  - reflexivity.
Qed.

(** With a causal attention stack and a frame embedder without bias, the
    frames of the teacher-forced pass are the frames of the loop fed with
    the ground truth. *)
Lemma forced_matches_stepping :
  causal_attention attention ->
  future_masked (biased_mask self) ->
  zero_bias (vertice_map self) ->
  (1 <= T)%nat -> (T <= dim1 (biased_mask self))%nat ->
  (T <= PE_rows (PE self))%nat ->
  exists sf forced,
    FaceFormer_teacher_forced_step attention self s = Ok sf
    /\ predicted_vertices sf = Some forced
    /\ dim0 forced = 1%nat /\ dim1 forced = T /\ dim2 forced = D
    /\ forall t, (t < T)%nat ->
         exists ss stepped,
           for_range (t + 1) (ground_truth_fed_step attention self) s = Ok ss
           /\ predicted_vertices ss = Some stepped
           /\ dim0 stepped = 1%nat /\ dim1 stepped = (t + 1)%nat /\ dim2 stepped = D
           /\ forall b r j, (b < 1)%nat -> (r <= t)%nat -> (j < D)%nat ->
                at3 stepped b r j = at3 forced b r j.
Proof.
  intros Hcausal Hfuture Hz HT Hmask Hrows.
  pose proof Hshape as (p & _ & _ & _ & _ & Dm & MI & MO & OI & OO & VI & VO).
  destruct (teacher_forced_ok Hh Hoh Htm Hgt HT Hmask Hrows)
    as (vinf & outf & mmf & Hf & Vf0 & Vf1 & Vf2 & Vfv & Hmmf & Of0 & Of1 & Of2 & Ofv).
  exists (set_predicted_vertices s outf), outf.
  split; [exact Hf|]. split; [reflexivity|].
  split; [exact Of0|]. split; [exact Of1|]. split; [exact Of2|].
  intros t Ht.
  destruct (@ground_truth_fed_loop_ok t) as (st & Hst & Hfed); try lia.
  destruct (@ground_truth_fed_step_ok st t Hfed)
    as (ss & vins & outs & mms & Hss & _ & Hp & Vs0 & Vs1 & Vs2 & Vsv & Hmms
        & Os0 & Os1 & Os2 & Osv); try lia.
  exists ss, outs. replace (t + 1)%nat with (S t) by lia.
  rewrite for_range_S, Hst, bind_Ok.
  replace (S t) with (t + 1)%nat by lia.
  split; [exact Hss|]. split; [exact Hp|].
  split; [exact Os0|]. split; [exact Os1|]. split; [exact Os2|].
  intros b r j Hb Hr Hj. rewrite Osv, Ofv.
  apply apply_row_ext. intros k Hk. rewrite VI in Hk.
  destruct (enc_dec_mask_vocaset T (dim1 h)) as (m1 & Hm1 & _ & _ & M1).
  destruct (enc_dec_mask_vocaset (t + 1) (dim1 h)) as (m2 & Hm2 & _ & _ & M2).
  rewrite Hmmf in Hm1. injection Hm1 as <-.
  rewrite Hmms in Hm2. injection Hm2 as <-.
  apply (Hcausal vinf vins h
           (slice12 T T (biased_mask self))
           (slice12 (t + 1) (t + 1) (biased_mask self)) mmf mms (t + 1)%nat);
    try congruence; try lia.
  - intros b' r' k' Hb' Hr' Hk'.
    assert (b' = 0)%nat by lia. subst b'.
    rewrite Vsv, Vfv by lia.
    rewrite forced_row_is_stepping_row by exact Hz. reflexivity.
  - reflexivity.
  - reflexivity.
  - intros h' r' c' Hh' Hr' Hle Hc'. simpl in Hc', Hh' |- *.
    apply Hfuture; lia.
  - intros h' r' c' Hh' Hr' Hle Hc'. simpl in Hc', Hh' |- *.
    apply Hfuture; lia.
  - intros r' c' Hr' Hc'. rewrite M1, M2.
    destruct (Nat.eqb_spec r' c') as [->|]; [|reflexivity].
    simpl. destruct (Nat.ltb_spec c' (Nat.min (t + 1) (dim1 h))),
             (Nat.ltb_spec c' (Nat.min T (dim1 h))); try reflexivity; lia.
Qed.

End DecoderInputs.

(** ** Forced / stepwise equivalence *)

Section ForcedStepwise.

Local Open Scope R_scope.

Variable attention :
  tensor3 R -> tensor3 R -> tensor3 xreal -> tensor2 bool -> nat -> nat -> nat -> R.

(** Where the two paths do agree.  For a causal attention stack, the
    periodic encoder in sum mode and a frame embedder that maps the zero
    offset to zero (a zero bias; [nn.Linear] starts with a random one), the
    teacher-forced pass over [T] ground-truth
    frames and the stepping loop fed with the same ground truth agree, in
    exact arithmetic: the frame the loop predicts in step [t] is frame [t]
    of the teacher-forced pass, for every [t < T].  The bias that the
    teacher-forced pass adds at position 0 is thus the one thing that
    separates the two paths. *)
Theorem forced_stepwise_equivalence
  (self : FaceFormerDecoder) (F D K S T : nat) (s : sample) :
  causal_attention attention ->
  well_formed self ->
  periodic_add_decoder self F D K ->
  future_masked (biased_mask self) ->
  zero_bias (vertice_map self) ->
  training_batch_of_one s F D K S T ->
  (1 <= T)%nat -> (T <= dim1 (biased_mask self))%nat ->
  (T <= PE_rows (PE self))%nat ->
  exists sf forced,
    FaceFormer_teacher_forced_step attention self s = Ok sf
    /\ predicted_vertices sf = Some forced
    /\ dim1 forced = T
    /\ forall t, (t < T)%nat ->
         exists ss stepped,
           for_range (t + 1) (ground_truth_fed_step attention self) s = Ok ss
           /\ predicted_vertices ss = Some stepped
           /\ dim1 stepped = (t + 1)%nat
           /\ forall j, (j < D)%nat -> at3 stepped 0 t j = at3 forced 0 t j.
Proof.
  intros Hcausal Hwf Hshape Hfuture Hz Hs HT Hmask Hrows.
  destruct Hs as ((h & oh & tmpl & Hseq & H0 & H1 & H2 & Hoh & O0 & O1 & Htm & T0 & T1)
                  & Hhid & gt & Hgt & G0 & G1 & G2).
  rewrite Hseq in Hhid.
  destruct (@forced_matches_stepping attention self F D K Hwf Hshape s h oh tmpl gt T
              H0 H2 O0 O1 T0 T1 G0 G1 G2 Hhid Hoh Htm Hgt
              Hcausal Hfuture Hz HT Hmask Hrows)
    as (sf & forced & Hsf & Hp & _ & Hlen & _ & Hall).
  exists sf, forced. repeat split; try assumption.
  intros t Ht. destruct (Hall t Ht) as (ss & stepped & Hss & Hps & _ & Hl & _ & Hv).
  exists ss, stepped. repeat split; try assumption.
  intros j Hj. apply Hv; lia.
Qed.

End ForcedStepwise.

Lemma pass_through_causal : causal_attention Demo.pass_through.
Proof.
  unfold causal_attention, Demo.pass_through.
  intros x x' mem m m' mm mm' n _ _ _ _ Hx _ _ _ _ _ b r k Hb Hr Hk.
  apply Hx; assumption.
Qed.

Lemma init_future_masked (c : cfg) (w : fresh_parameters) (self : FaceFormerDecoder) :
  FaceFormerDecoder_init c w = Ok self -> future_masked (biased_mask self).
Proof.
  unfold FaceFormerDecoder_init. intros H. bind_named H pe Epe. bind_named H m Em.
  injection H as <-. simpl.
  pose proof (init_biased_mask_inv _ _ _ Em) as (Hh & Hp & M0 & M1 & M2).
  destruct (@init_biased_mask_closed_form (nhead c) (max_len c) (period c) Hh Hp)
    as (slopes & m' & _ & _ & Hm' & _ & _ & _ & Hat).
  rewrite Em in Hm'. injection Hm' as <-.
  intros h r k Hlt Hrk Hk. rewrite Hat by lia.
  destruct (Nat.leb_spec k r); [lia | reflexivity].
Qed.

(** The demo decoder after loading [Demo.trained_parameters]. *)
Section TrainedDemo.

Local Open Scope R_scope.

Variable self0 : FaceFormerDecoder.
Hypothesis Hinit : FaceFormerDecoder_init Demo.config Demo.zero_parameters = Ok self0.

Lemma trained_well_formed : well_formed (trained_decoder self0).
Proof. destruct (demo_decoder Hinit) as (Hwf & _). exact Hwf. Qed.

Lemma trained_shapes : periodic_add_decoder (trained_decoder self0) 2 3 1.
Proof.
  destruct (demo_decoder Hinit) as (_ & Hs & _).
  apply load_parameters_shapes. exact Hs.
Qed.

(** The frame embedder returns its bias, one, in every coordinate. *)
Lemma trained_embedding (x : nat -> R) (k : nat) :
  Linear.apply_row (vertice_map (trained_decoder self0)) x k = 1.
Proof.
  unfold Linear.apply_row. simpl.
  rewrite sum_upto_zero by (intros d; lra). lra.
Qed.

Lemma trained_style (oh : tensor2 R) (k : nat) : style_row (trained_decoder self0) oh k = 0.
Proof.
  unfold style_row, Linear.apply_row. simpl.
  apply sum_upto_zero. intros d. lra.
Qed.

(** The output head sums the two coordinates of its input. *)
Lemma trained_head (x : nat -> R) (j : nat) :
  Linear.apply_row (vertex_map (trained_decoder self0)) x j = x 0%nat + x 1%nat.
Proof.
  destruct trained_shapes as (p & _ & _ & _ & _ & _ & _ & _ & _ & _ & VI & _).
  unfold Linear.apply_row. rewrite VI. simpl. unfold Linear.sum_upto. simpl. lra.
Qed.

End TrainedDemo.

(** C1.  The teacher-forced pass and the stepping loop fed with the
    ground truth do not agree.  At position 0 [_teacher_forced_step]
    feeds [vertice_map(template - template) + style], which is the bias of
    the frame embedder plus the style, where [_autoregressive_step] feeds
    the style embedding alone.  With the demo decoder carrying
    [Demo.trained_parameters] (bias one) and a causal attention stack, the
    first frame of the teacher-forced pass and the frame predicted in the
    first step of the ground-truth-fed loop differ by two, far above any
    floating-point tolerance. *)
Lemma forced_and_stepping_differ :
  exists self0 sf ss forced stepped,
    FaceFormerDecoder_init Demo.config Demo.zero_parameters = Ok self0
    /\ causal_attention Demo.pass_through
    /\ FaceFormer_teacher_forced_step Demo.pass_through
         (trained_decoder self0) (stepping_sample 1 1)
       = Ok sf
    /\ for_range 1
         (ground_truth_fed_step Demo.pass_through
            (trained_decoder self0))
         (stepping_sample 1 1)
       = Ok ss
    /\ predicted_vertices sf = Some forced
    /\ predicted_vertices ss = Some stepped
    /\ (at3 forced 0 0 0 - at3 stepped 0 0 0 = 2)%R
    /\ (1 / 100000 < Rabs (at3 forced 0 0 0 - at3 stepped 0 0 0))%R.
Proof.
  destruct (demo_init Demo.zero_parameters) as (self0 & Hinit).
  pose proof (@trained_well_formed self0 Hinit) as Hwf.
  pose proof (@trained_shapes self0 Hinit) as Hshape.
  destruct (demo_decoder Hinit) as (_ & _ & Hmask & Hrows).
  set (self := trained_decoder self0) in *.
  set (h := T3 1 1 2 (fun _ _ _ => 0%R)).
  set (oh := T2 1 1 (fun _ _ => 1%R)).
  set (tmpl := T2 1 3 (fun (_ c : nat) => INR c)).
  set (gt := T3 1 1 3 (fun (_ r c : nat) => INR (r + c))).
  assert (Hm : dim1 (biased_mask self) = 2) by exact Hmask.
  assert (Hr : PE_rows (PE self) = 625) by exact Hrows.
  destruct (@teacher_forced_ok Demo.pass_through self 2 3 1 Hwf Hshape
              (stepping_sample 1 1) h oh tmpl gt 1
              eq_refl eq_refl eq_refl eq_refl eq_refl eq_refl eq_refl eq_refl eq_refl
              eq_refl eq_refl eq_refl eq_refl)
    as (vinf & outf & mmf & Hf & _ & _ & _ & Vfv & _ & _ & _ & _ & Ofv);
    [lia | lia | lia |].
  assert (Hfed : fed_state self 2 h oh tmpl gt 0 (stepping_sample 1 1)).
  { unfold fed_state. repeat split. left. reflexivity. }
  destruct (@ground_truth_fed_step_ok Demo.pass_through self 2 3 1 Hwf Hshape
              h oh tmpl gt 1
              eq_refl eq_refl eq_refl eq_refl eq_refl eq_refl eq_refl eq_refl eq_refl
              (stepping_sample 1 1) 0 Hfed)
    as (ss & vins & outs & mms & Hss & _ & Hp & _ & _ & _ & Vsv & _ & _ & _ & _ & Osv);
    [lia | lia | lia |].
  assert (Hdiff : (at3 outf 0 0 0 - at3 outs 0 0 0 = 2)%R).
  { rewrite Ofv, Osv. unfold self. rewrite !(@trained_head self0 Hinit).
    unfold Demo.pass_through. fold self.
    rewrite !Vfv, !Vsv by lia.
    unfold forced_row, stepping_row, embedded_frame. simpl.
    unfold self. rewrite !(@trained_embedding self0), !(@trained_style self0). lra. }
  exists self0, (set_predicted_vertices (stepping_sample 1 1) outf), ss, outf, outs.
  split; [exact Hinit|]. split; [exact pass_through_causal|].
  split; [exact Hf|]. split.
  - rewrite for_range_1. exact Hss.
  - split; [reflexivity|]. split; [exact Hp|]. split; [exact Hdiff|].
    rewrite Hdiff. rewrite Rabs_right; lra.
Qed.

(** ** Worked values *)

Section WorkedSlopes.

Import BiasMask.
Local Open Scope R_scope.

Lemma log2_pow2 (k : nat) : log2 (2 ^ k) = INR k.
Proof.
  unfold log2. rewrite pow_INR. simpl INR.
  replace (1 + 1) with 2 by lra.
  rewrite ln_pow by lra.
  pose proof ln_2_pos. field. lra.
Qed.

(** [2**(-2**-(log2(n)-3))] is [2**(-8/n)]: a half for eight heads. *)
Example slope_start_8 : slope_start 8 = / 2.
Proof.
  unfold slope_start. change 8%nat with (2 ^ 3)%nat. rewrite log2_pow2.
  simpl INR. replace (- (1 + 1 + 1 - 3)) with 0 by lra.
  rewrite Rpower_O by lra. rewrite Rpower_Ropp, Rpower_1 by lra. reflexivity.
Qed.

(** Eight heads get the slopes 1/2, 1/4, ..., 1/256. *)
Example get_slopes_8 :
  get_slopes 8 =
  Ok [/ 2 * (/ 2) ^ 0; / 2 * (/ 2) ^ 1; / 2 * (/ 2) ^ 2; / 2 * (/ 2) ^ 3;
      / 2 * (/ 2) ^ 4; / 2 * (/ 2) ^ 5; / 2 * (/ 2) ^ 6; / 2 * (/ 2) ^ 7].
Proof.
  change 8%nat with (2 ^ 3)%nat. rewrite get_slopes_pow2.
  unfold get_slopes_power_of_2. change (2 ^ 3)%nat with 8%nat.
  cbv [Nat.eqb seq map Nat.add]. rewrite slope_start_8. reflexivity.
Qed.

(** Three heads: the two slopes of two heads, then the first of the
    even-indexed slopes of four heads; the sequence is not monotone. *)
Example get_slopes_3 :
  get_slopes 3 =
  Ok [slope_start 2 * slope_start 2 ^ 0; slope_start 2 * slope_start 2 ^ 1;
      slope_start 4 * slope_start 4 ^ 0].
Proof.
  rewrite get_slopes_eq.
  change (3 =? 0)%nat with false. change (log2_is_integer 3) with false.
  change (2 ^ Nat.log2 3)%nat with 2%nat. change (2 * 2)%nat with (2 ^ 2)%nat.
  rewrite get_slopes_pow2. reflexivity.
Qed.

End WorkedSlopes.

(** ** The monotonic encoder *)

Section MonotonicFacts.

Import PositionalEncoding.

(** The table is registered with shape [(max_len, 1, d_model)] and sliced
    along its middle axis, so the table axis meets the batch axis of the
    input: in sum mode one sequence comes back as [max_len] sequences. *)
Lemma monotonic_add_batch_axis (d_model max_len : nat) (o : string) (self : t)
  (x : tensor3 R) :
  init d_model max_len o = Ok self ->
  PE.op_is_add o = true ->
  dim0 x = 1 -> 1 <= dim1 x -> dim2 x = d_model ->
  exists y, forward self x = Ok y
            /\ dim0 y = max_len /\ dim1 y = dim1 x /\ dim2 y = d_model.
Proof.
  intros Hinit Hop X0 X1 X2.
  apply monotonic_init_inv in Hinit. destruct Hinit as (Ho & P0 & P1 & P2).
  unfold forward, PE.combine. rewrite Ho, Hop.
  erewrite (@broadcast3_ok _ _ _ Rplus x _ max_len (dim1 x) d_model).
  - eexists. split; [reflexivity|]. simpl. repeat split.
  - simpl. rewrite X0, P0. apply bdim_1_l.
  - simpl. rewrite P1. replace (Nat.min (dim1 x) 1) with 1 by lia. apply bdim_1_r.
  - simpl. rewrite X2, P2. apply bdim_refl.
Qed.

(** In concatenation mode it refuses every batch that does not have
    exactly [max_len] sequences. *)
Lemma monotonic_concat_rejects (d_model max_len : nat) (o : string) (self : t)
  (x : tensor3 R) :
  init d_model max_len o = Ok self ->
  PE.op_is_add o = false -> PE.op_is_concat o = true ->
  dim0 x <> max_len ->
  forward self x = Err RuntimeError.
Proof.
  intros Hinit Hadd Hcat X0.
  apply monotonic_init_inv in Hinit. destruct Hinit as (Ho & P0 & _).
  unfold forward, PE.combine. rewrite Ho, Hadd, Hcat.
  unfold cat2. simpl. rewrite P0, Nat.add_0_r.
  destruct (Nat.eqb_spec (dim0 x) max_len); [contradiction | reflexivity].
Qed.

End MonotonicFacts.

(** ** The alignment mask for the two datasets *)

Section AlignmentDatasets.

Import Alignment.

(** State of the mask after the first [k] rounds of the "BIWI" loop. *)
Lemma biwi_loop (T S k : nat) :
  k <= Nat.min T S ->
  exists m, for_range k (fun m i => setslice2 m i (i * 2) (i * 2 + 2) 0%R) (ones T S)
            = Ok m
            /\ nrows m = T /\ ncols m = S
            /\ forall r c, at2 m r c = if (r <? k) && (c / 2 =? r) then 0%R else 1%R.
Proof.
  induction k as [|k IH]; intros Hk.
  - exists (ones T S). repeat split; reflexivity.
  - destruct IH as (m & Hm & Hr & Hc & Hat); [lia|].
    rewrite for_range_S, Hm. simpl bind. unfold setslice2. rewrite Hr.
    assert (Hlt : (k <? T) = true) by (apply Nat.ltb_lt; lia).
    rewrite Hlt. eexists. split; [reflexivity|].
    cbn [nrows ncols at2]. repeat split; try assumption.
    intros r c. rewrite Hat.
    assert (Hdiv : (c / 2 =? k) = (k * 2 <=? c) && (c <? k * 2 + 2)).
    { pose proof (Nat.div_mod_eq c 2).
      pose proof (Nat.mod_upper_bound c 2 ltac:(lia)).
      destruct (Nat.eqb_spec (c / 2) k), (Nat.leb_spec (k * 2) c),
        (Nat.ltb_spec c (k * 2 + 2)); simpl; try reflexivity; lia. }
    destruct (Nat.eqb_spec r k) as [->|Hrk].
    + rewrite <- andb_assoc, <- Hdiv. simpl.
      destruct (Nat.ltb_spec k k); [lia|].
      destruct (Nat.ltb_spec k (Datatypes.S k)); [|lia].
      simpl. destruct (c / 2 =? k); reflexivity.
    + simpl.
      destruct (Nat.ltb_spec r k), (Nat.ltb_spec r (Datatypes.S k));
        try reflexivity; lia.
Qed.

(** Closed form of the "BIWI" mask. *)
Lemma enc_dec_mask_biwi (T S : nat) :
  exists m, enc_dec_mask T S "BIWI" = Ok m
            /\ nrows m = T /\ ncols m = S
            /\ forall i j, at2 m i j = negb ((i <? Nat.min T S) && (j / 2 =? i)).
Proof.
  destruct (@biwi_loop T S (Nat.min T S)) as (m & Hm & Hr & Hc & Hat); [lia|].
  unfold enc_dec_mask. simpl String.eqb. cbv iota.
  rewrite Hm. cbn [bind]. eexists. split; [reflexivity|]. cbn [nrows ncols at2].
  repeat split; try assumption.
  intros i j. rewrite Hat.
  destruct ((i <? Nat.min T S) && (j / 2 =? i)); cbn [negb].
  - apply Reqb_neq. lra.
  - apply Reqb_refl.
Qed.

(** X1. With [dataset = "BIWI"] the alignment mask has shape [(T, S)] and
    lets target frame [i] read exactly the source positions [2 i] and
    [2 i + 1], as far as they exist: inside the mask, [(i, j)] is permitted
    exactly when [j // 2 = i].  The column slice is clamped, so no pair of
    lengths raises. *)
Theorem enc_dec_mask_biwi_two_per_frame (T S : nat) :
  exists m, enc_dec_mask T S "BIWI" = Ok m
            /\ nrows m = T /\ ncols m = S
            /\ (forall i j, i < T -> j < S -> (permits m i j <-> j / 2 = i))
            /\ (forall i j, i < T -> j < S -> j / 2 <> i -> forbids m i j).
Proof.
  destruct (enc_dec_mask_biwi T S) as (m & Hm & Hr & Hc & Hat).
  exists m. repeat split; try assumption.
  - unfold permits. rewrite Hat.
    destruct (Nat.eqb_spec (j / 2) i); [intros _; assumption|].
    rewrite andb_false_r. discriminate.
  - intros E. unfold permits. rewrite Hat.
    pose proof (Nat.div_mod_eq j 2).
    destruct (Nat.ltb_spec i (Nat.min T S)); [|lia].
    destruct (Nat.eqb_spec (j / 2) i); [reflexivity | contradiction].
  - intros i j Hi Hj Hij. unfold forbids. rewrite Hat.
    destruct (Nat.eqb_spec (j / 2) i); [contradiction|].
    rewrite andb_false_r. reflexivity.
Qed.

(** X2. [enc_dec_mask] knows two dataset names.  For "BIWI" and "vocaset"
    it returns a mask of shape [(T, S)] for every pair of lengths, zero
    included; every other name, whatever the lengths, raises
    [NotImplementedError]. *)
Theorem enc_dec_mask_known_datasets (T S : nat) (dataset : string) :
  (dataset = "BIWI"%string \/ dataset = "vocaset"%string ->
   exists m, enc_dec_mask T S dataset = Ok m /\ nrows m = T /\ ncols m = S)
  /\ (dataset <> "BIWI"%string -> dataset <> "vocaset"%string ->
      enc_dec_mask T S dataset = Err NotImplementedError).
Proof.
  split.
  - intros [-> | ->].
    + destruct (enc_dec_mask_biwi T S) as (m & Hm & Hr & Hc & _).
      exists m. repeat split; assumption.
    + destruct (enc_dec_mask_vocaset T S) as (m & Hm & Hr & Hc & _).
      exists m. repeat split; assumption.
  - intros Hb Hv. unfold enc_dec_mask.
    destruct (String.eqb_spec dataset "BIWI"); [contradiction|].
    destruct (String.eqb_spec dataset "vocaset"); [contradiction|].
    reflexivity.
Qed.

(** X3. Under either dataset a source position is readable from at most
    one target frame: two rows of the mask never permit the same column. *)
Theorem enc_dec_mask_one_reader (T S : nat) (dataset : string) (m : tensor2 bool) :
  enc_dec_mask T S dataset = Ok m ->
  forall i i' j, i < T -> i' < T -> j < S ->
                 permits m i j -> permits m i' j -> i = i'.
Proof.
  intros Hm i i' j Hi Hi' Hj.
  destruct (String.eqb_spec dataset "BIWI") as [->|Hb].
  - destruct (enc_dec_mask_biwi T S) as (m' & Hm' & _ & _ & Hat).
    rewrite Hm in Hm'. injection Hm' as <-.
    unfold permits. rewrite !Hat. intros H1 H2.
    apply negb_false_iff, andb_true_iff in H1, H2.
    destruct H1 as [_ H1], H2 as [_ H2].
    apply Nat.eqb_eq in H1, H2. congruence.
  - destruct (String.eqb_spec dataset "vocaset") as [->|Hv].
    + destruct (enc_dec_mask_vocaset T S) as (m' & Hm' & _ & _ & Hat).
      unfold default_dataset in Hm'.
      rewrite Hm in Hm'. injection Hm' as <-.
      unfold permits. rewrite !Hat. intros H1 H2.
      apply negb_false_iff, andb_true_iff in H1, H2.
      destruct H1 as [H1 _], H2 as [H2 _].
      apply Nat.eqb_eq in H1, H2. congruence.
    + exfalso. unfold enc_dec_mask in Hm.
      destruct (String.eqb_spec dataset "BIWI"); [contradiction|].
      destruct (String.eqb_spec dataset "vocaset"); [contradiction|].
      discriminate Hm.
Qed.

Lemma enc_dec_mask_one_reader_witness :
  exists m, enc_dec_mask 2 4 "BIWI" = Ok m
            /\ forall i i' j, i < 2 -> i' < 2 -> j < 4 ->
                              permits m i j -> permits m i' j -> i = i'.
Proof.
  destruct (enc_dec_mask_biwi 2 4) as (m & Hm & _).
  exists m. split; [exact Hm|].
  exact (@enc_dec_mask_one_reader 2 4 "BIWI" m Hm).
Defined.

End AlignmentDatasets.

(** ** Range of the slopes and sign of the temporal bias *)

Section BiasRange.

Import BiasMask.
Local Open Scope R_scope.

Lemma pow_unit (a : R) (i : nat) : 0 < a -> a < 1 -> 0 < a ^ i <= 1.
Proof.
  intros H0 H1. induction i as [|i IH]; simpl; [lra | nra].
Qed.

Lemma geometric_slope_range (n i : nat) :
  0 < slope_start n * slope_start n ^ i < 1.
Proof.
  pose proof (slope_start_pos n) as H0.
  pose proof (slope_start_lt_1 n) as H1.
  pose proof (pow_unit i H0 H1). nra.
Qed.

(** Every slope lies strictly between zero and one. *)
Lemma get_slopes_range (n : nat) :
  (0 < n)%nat ->
  exists l, get_slopes n = Ok l /\ List.length l = n
            /\ forall i, (i < n)%nat -> 0 < nth i l 0 < 1.
Proof.
  intros Hn.
  destruct (Nat.eq_dec (2 ^ Nat.log2 n) n) as [E|E].
  - rewrite <- E, get_slopes_pow2.
    destruct (@get_slopes_power_of_2_spec (2 ^ Nat.log2 n)) as (l & Hl & Hlen & Hnth);
      [apply pow2_nonzero|].
    exists l. repeat split; try assumption;
      rewrite Hnth by assumption; apply geometric_slope_range.
  - assert (Hnp : forall k, n <> (2 ^ k)%nat).
    { intros k Hk. apply E. rewrite Hk at 1. rewrite Nat.log2_pow2 by lia.
      symmetry. exact Hk. }
    destruct (get_slopes_interleaved Hn Hnp) as (l_p & l_2p & Hp & Hlp & H2 & Hl2 & Hl).
    destruct (between_powers Hn Hnp) as (Hlo & Hhi & _).
    destruct (get_slopes_length Hn) as (l & Hl' & Hlen).
    assert (El : l = l_p ++ firstn (n - 2 ^ Nat.log2 n) (evens l_2p)) by congruence.
    rewrite get_slopes_pow2 in Hp.
    change (2 * 2 ^ Nat.log2 n)%nat with (2 ^ S (Nat.log2 n))%nat in H2.
    rewrite get_slopes_pow2 in H2.
    destruct (@get_slopes_power_of_2_spec (2 ^ Nat.log2 n)) as (a & Ha & _ & Hnth);
      [apply pow2_nonzero|].
    destruct (@get_slopes_power_of_2_spec (2 ^ S (Nat.log2 n))) as (b & Hb & _ & Hnth2);
      [apply pow2_nonzero|].
    assert (a = l_p) by congruence. assert (b = l_2p) by congruence. subst a b.
    exists l. split; [exact Hl'|]. split; [exact Hlen|].
    intros i Hi.
    destruct (Nat.lt_ge_cases i (2 ^ Nat.log2 n)) as [Hlt|Hge].
    + rewrite El, app_nth1 by lia. rewrite Hnth by assumption.
      split; apply geometric_slope_range.
    + rewrite El, app_nth2 by lia. rewrite Hlp, nth_firstn.
      destruct (Nat.ltb_spec (i - 2 ^ Nat.log2 n) (n - 2 ^ Nat.log2 n)); [|lia].
      rewrite nth_evens, Hnth2 by (rewrite Nat.pow_succ_r'; lia).
      split; apply geometric_slope_range.
Qed.

(** X4. [get_slopes(n)] raises [ValueError] for [n = 0] (the logarithm of
    zero); for every [n >= 1], a power of two or not, it returns exactly
    [n] slopes, each strictly between 0 and 1. *)
Theorem get_slopes_unit_interval :
  get_slopes 0 = Err ValueError
  /\ forall n, (0 < n)%nat ->
       exists l, get_slopes n = Ok l /\ List.length l = n
                 /\ forall i, (i < n)%nat -> 0 < nth i l 0 < 1.
Proof.
  split.
  - rewrite get_slopes_eq. reflexivity.
  - intros n Hn.
    destruct (get_slopes_range Hn) as (l & Hl & Hlen & Hrange).
    exists l. split; [exact Hl|]. split; [exact Hlen|].
    intros i Hi. exact (Hrange i Hi).
Qed.

(** X5. What makes [init_biased_mask] fail: no head ([n_head = 0]) raises
    [ValueError] in [get_slopes]; with at least one head, [period = 0]
    raises [RuntimeError] in [torch.arange]; in every other case, for every
    [max_seq_len], zero included, the mask is built, with shape
    [(n_head, max_seq_len, max_seq_len)]. *)
Theorem init_biased_mask_failures (n_head max_seq_len period : nat) :
  (n_head = 0%nat ->
   init_biased_mask n_head max_seq_len period = Err ValueError)
  /\ ((0 < n_head)%nat -> period = 0%nat ->
      init_biased_mask n_head max_seq_len period = Err RuntimeError)
  /\ ((0 < n_head)%nat -> (0 < period)%nat ->
      exists mask, init_biased_mask n_head max_seq_len period = Ok mask
                   /\ dim0 mask = n_head /\ dim1 mask = max_seq_len
                   /\ dim2 mask = max_seq_len).
Proof.
  repeat split.
  - intros ->. unfold init_biased_mask. rewrite get_slopes_eq. reflexivity.
  - intros Hn ->. unfold init_biased_mask.
    destruct (get_slopes_length Hn) as (l & Hl & _). rewrite Hl. reflexivity.
  - intros Hn Hp.
    destruct (@init_biased_mask_closed_form n_head max_seq_len period Hn Hp)
      as (_ & mask & _ & _ & Hm & H0 & H1 & H2 & _).
    exists mask. repeat split; assumption.
Qed.

(** X6. Sign of the temporal bias.  On and below the diagonal every entry
    of the mask is a finite number that is never positive; it is exactly
    zero for the current frame and the [period - 1] frames before it
    ([i - j < period]) and strictly negative further back; and along a row
    it never decreases towards the diagonal. *)
Theorem init_biased_mask_penalty_sign (n_head max_seq_len period : nat) :
  (0 < n_head)%nat -> (0 < period)%nat ->
  exists mask,
    init_biased_mask n_head max_seq_len period = Ok mask
    /\ forall h i j, (h < n_head)%nat -> (j <= i)%nat -> (i < max_seq_len)%nat ->
         exists v, at3 mask h i j = Fin v
                   /\ v <= 0
                   /\ (v = 0 <-> (i - j < period)%nat)
                   /\ forall j', (j <= j')%nat -> (j' <= i)%nat ->
                        exists v', at3 mask h i j' = Fin v' /\ v <= v'.
Proof.
  intros Hn Hp.
  destruct (@init_biased_mask_closed_form n_head max_seq_len period Hn Hp)
    as (slopes & mask & Hs & _ & Hm & _ & _ & _ & Hat).
  destruct (get_slopes_range Hn) as (l & Hl & _ & Hrange).
  assert (l = slopes) by congruence. subst l.
  exists mask. split; [exact Hm|].
  intros h i j Hh Hji Hi.
  pose proof (Hrange h Hh) as [Hpos Hlt1].
  assert (Hentry : forall c, (c <= i)%nat ->
            at3 mask h i c
            = Fin (- (nth h slopes 0 * INR ((i - c) / period)))).
  { intros c Hc. rewrite Hat by lia.
    destruct (Nat.leb_spec c i); [|lia].
    f_equal. rewrite opp_IZR, <- INR_IZR_INZ. lra. }
  eexists. split; [apply Hentry; exact Hji|].
  pose proof (pos_INR ((i - j) / period)) as Hq.
  split; [nra|]. split; [split|].
  - intros Hv.
    assert (Hz : INR ((i - j) / period) = 0) by nra.
    change 0 with (INR 0) in Hz.
    apply INR_eq in Hz. apply Nat.div_small_iff in Hz; lia.
  - intros Hsmall. rewrite Nat.div_small by exact Hsmall. simpl INR. lra.
  - intros j' Hjj' Hj'i. eexists. split; [apply Hentry; exact Hj'i|].
    assert (Hle : ((i - j') / period <= (i - j) / period)%nat)
      by (apply Nat.Div0.div_le_mono; lia).
    apply le_INR in Hle. nra.
Qed.

Lemma init_biased_mask_penalty_sign_witness :
  exists mask,
    init_biased_mask 3 7 2 = Ok mask
    /\ forall h i j, (h < 3)%nat -> (j <= i)%nat -> (i < 7)%nat ->
         exists v, at3 mask h i j = Fin v
                   /\ v <= 0
                   /\ (v = 0 <-> (i - j < 2)%nat)
                   /\ forall j', (j <= j')%nat -> (j' <= i)%nat ->
                        exists v', at3 mask h i j' = Fin v' /\ v <= v'.
Proof.
  apply (@init_biased_mask_penalty_sign 3 7 2); lia.
Defined.

End BiasRange.

(** ** The sinusoids written by the two encoders *)

Section Sinusoids.

Local Open Scope R_scope.

Lemma div_term_inv (d_model : nat) (dt : tensor1 R) :
  PE.div_term d_model = Ok dt ->
  d_model <> 0%nat
  /\ len1 dt = ((d_model + 1) / 2)%nat
  /\ forall k, at1 dt k = exp (INR (2 * k) * (- ln 10000 / INR d_model)).
Proof.
  unfold PE.div_term. destruct (Nat.eqb_spec d_model 0); [discriminate|].
  intros H. injection H as <-. repeat split. assumption.
Qed.

Lemma outer_inv (n : nat) (dt : tensor1 R) (ang : tensor2 R) :
  broadcast2 Rmult (PE.position n) (as_row dt) = Ok ang ->
  nrows ang = n /\ ncols ang = len1 dt
  /\ forall r k, (r < n)%nat -> (k < len1 dt)%nat -> at2 ang r k = INR r * at1 dt k.
Proof.
  destruct (outer_ok n dt) as (ang' & H & Hr & Hc).
  intros H'. assert (ang' = ang) by congruence. subst ang'.
  repeat split; try assumption.
  intros r k Hrn Hk. unfold broadcast2 in H.
  cbn [nrows ncols PE.position as_row] in H.
  rewrite bdim_1_r, bdim_1_l in H. injection H as <-.
  cbn [at2 PE.position as_row].
  rewrite (bidx_lt Hrn), (bidx_lt Hk). reflexivity.
Qed.

Lemma half_even (k : nat) : ((2 * k - 0) / 2 = k)%nat.
Proof.
  rewrite Nat.sub_0_r, Nat.mul_comm. apply Nat.div_mul. discriminate.
Qed.

Lemma half_odd (k : nat) : ((2 * k + 1 - 1) / 2 = k)%nat.
Proof.
  rewrite Nat.add_sub, Nat.mul_comm. apply Nat.div_mul. discriminate.
Qed.

Lemma strided_0_even (k : nat) : PE.strided 0 (2 * k) = true.
Proof.
  unfold PE.strided. rewrite Nat.sub_0_r, Nat.mul_comm, Nat.Div0.mod_mul.
  reflexivity.
Qed.

Lemma strided_1_even (k : nat) : PE.strided 1 (2 * k) = false.
Proof.
  unfold PE.strided. destruct k as [|k]; [reflexivity|].
  replace (2 * S k - 1)%nat with (1 + k * 2)%nat by lia.
  rewrite Nat.Div0.mod_add. rewrite andb_false_r. reflexivity.
Qed.

Lemma strided_1_odd (k : nat) : PE.strided 1 (2 * k + 1) = true.
Proof.
  unfold PE.strided. rewrite Nat.add_sub, Nat.mul_comm, Nat.Div0.mod_mul.
  destruct (Nat.leb_spec 1 (k * 2 + 1)); [reflexivity | lia].
Qed.

Lemma half_lt (k d : nat) : (2 * k < d)%nat -> (k < (d + 1) / 2)%nat.
Proof.
  intros H.
  pose proof (Nat.div_mod_eq (d + 1) 2).
  pose proof (Nat.mod_upper_bound (d + 1) 2 ltac:(discriminate)). lia.
Qed.

(** The two strided assignments of the periodic constructor: even columns
    hold sines, odd columns cosines, of [position * div_term]. *)
Lemma sinusoid_cols (n d : nat) (dt : tensor1 R) (ang dst pe1 pe2 : tensor2 R) :
  PE.div_term d = Ok dt ->
  broadcast2 Rmult (PE.position n) (as_row dt) = Ok ang ->
  PE.set_cols_strided 0 dst (map2 sin ang) = Ok pe1 ->
  PE.set_cols_strided 1 pe1 (map2 cos ang) = Ok pe2 ->
  forall r k, (r < n)%nat ->
    ((2 * k < d)%nat ->
     at2 pe2 r (2 * k) = sin (INR r * exp (INR (2 * k) * (- ln 10000 / INR d))))
    /\ ((2 * k + 1 < d)%nat ->
        at2 pe2 r (2 * k + 1)
        = cos (INR r * exp (INR (2 * k) * (- ln 10000 / INR d)))).
Proof.
  intros Hdt Hang H1 H2 r k Hr.
  destruct (@div_term_inv _ _ Hdt) as (_ & Hlen & Hw).
  destruct (@outer_inv _ _ _ Hang) as (Ar & Ac & Aat).
  unfold PE.set_cols_strided in H1, H2.
  destruct (PE.fits _ _ && PE.fits _ _); [|discriminate H1].
  injection H1 as <-.
  destruct (PE.fits _ _ && PE.fits _ _); [|discriminate H2].
  injection H2 as <-.
  cbn [at2 nrows ncols map2]. rewrite Ar, Ac.
  split; intros Hk.
  - rewrite strided_1_even, strided_0_even.
    change (fst (Nat.divmod (2 * k - 0) 1 0 1)) with ((2 * k - 0) / 2)%nat.
    rewrite half_even.
    assert (Hk' : (k < len1 dt)%nat) by (rewrite Hlen; apply half_lt; exact Hk).
    rewrite (bidx_lt Hr), (bidx_lt Hk'), Aat, Hw by assumption. reflexivity.
  - rewrite strided_1_odd.
    change (fst (Nat.divmod (2 * k + 1 - 1) 1 0 1)) with ((2 * k + 1 - 1) / 2)%nat.
    rewrite half_odd.
    assert (Hk' : (k < len1 dt)%nat) by (rewrite Hlen; apply half_lt; lia).
    rewrite (bidx_lt Hr), (bidx_lt Hk'), Aat, Hw by assumption. reflexivity.
Qed.

(** The same for the assignments [pe[:, 0, 0::2]] and [pe[:, 0, 1::2]] of
    the monotonic constructor. *)
Lemma sinusoid_mid0_cols (n d : nat) (dt : tensor1 R) (ang : tensor2 R)
  (dst pe1 pe2 : tensor3 R) :
  PE.div_term d = Ok dt ->
  broadcast2 Rmult (PE.position n) (as_row dt) = Ok ang ->
  PE.set_mid0_cols_strided 0 dst (map2 sin ang) = Ok pe1 ->
  PE.set_mid0_cols_strided 1 pe1 (map2 cos ang) = Ok pe2 ->
  forall r k, (r < n)%nat ->
    ((2 * k < d)%nat ->
     at3 pe2 r 0 (2 * k) = sin (INR r * exp (INR (2 * k) * (- ln 10000 / INR d))))
    /\ ((2 * k + 1 < d)%nat ->
        at3 pe2 r 0 (2 * k + 1)
        = cos (INR r * exp (INR (2 * k) * (- ln 10000 / INR d)))).
Proof.
  intros Hdt Hang H1 H2 r k Hr.
  destruct (@div_term_inv _ _ Hdt) as (_ & Hlen & Hw).
  destruct (@outer_inv _ _ _ Hang) as (Ar & Ac & Aat).
  unfold PE.set_mid0_cols_strided in H1, H2.
  destruct (dim1 dst =? 0)%nat; [discriminate H1|].
  destruct (PE.fits _ _ && PE.fits _ _); [|discriminate H1].
  injection H1 as <-.
  cbn [dim0 dim1 dim2] in H2.
  destruct (dim1 dst =? 0)%nat; [discriminate H2|].
  destruct (PE.fits _ _ && PE.fits _ _); [|discriminate H2].
  injection H2 as <-.
  cbn [at3 nrows ncols at2 map2]. rewrite Ar, Ac. cbn [Nat.eqb andb].
  split; intros Hk.
  - rewrite strided_1_even, strided_0_even.
    change (fst (Nat.divmod (2 * k - 0) 1 0 1)) with ((2 * k - 0) / 2)%nat.
    rewrite half_even.
    assert (Hk' : (k < len1 dt)%nat) by (rewrite Hlen; apply half_lt; exact Hk).
    rewrite (bidx_lt Hr), (bidx_lt Hk'), Aat, Hw by assumption. reflexivity.
  - rewrite strided_1_odd.
    change (fst (Nat.divmod (2 * k + 1 - 1) 1 0 1)) with ((2 * k + 1 - 1) / 2)%nat.
    rewrite half_odd.
    assert (Hk' : (k < len1 dt)%nat) by (rewrite Hlen; apply half_lt; lia).
    rewrite (bidx_lt Hr), (bidx_lt Hk'), Aat, Hw by assumption. reflexivity.
Qed.

(** For an odd width of three or more the cosine columns are one fewer
    than the columns of [div_term]. *)
Lemma odd_width_misfit (d : nat) :
  Nat.odd d = true -> (3 <= d)%nat ->
  PE.fits ((d + 1) / 2) (PE.strided_count 1 d) = false.
Proof.
  intros Ho Hd. apply Nat.odd_spec in Ho. destruct Ho as [m ->].
  unfold PE.fits, PE.strided_count.
  replace ((2 * m + 1 + 1) / 2)%nat with (m + 1)%nat
    by (replace (2 * m + 1 + 1)%nat with ((m + 1) * 2)%nat by lia;
        rewrite Nat.div_mul by discriminate; reflexivity).
  replace ((2 * m + 1 - 1 + 1) / 2)%nat with m
    by (replace (2 * m + 1 - 1 + 1)%nat with (1 + m * 2)%nat by lia;
        rewrite Nat.div_add by discriminate; reflexivity).
  destruct (Nat.eqb_spec (m + 1) m); [lia|].
  destruct (Nat.eqb_spec (m + 1) 1); [lia | reflexivity].
Qed.

Lemma even_width_fit (d : nat) :
  (0 < d)%nat -> Nat.even d = true ->
  PE.fits ((d + 1) / 2) (PE.strided_count 1 d) = true.
Proof.
  intros Hd He. apply Nat.even_spec in He. destruct He as [m ->].
  unfold PE.strided_count.
  replace ((2 * m + 1) / 2)%nat with m
    by (rewrite Nat.add_comm, Nat.mul_comm, Nat.div_add by lia; reflexivity).
  replace ((2 * m - 1 + 1) / 2)%nat with m
    by (replace (2 * m - 1 + 1)%nat with (0 + m * 2)%nat by lia;
        rewrite Nat.div_add by lia; reflexivity).
  apply fits_refl.
Qed.

End Sinusoids.

(** ** The periodic encoder: construction, table and [forward] *)

Section PeriodicEncoder.

Import PeriodicPositionalEncoding.

Lemma op_concat_not_add (o : string) :
  PE.op_is_concat o = true -> PE.op_is_add o = false.
Proof.
  unfold PE.op_is_concat, PE.op_is_add. cbn [existsb].
  rewrite !orb_false_r. intros H.
  apply orb_true_iff in H. destruct H as [H|H];
    [|apply orb_true_iff in H; destruct H as [H|H]];
    apply String.eqb_eq in H; subst o; reflexivity.
Qed.

(** Entries of the registered buffer after a successful construction. *)
Lemma periodic_init_values (d_model period max_seq_len : nat) (o : string) (self : t) :
  init d_model period max_seq_len o = Ok self ->
  forall b t k,
    (2 * k < d_model ->
     at3 (pe self) b t (2 * k)
     = sin (INR (t mod period)
            * exp (INR (2 * k) * (- ln 10000 / INR d_model)))%R)
    /\ (2 * k + 1 < d_model ->
        at3 (pe self) b t (2 * k + 1)
        = cos (INR (t mod period)
               * exp (INR (2 * k) * (- ln 10000 / INR d_model)))%R).
Proof.
  intros H b t k.
  destruct (periodic_init_inv _ _ _ _ H) as (Hp & _).
  unfold init in H.
  bind_named H dt Edt. bind_named H ang Eang.
  bind_named H pe1 E1. bind_named H pe2 E2. bind_named H rn Ern.
  injection H as <-.
  pose proof (set_cols_strided_shape _ _ _ E1) as [R1 C1].
  pose proof (set_cols_strided_shape _ _ _ E2) as [R2 C2].
  cbn [nrows ncols BiasMask.zeros] in R1, C1.
  rewrite R1 in R2. rewrite C1 in C2.
  cbn [pe at3 repeat3 unsqueeze0 dim0 dim1 dim2]. rewrite R2, C2.
  assert (Ht : t mod period < period) by (apply Nat.mod_upper_bound; exact Hp).
  destruct (@sinusoid_cols period d_model dt ang _ pe1 pe2 Edt Eang E1 E2
              (t mod period) k Ht) as [Hs Hc].
  split; intros Hk.
  - rewrite (Nat.mod_small (2 * k) d_model) by exact Hk. auto.
  - rewrite (Nat.mod_small (2 * k + 1) d_model) by exact Hk. auto.
Qed.

(** X7. What the constructor of the periodic encoder accepts.  A zero
    [d_model] raises [ZeroDivisionError]; an odd [d_model] of three or more
    raises [RuntimeError], the cosine columns being one fewer than the
    columns of [div_term]; with a positive even [d_model], a zero [period]
    raises [ZeroDivisionError] and every positive [period] gives an encoder
    whose table has shape [(1, (max_seq_len // period + 1) * period,
    d_model)]: more rows than [max_seq_len].  The value of [op] is stored
    and never checked. *)
Theorem periodic_init_accepts (d_model period max_seq_len : nat) (o : string) :
  (d_model = 0 -> init d_model period max_seq_len o = Err ZeroDivisionError)
  /\ (Nat.odd d_model = true -> 3 <= d_model ->
      init d_model period max_seq_len o = Err RuntimeError)
  /\ (0 < d_model -> Nat.even d_model = true -> period = 0 ->
      init d_model period max_seq_len o = Err ZeroDivisionError)
  /\ (0 < d_model -> Nat.even d_model = true -> 0 < period ->
      exists self, init d_model period max_seq_len o = Ok self
                   /\ op self = o
                   /\ dim0 (pe self) = 1
                   /\ dim1 (pe self) = (max_seq_len / period + 1) * period
                   /\ max_seq_len < dim1 (pe self)
                   /\ dim2 (pe self) = d_model).
Proof.
  split; [|split; [|split]].
  - intros ->. reflexivity.
  - intros Ho Hd. unfold init.
    destruct (@div_term_ok d_model) as (dt & Hdt & Hlen); [lia|].
    rewrite Hdt, bind_Ok. cbv beta.
    destruct (outer_ok period dt) as (ang & Hang & Hr & Hc).
    rewrite Hang, bind_Ok. cbv beta.
    destruct (@set_cols_strided_ok 0 (BiasMask.zeros period d_model) (map2 sin ang))
      as (pe1 & H1 & R1 & C1).
    { cbn [nrows map2 BiasMask.zeros]. rewrite Hr. apply fits_refl. }
    { cbn [ncols map2 BiasMask.zeros]. rewrite Hc, Hlen. unfold PE.strided_count.
      rewrite Nat.sub_0_r. apply fits_refl. }
    rewrite H1, bind_Ok. cbv beta.
    unfold PE.set_cols_strided at 1. cbn [nrows ncols map2].
    rewrite Hc, Hlen, C1. cbn [ncols BiasMask.zeros].
    rewrite (odd_width_misfit Ho Hd), andb_false_r. reflexivity.
  - intros Hd He ->. unfold init.
    destruct (@div_term_ok d_model) as (dt & Hdt & Hlen); [lia|].
    rewrite Hdt, bind_Ok. cbv beta.
    destruct (outer_ok 0 dt) as (ang & Hang & Hr & Hc).
    rewrite Hang, bind_Ok. cbv beta.
    destruct (@set_cols_strided_ok 0 (BiasMask.zeros 0 d_model) (map2 sin ang))
      as (pe1 & H1 & R1 & C1).
    { cbn [nrows map2 BiasMask.zeros]. rewrite Hr. apply fits_refl. }
    { cbn [ncols map2 BiasMask.zeros]. rewrite Hc, Hlen. unfold PE.strided_count.
      rewrite Nat.sub_0_r. apply fits_refl. }
    rewrite H1, bind_Ok. cbv beta.
    destruct (@set_cols_strided_ok 1 pe1 (map2 cos ang)) as (pe2 & H2 & R2 & C2).
    { cbn [nrows map2]. rewrite Hr, R1. apply fits_refl. }
    { cbn [ncols map2]. rewrite Hc, Hlen, C1. cbn [ncols BiasMask.zeros].
      apply even_width_fit; assumption. }
    rewrite H2, bind_Ok. reflexivity.
  - intros Hd He Hp.
    destruct (@periodic_init_total d_model period max_seq_len o Hd He Hp) as (self & H).
    destruct (periodic_init_inv _ _ _ _ H) as (_ & _ & Ho & H0 & H1 & H2 & _).
    exists self. repeat split; try assumption.
    rewrite H1.
    pose proof (Nat.div_mod_eq max_seq_len period).
    pose proof (Nat.mod_upper_bound max_seq_len period ltac:(lia)). nia.
Qed.

(** X8. The table of the periodic encoder in closed form.  Row [t] holds
    the sinusoids of position [t mod period]: column [2 k] is
    [sin(pos * exp(2 k * (-ln 10000 / d_model)))], column [2 k + 1] the
    cosine of the same angle.  So every entry lies in [[-1, 1]], and the
    rows of position zero read 0, 1, 0, 1, ... *)
Theorem periodic_table_sinusoids
  (d_model period max_seq_len : nat) (o : string) (self : t) :
  init d_model period max_seq_len o = Ok self ->
  (forall t k, t < dim1 (pe self) -> 2 * k < d_model ->
     at3 (pe self) 0 t (2 * k)
     = sin (INR (t mod period)
            * exp (INR (2 * k) * (- ln 10000 / INR d_model)))%R)
  /\ (forall t k, t < dim1 (pe self) -> 2 * k + 1 < d_model ->
        at3 (pe self) 0 t (2 * k + 1)
        = cos (INR (t mod period)
               * exp (INR (2 * k) * (- ln 10000 / INR d_model)))%R)
  /\ (forall t c, t < dim1 (pe self) -> c < d_model ->
        (-1 <= at3 (pe self) 0 t c <= 1)%R)
  /\ (forall t c, t < dim1 (pe self) -> t mod period = 0 -> c < d_model ->
        at3 (pe self) 0 t c = if Nat.even c then 0%R else 1%R).
Proof.
  intros H. pose proof (@periodic_init_values _ _ _ _ _ H) as V.
  split; [|split; [|split]].
  - intros t k _ Hk. apply V. exact Hk.
  - intros t k _ Hk. apply V. exact Hk.
  - intros t c _ Hc.
    destruct (Nat.Even_or_Odd c) as [[k ->]|[k ->]].
    + destruct (V 0 t k) as [Hs _]. rewrite Hs by exact Hc. apply SIN_bound.
    + destruct (V 0 t k) as [_ Hs]. rewrite Hs by exact Hc. apply COS_bound.
  - intros t c _ Ht Hc.
    destruct (Nat.Even_or_Odd c) as [[k ->]|[k ->]].
    + destruct (V 0 t k) as [Hs _]. rewrite Hs by exact Hc.
      rewrite Ht. cbn [INR]. rewrite Rmult_0_l, sin_0.
      replace (Nat.even (2 * k)) with true; [reflexivity|].
      symmetry. apply Nat.even_spec. exists k. reflexivity.
    + destruct (V 0 t k) as [_ Hs]. rewrite Hs by exact Hc.
      rewrite Ht. cbn [INR]. rewrite Rmult_0_l, cos_0.
      replace (Nat.even (2 * k + 1)) with false; [reflexivity|].
      symmetry. rewrite <- Nat.negb_odd. apply negb_false_iff.
      apply Nat.odd_spec. exists k. reflexivity.
Qed.

Lemma periodic_table_sinusoids_witness :
  exists self,
    init 4 25 600 "add" = Ok self
    /\ (forall t k, t < dim1 (pe self) -> 2 * k < 4 ->
          at3 (pe self) 0 t (2 * k)
          = sin (INR (t mod 25) * exp (INR (2 * k) * (- ln 10000 / INR 4)))%R)
    /\ (forall t k, t < dim1 (pe self) -> 2 * k + 1 < 4 ->
          at3 (pe self) 0 t (2 * k + 1)
          = cos (INR (t mod 25) * exp (INR (2 * k) * (- ln 10000 / INR 4)))%R)
    /\ (forall t c, t < dim1 (pe self) -> c < 4 ->
          (-1 <= at3 (pe self) 0 t c <= 1)%R)
    /\ (forall t c, t < dim1 (pe self) -> t mod 25 = 0 -> c < 4 ->
          at3 (pe self) 0 t c = if Nat.even c then 0%R else 1%R).
Proof.
  destruct (@periodic_init_total 4 25 600 "add") as [self H];
    [lia | reflexivity | lia |].
  exists self. split; [exact H|].
  exact (@periodic_table_sinusoids 4 25 600 "add" self H).
Defined.

(** X9. Sum mode of the periodic encoder, from construction to [forward]:
    an input of any batch size, of width [d_model] and of a length within
    the table, comes back with its shape, position [t] of every sequence
    having received the code of table row [t mod period]; so positions
    that agree modulo [period] receive the same code. *)
Theorem periodic_add_encodes_modulo_period
  (d_model period max_seq_len : nat) (o : string) (self : t) (x : tensor3 R) :
  init d_model period max_seq_len o = Ok self ->
  PE.op_is_add o = true ->
  dim1 x <= (max_seq_len / period + 1) * period ->
  dim2 x = d_model ->
  exists y,
    forward self x = Ok y
    /\ dim0 y = dim0 x /\ dim1 y = dim1 x /\ dim2 y = d_model
    /\ (forall b t c, b < dim0 x -> t < dim1 x -> c < d_model ->
          at3 y b t c = (at3 x b t c + at3 (pe self) 0 (t mod period) c)%R)
    /\ (forall b t t' c, b < dim0 x -> t < dim1 x -> t' < dim1 x -> c < d_model ->
          t mod period = t' mod period ->
          (at3 y b t c - at3 x b t c = at3 y b t' c - at3 x b t' c)%R).
Proof.
  intros H Hop Hlen Hw.
  destruct (periodic_init_inv _ _ _ _ H)
    as (Hp & Hd & Ho & H0 & H1 & H2 & base & _ & _ & Hat).
  destruct (@periodic_add_shape self x) as (y & Hy & Y0 & Y1 & Y2 & Yat).
  { rewrite Ho. exact Hop. }
  { exact H0. }
  { rewrite H1. exact Hlen. }
  { rewrite H2. exact Hw. }
  assert (Hcode : forall b t c, b < dim0 x -> t < dim1 x -> c < d_model ->
            at3 y b t c = (at3 x b t c + at3 (pe self) 0 (t mod period) c)%R).
  { intros b t c Hb Ht Hc. rewrite Yat by (try assumption; lia).
    rewrite !Hat, Nat.Div0.mod_mod. reflexivity. }
  exists y. split; [exact Hy|]. repeat split; try congruence.
  - exact Hcode.
  - intros b t t' c Hb Ht Ht' Hc E. rewrite !Hcode by assumption.
    rewrite E. lra.
Qed.

Lemma periodic_add_encodes_modulo_period_witness :
  exists self y,
    init 4 25 600 "sum" = Ok self
    /\ forward self (T3 2 30 4 (fun _ _ _ => 0%R)) = Ok y
    /\ dim0 y = 2 /\ dim1 y = 30 /\ dim2 y = 4
    /\ (forall b t c, b < 2 -> t < 30 -> c < 4 ->
          at3 y b t c = (0 + at3 (pe self) 0 (t mod 25) c)%R)
    /\ (forall b t t' c, b < 2 -> t < 30 -> t' < 30 -> c < 4 ->
          t mod 25 = t' mod 25 ->
          (at3 y b t c - 0 = at3 y b t' c - 0)%R).
Proof.
  destruct (@periodic_init_total 4 25 600 "sum") as [self H];
    [lia | reflexivity | lia |].
  destruct (@periodic_add_encodes_modulo_period 4 25 600 "sum" self
              (T3 2 30 4 (fun _ _ _ => 0%R)) H eq_refl)
    as (y & Hy); [vm_compute; lia | reflexivity |].
  exists self, y. split; [exact H|]. exact Hy.
Defined.

(** X10. Sum mode never wraps around the end of the table: an input longer
    than the table (of two or more rows) raises [RuntimeError]. *)
Theorem periodic_add_rejects_overlong
  (d_model period max_seq_len : nat) (o : string) (self : t) (x : tensor3 R) :
  init d_model period max_seq_len o = Ok self ->
  PE.op_is_add o = true ->
  2 <= (max_seq_len / period + 1) * period ->
  (max_seq_len / period + 1) * period < dim1 x ->
  forward self x = Err RuntimeError.
Proof.
  intros H Hop Hrows Hlen.
  destruct (periodic_init_inv _ _ _ _ H) as (_ & _ & Ho & _ & H1 & _).
  unfold forward, PE.combine. rewrite Ho, Hop.
  unfold broadcast3. cbn [dim0 dim1 dim2 slice1]. rewrite H1.
  replace (Nat.min (dim1 x) ((max_seq_len / period + 1) * period))
    with ((max_seq_len / period + 1) * period) by lia.
  assert (Hb : bdim (dim1 x) ((max_seq_len / period + 1) * period) = None).
  { unfold bdim.
    destruct (Nat.eqb_spec (dim1 x) ((max_seq_len / period + 1) * period)); [lia|].
    destruct (Nat.eqb_spec (dim1 x) 1); [lia|].
    destruct (Nat.eqb_spec ((max_seq_len / period + 1) * period) 1); [lia|].
    reflexivity. }
  rewrite Hb. destruct (bdim (dim0 x) _); reflexivity.
Qed.

Lemma periodic_add_rejects_overlong_witness :
  exists self,
    init 4 25 600 "add" = Ok self
    /\ forward self (T3 1 626 4 (fun _ _ _ => 0%R)) = Err RuntimeError.
Proof.
  destruct (@periodic_init_total 4 25 600 "add") as [self H];
    [lia | reflexivity | lia |].
  exists self. split; [exact H|].
  apply (@periodic_add_rejects_overlong 4 25 600 "add" self _ H eq_refl);
    vm_compute; lia.
Defined.

(** X11. An unsupported [op] is found at the first use, not at
    construction: an encoder built with an [op] outside
    [add, sum, concat, cat, concatenate] raises [ValueError] on every call
    of [forward], whatever the input, and of [output_size_factor]. *)
Theorem periodic_unsupported_op_fails_at_use
  (d_model period max_seq_len : nat) (o : string) (self : t) :
  init d_model period max_seq_len o = Ok self ->
  PE.op_is_add o = false -> PE.op_is_concat o = false ->
  (forall x, forward self x = Err ValueError)
  /\ output_size_factor self = Err ValueError.
Proof.
  intros H Hadd Hcat.
  destruct (periodic_init_inv _ _ _ _ H) as (_ & _ & Ho & _).
  split.
  - intros x. unfold forward, PE.combine. rewrite Ho, Hadd, Hcat. reflexivity.
  - unfold output_size_factor, PE.output_size_factor.
    rewrite Ho, Hadd, Hcat. reflexivity.
Qed.

Lemma periodic_unsupported_op_fails_at_use_witness :
  exists self,
    init 4 25 600 "multiply" = Ok self
    /\ (forall x, forward self x = Err ValueError)
    /\ output_size_factor self = Err ValueError.
Proof.
  destruct (@periodic_init_total 4 25 600 "multiply") as [self H];
    [lia | reflexivity | lia |].
  exists self. split; [exact H|].
  exact (@periodic_unsupported_op_fails_at_use 4 25 600 "multiply" self H
           eq_refl eq_refl).
Defined.

(** The width law of the body the two [forward] methods share. *)
Lemma combine_width (o : string) (table x y : tensor3 R) :
  dim2 x = dim2 table ->
  PE.combine o table x = Ok y ->
  exists f, PE.output_size_factor o = Ok f /\ dim2 y = f * dim2 table.
Proof.
  intros Hw H. unfold PE.combine in H. unfold PE.output_size_factor.
  destruct (PE.op_is_add o).
  - bind_named H z E. injection H as <-. unfold PE.dropout.
    apply broadcast3_inv in E. destruct E as (_ & _ & E & _).
    cbn [dim2 slice1] in E. rewrite Hw, bdim_refl in E. injection E as E.
    exists 1. split; [reflexivity | lia].
  - destruct (PE.op_is_concat o).
    + bind_named H z E. injection H as <-. unfold PE.dropout.
      unfold cat2 in E.
      destruct (_ && _); [|discriminate E]. injection E as <-.
      cbn [dim2 repeat3 slice1]. exists 2. split; [reflexivity | lia].
    + discriminate H.
Qed.

(** X12. Width contract of the periodic encoder: whenever [forward]
    returns on an input of width [d_model], [output_size_factor()] returns
    too and the output's width is that factor times [d_model] (1 in sum
    mode, 2 in concatenation mode). *)
Theorem periodic_output_width
  (d_model period max_seq_len : nat) (o : string) (self : t) (x y : tensor3 R) :
  init d_model period max_seq_len o = Ok self ->
  dim2 x = d_model ->
  forward self x = Ok y ->
  exists f, output_size_factor self = Ok f
            /\ (f = 1 \/ f = 2)
            /\ dim2 y = f * d_model.
Proof.
  intros H Hw Hy.
  destruct (periodic_init_inv _ _ _ _ H) as (_ & _ & _ & _ & _ & H2 & _).
  destruct (@combine_width (op self) (pe self) x y) as (f & Hf & Hy2).
  { rewrite H2. exact Hw. }
  { exact Hy. }
  exists f. split; [exact Hf|]. split; [|rewrite Hy2, H2; reflexivity].
  unfold PE.output_size_factor in Hf.
  destruct (PE.op_is_add (op self)); [injection Hf as <-; left; reflexivity|].
  destruct (PE.op_is_concat (op self)); [injection Hf as <-; right; reflexivity|].
  discriminate Hf.
Qed.

(** X13. Concatenation mode on a single frame of a single sequence, the
    input of the first round of the stepping loop: the frame comes back
    followed by the code of position zero, [d_model] columns wider. *)
Theorem periodic_concat_single_frame
  (d_model period max_seq_len : nat) (o : string) (self : t) (x : tensor3 R) :
  init d_model period max_seq_len o = Ok self ->
  PE.op_is_concat o = true ->
  dim0 x = 1 -> dim1 x = 1 ->
  exists y,
    forward self x = Ok y
    /\ dim0 y = 1 /\ dim1 y = 1 /\ dim2 y = dim2 x + d_model
    /\ (forall c, c < dim2 x -> at3 y 0 0 c = at3 x 0 0 c)
    /\ (forall c, c < d_model -> at3 y 0 0 (dim2 x + c) = at3 (pe self) 0 0 c).
Proof.
  intros H Hcat X0 X1.
  destruct (periodic_init_inv _ _ _ _ H)
    as (Hp & Hd & Ho & H0 & H1 & H2 & base & _ & _ & Hat).
  unfold forward, PE.combine.
  rewrite Ho, (op_concat_not_add _ Hcat), Hcat.
  unfold cat2. cbn [dim0 dim1 dim2 repeat3 slice1].
  rewrite X0, X1, H0, H1, H2.
  assert (Hrows : 1 <= (max_seq_len / period + 1) * period) by nia.
  replace (Nat.min 1 ((max_seq_len / period + 1) * period)) with 1 by lia.
  cbn [Nat.mul Nat.add Nat.eqb andb bind]. unfold PE.dropout.
  eexists. split; [reflexivity|]. cbn [dim0 dim1 dim2 at3].
  rewrite Nat.add_0_r. repeat split.
  - intros c Hc. destruct (Nat.ltb_spec c (dim2 x)); [reflexivity | lia].
  - intros c Hc. destruct (Nat.ltb_spec (dim2 x + c) (dim2 x)); [lia|].
    replace (dim2 x + c - dim2 x) with c by lia.
    cbn [at3 repeat3 slice1 dim0 dim1 dim2]. rewrite H0, H2, !Hat.
    rewrite Nat.Div0.mod_mod, Nat.Div0.mod_0_l. reflexivity.
Qed.

Lemma periodic_concat_single_frame_witness :
  exists self y,
    init 4 25 600 "concat" = Ok self
    /\ forward self (T3 1 1 4 (fun _ _ _ => 0%R)) = Ok y
    /\ dim0 y = 1 /\ dim1 y = 1 /\ dim2 y = 4 + 4
    /\ (forall c, c < 4 -> at3 y 0 0 c = 0%R)
    /\ (forall c, c < 4 -> at3 y 0 0 (4 + c) = at3 (pe self) 0 0 c).
Proof.
  destruct (@periodic_init_total 4 25 600 "concat") as [self H];
    [lia | reflexivity | lia |].
  destruct (@periodic_concat_single_frame 4 25 600 "concat" self
              (T3 1 1 4 (fun _ _ _ => 0%R)) H eq_refl eq_refl eq_refl)
    as (y & Hy).
  exists self, y. split; [exact H|]. exact Hy.
Defined.

Lemma periodic_output_width_witness :
  exists self y,
    init 4 25 600 "concat" = Ok self
    /\ forward self (T3 1 1 4 (fun _ _ _ => 0%R)) = Ok y
    /\ exists f, output_size_factor self = Ok f
                 /\ (f = 1 \/ f = 2)
                 /\ dim2 y = f * 4.
Proof.
  destruct (@periodic_init_total 4 25 600 "concat") as [self H];
    [lia | reflexivity | lia |].
  destruct (periodic_init_inv _ _ _ _ H) as (Hp & Hd & Ho & H0 & H1 & H2 & _).
  assert (Hy : exists y, forward self (T3 1 1 4 (fun _ _ _ => 0%R)) = Ok y).
  { unfold forward, PE.combine. rewrite Ho.
    change (PE.op_is_add "concat") with false.
    change (PE.op_is_concat "concat") with true. cbv iota.
    unfold cat2. cbn [dim0 dim1 dim2 repeat3 slice1]. rewrite H0, H1.
    change (Nat.min 1 ((600 / 25 + 1) * 25)) with 1.
    cbn [Nat.mul Nat.add Nat.eqb andb bind]. eexists. reflexivity. }
  destruct Hy as (y & Hy).
  exists self, y. split; [exact H|]. split; [exact Hy|].
  exact (@periodic_output_width 4 25 600 "concat" self
           (T3 1 1 4 (fun _ _ _ => 0%R)) y H eq_refl Hy).
Defined.

End PeriodicEncoder.

(** ** The monotonic encoder: construction, table and [forward] *)

Section MonotonicEncoder.

Import PositionalEncoding.

Lemma set_mid0_cols_strided_ok (start : nat) (dst : tensor3 R) (src : tensor2 R) :
  dim1 dst <> 0 ->
  PE.fits (nrows src) (dim0 dst) = true ->
  PE.fits (ncols src) (PE.strided_count start (dim2 dst)) = true ->
  exists m, PE.set_mid0_cols_strided start dst src = Ok m
            /\ dim0 m = dim0 dst /\ dim1 m = dim1 dst /\ dim2 m = dim2 dst.
Proof.
  intros H0 H1 H2. unfold PE.set_mid0_cols_strided.
  destruct (Nat.eqb_spec (dim1 dst) 0); [contradiction|].
  rewrite H1, H2. eexists. repeat split.
Qed.

(** Construction succeeds for a positive even width, whatever [max_len]. *)
Lemma monotonic_init_total (d_model max_len : nat) (o : string) :
  0 < d_model -> Nat.even d_model = true ->
  exists self, init d_model max_len o = Ok self.
Proof.
  intros Hd He. unfold init.
  destruct (@div_term_ok d_model) as (dt & Hdt & Hlen); [lia|].
  rewrite Hdt, bind_Ok. cbv beta.
  destruct (outer_ok max_len dt) as (ang & Hang & Hr & Hc).
  rewrite Hang, bind_Ok. cbv beta.
  destruct (@set_mid0_cols_strided_ok 0
              (T3 max_len 1 d_model (fun _ _ _ => 0%R)) (map2 sin ang))
    as (pe1 & H1 & A0 & A1 & A2).
  { discriminate. }
  { cbn [nrows map2 dim0]. rewrite Hr. apply fits_refl. }
  { cbn [ncols map2 dim2]. rewrite Hc, Hlen. unfold PE.strided_count.
    rewrite Nat.sub_0_r. apply fits_refl. }
  rewrite H1, bind_Ok. cbv beta.
  destruct (@set_mid0_cols_strided_ok 1 pe1 (map2 cos ang))
    as (pe2 & H2 & B0 & B1 & B2).
  { rewrite A1. discriminate. }
  { cbn [nrows map2]. rewrite Hr, A0. apply fits_refl. }
  { cbn [ncols map2]. rewrite Hc, Hlen, A2. cbn [dim2].
    apply even_width_fit; assumption. }
  rewrite H2, bind_Ok. eexists. reflexivity.
Qed.

(** Entries of the registered buffer after a successful construction. *)
Lemma monotonic_init_values (d_model max_len : nat) (o : string) (self : t) :
  init d_model max_len o = Ok self ->
  forall t k, t < max_len ->
    (2 * k < d_model ->
     at3 (pe self) t 0 (2 * k)
     = sin (INR t * exp (INR (2 * k) * (- ln 10000 / INR d_model)))%R)
    /\ (2 * k + 1 < d_model ->
        at3 (pe self) t 0 (2 * k + 1)
        = cos (INR t * exp (INR (2 * k) * (- ln 10000 / INR d_model)))%R).
Proof.
  intros H t k Ht. unfold init in H.
  bind_named H dt Edt. bind_named H ang Eang.
  bind_named H pe1 E1. bind_named H pe2 E2.
  injection H as <-. cbn [pe].
  exact (@sinusoid_mid0_cols max_len d_model dt ang _ pe1 pe2 Edt Eang E1 E2 t k Ht).
Qed.

(** X14. The constructor of the monotonic encoder and the table it
    registers.  A zero [d_model] raises [ZeroDivisionError], an odd
    [d_model] of three or more raises [RuntimeError]; every positive even
    [d_model] gives, for every [max_len], a table of shape
    [(max_len, 1, d_model)] whose row [t] holds the sinusoids of position
    [t]: [sin(t * exp(2 k * (-ln 10000 / d_model)))] in column [2 k], the
    cosine of the same angle in column [2 k + 1].  The table lies along
    axis 0, the middle axis has size one, and [op] is not checked. *)
Theorem monotonic_init_table (d_model max_len : nat) (o : string) :
  (d_model = 0 -> init d_model max_len o = Err ZeroDivisionError)
  /\ (Nat.odd d_model = true -> 3 <= d_model ->
      init d_model max_len o = Err RuntimeError)
  /\ (0 < d_model -> Nat.even d_model = true ->
      exists self,
        init d_model max_len o = Ok self
        /\ op self = o
        /\ dim0 (pe self) = max_len /\ dim1 (pe self) = 1
        /\ dim2 (pe self) = d_model
        /\ (forall t k, t < max_len -> 2 * k < d_model ->
              at3 (pe self) t 0 (2 * k)
              = sin (INR t * exp (INR (2 * k) * (- ln 10000 / INR d_model)))%R)
        /\ (forall t k, t < max_len -> 2 * k + 1 < d_model ->
              at3 (pe self) t 0 (2 * k + 1)
              = cos (INR t * exp (INR (2 * k) * (- ln 10000 / INR d_model)))%R)).
Proof.
  split; [|split].
  - intros ->. reflexivity.
  - intros Ho Hd. unfold init.
    destruct (@div_term_ok d_model) as (dt & Hdt & Hlen); [lia|].
    rewrite Hdt, bind_Ok. cbv beta.
    destruct (outer_ok max_len dt) as (ang & Hang & Hr & Hc).
    rewrite Hang, bind_Ok. cbv beta.
    destruct (@set_mid0_cols_strided_ok 0
                (T3 max_len 1 d_model (fun _ _ _ => 0%R)) (map2 sin ang))
      as (pe1 & H1 & A0 & A1 & A2).
    { discriminate. }
    { cbn [nrows map2 dim0]. rewrite Hr. apply fits_refl. }
    { cbn [ncols map2 dim2]. rewrite Hc, Hlen. unfold PE.strided_count.
      rewrite Nat.sub_0_r. apply fits_refl. }
    rewrite H1, bind_Ok. cbv beta.
    unfold PE.set_mid0_cols_strided at 1. rewrite A1. cbn [Nat.eqb].
    cbn [nrows ncols map2]. rewrite Hc, Hlen, A2. cbn [dim2].
    rewrite (odd_width_misfit Ho Hd), andb_false_r. reflexivity.
  - intros Hd He.
    destruct (@monotonic_init_total d_model max_len o Hd He) as (self & H).
    destruct (monotonic_init_inv _ _ _ H) as (Ho & H0 & H1 & H2).
    pose proof (@monotonic_init_values _ _ _ _ H) as V.
    exists self. repeat split; try assumption.
    + intros t k Ht Hk. apply V; assumption.
    + intros t k Ht Hk. apply V; assumption.
Qed.

(** X15. [forward] of the monotonic encoder in sum mode.  The table, of
    shape [(max_len, 1, d_model)], is sliced along its middle axis, so its
    position axis meets axis 0 of the input.  An input of shape
    [(1, L, d_model)] comes back with shape [(max_len, L, d_model)]:
    output [b] is the input with the code of position [b] added at every
    one of the [L] steps, the code not depending on the step.  An input
    whose axis 0 is neither 1 nor [max_len] raises [RuntimeError] (for
    [max_len <> 1]). *)
Theorem monotonic_add_codes_along_axis0
  (d_model max_len : nat) (o : string) (self : t) (x : tensor3 R) :
  init d_model max_len o = Ok self ->
  PE.op_is_add o = true ->
  dim2 x = d_model ->
  (dim0 x = 1 ->
   exists y,
     forward self x = Ok y
     /\ dim0 y = max_len /\ dim1 y = dim1 x /\ dim2 y = d_model
     /\ forall b t c, b < max_len -> t < dim1 x -> c < d_model ->
          at3 y b t c = (at3 x 0 t c + at3 (pe self) b 0 c)%R)
  /\ (dim0 x <> 1 -> dim0 x <> max_len -> max_len <> 1 ->
      forward self x = Err RuntimeError).
Proof.
  intros H Hop X2.
  destruct (monotonic_init_inv _ _ _ H) as (Ho & P0 & P1 & P2).
  split.
  - intros X0. unfold forward, PE.combine. rewrite Ho, Hop.
    destruct (@broadcast3_ex _ _ _ Rplus x (slice1 (dim1 x) (pe self))
                max_len (dim1 x) d_model)
      as (y & Hy & Y0 & Y1 & Y2 & Yat).
    { cbn [dim0 slice1]. rewrite X0, P0. apply bdim_1_l. }
    { cbn [dim1 slice1]. rewrite P1.
      destruct (dim1 x) as [|L]; [reflexivity|].
      replace (Nat.min (S L) 1) with 1 by lia. apply bdim_1_r. }
    { cbn [dim2 slice1]. rewrite X2, P2. apply bdim_refl. }
    rewrite Hy, bind_Ok. unfold PE.dropout.
    exists y. split; [reflexivity|]. repeat split; try assumption.
    intros b t c Hb Ht Hc. rewrite Yat. cbn [dim0 dim1 dim2 at3 slice1].
    rewrite X0, X2, P0, P1, P2.
    replace (Nat.min (dim1 x) 1) with 1 by lia.
    rewrite !bidx_1, (bidx_lt Ht), (bidx_lt Hc), (bidx_lt Hb). reflexivity.
  - intros X0 Xm Hm. unfold forward, PE.combine. rewrite Ho, Hop.
    unfold broadcast3. cbn [dim0 slice1]. rewrite P0.
    assert (Hb : bdim (dim0 x) max_len = None).
    { unfold bdim.
      destruct (Nat.eqb_spec (dim0 x) max_len); [contradiction|].
      destruct (Nat.eqb_spec (dim0 x) 1); [contradiction|].
      destruct (Nat.eqb_spec max_len 1); [contradiction | reflexivity]. }
    rewrite Hb. reflexivity.
Qed.

Lemma monotonic_add_codes_along_axis0_witness :
  exists self,
    init 4 600 "add" = Ok self
    /\ (1 = 1 ->
        exists y,
          forward self (T3 1 3 4 (fun _ _ _ => 0%R)) = Ok y
          /\ dim0 y = 600 /\ dim1 y = 3 /\ dim2 y = 4
          /\ forall b t c, b < 600 -> t < 3 -> c < 4 ->
               at3 y b t c = (0 + at3 (pe self) b 0 c)%R)
    /\ (1 <> 1 -> 1 <> 600 -> 600 <> 1 ->
        forward self (T3 1 3 4 (fun _ _ _ => 0%R)) = Err RuntimeError).
Proof.
  destruct (@monotonic_init_total 4 600 "add") as [self H];
    [lia | reflexivity |].
  exists self. split; [exact H|].
  exact (@monotonic_add_codes_along_axis0 4 600 "add" self
           (T3 1 3 4 (fun _ _ _ => 0%R)) H eq_refl eq_refl).
Defined.

(** X16. Width contract of the monotonic encoder: whenever [forward]
    returns on an input of width [d_model], [output_size_factor()] returns
    too and the output's width is that factor times [d_model]; with an
    unsupported [op] both raise [ValueError]. *)
Theorem monotonic_output_width
  (d_model max_len : nat) (o : string) (self : t) :
  init d_model max_len o = Ok self ->
  (forall x y, dim2 x = d_model -> forward self x = Ok y ->
     exists f, output_size_factor self = Ok f
               /\ (f = 1 \/ f = 2)
               /\ dim2 y = f * d_model)
  /\ (PE.op_is_add o = false -> PE.op_is_concat o = false ->
      (forall x, forward self x = Err ValueError)
      /\ output_size_factor self = Err ValueError).
Proof.
  intros H.
  destruct (monotonic_init_inv _ _ _ H) as (Ho & _ & _ & H2).
  split.
  - intros x y Hw Hy.
    destruct (@combine_width (op self) (pe self) x y) as (f & Hf & Hy2).
    { rewrite H2. exact Hw. }
    { exact Hy. }
    exists f. split; [exact Hf|]. split; [|rewrite Hy2, H2; reflexivity].
    unfold PE.output_size_factor in Hf.
    destruct (PE.op_is_add (op self)); [injection Hf as <-; left; reflexivity|].
    destruct (PE.op_is_concat (op self)); [injection Hf as <-; right; reflexivity|].
    discriminate Hf.
  - intros Hadd Hcat. split.
    + intros x. unfold forward, PE.combine. rewrite Ho, Hadd, Hcat. reflexivity.
    + unfold output_size_factor, PE.output_size_factor.
      rewrite Ho, Hadd, Hcat. reflexivity.
Qed.

Lemma monotonic_output_width_witness :
  exists self,
    init 4 600 "add" = Ok self
    /\ (forall x y, dim2 x = 4 -> forward self x = Ok y ->
          exists f, output_size_factor self = Ok f
                    /\ (f = 1 \/ f = 2)
                    /\ dim2 y = f * 4)
    /\ (PE.op_is_add "add" = false -> PE.op_is_concat "add" = false ->
        (forall x, forward self x = Err ValueError)
        /\ output_size_factor self = Err ValueError).
Proof.
  destruct (@monotonic_init_total 4 600 "add") as [self H];
    [lia | reflexivity |].
  exists self. split; [exact H|].
  exact (@monotonic_output_width 4 600 "add" self H).
Defined.

End MonotonicEncoder.

(** ** Choosing the encoder and building the decoder *)

Section DecoderConstruction.

Lemma div_term_err (d : nat) (e : error) :
  PE.div_term d = Err e -> e = ZeroDivisionError.
Proof.
  unfold PE.div_term. destruct (d =? 0); [|discriminate].
  intros H. injection H as <-. reflexivity.
Qed.

Lemma broadcast2_err {A B C : Type} (f : A -> B -> C)
  (x : tensor2 A) (y : tensor2 B) (e : error) :
  broadcast2 f x y = Err e -> e = RuntimeError.
Proof.
  unfold broadcast2. destruct (bdim _ _); [destruct (bdim _ _)|];
    try discriminate; intros H; injection H as <-; reflexivity.
Qed.

Lemma set_cols_strided_err (start : nat) (dst src : tensor2 R) (e : error) :
  PE.set_cols_strided start dst src = Err e -> e = RuntimeError.
Proof.
  unfold PE.set_cols_strided. destruct (_ && _); [discriminate|].
  intros H. injection H as <-. reflexivity.
Qed.

Lemma set_mid0_cols_strided_err (start : nat) (dst : tensor3 R) (src : tensor2 R)
  (e : error) :
  PE.set_mid0_cols_strided start dst src = Err e ->
  e = RuntimeError \/ e = IndexError.
Proof.
  unfold PE.set_mid0_cols_strided. destruct (dim1 dst =? 0).
  - intros H. injection H as <-. right. reflexivity.
  - destruct (_ && _); [discriminate|].
    intros H. injection H as <-. left. reflexivity.
Qed.

(** The constructors of the encoders raise no [ValueError]. *)
Lemma periodic_init_errors (d_model period max_seq_len : nat) (o : string) (e : error) :
  PeriodicPositionalEncoding.init d_model period max_seq_len o = Err e ->
  e = ZeroDivisionError \/ e = RuntimeError.
Proof.
  unfold PeriodicPositionalEncoding.init. intros H.
  destruct (PE.div_term d_model) as [dt|e1] eqn:E1; cbn [bind] in H;
    [|injection H as <-; left; exact (div_term_err _ E1)].
  destruct (broadcast2 Rmult (PE.position period) (as_row dt)) as [ang|e2] eqn:E2;
    cbn [bind] in H; [|injection H as <-; right; exact (broadcast2_err _ _ _ E2)].
  destruct (PE.set_cols_strided 0 _ _) as [pe1|e3] eqn:E3; cbn [bind] in H;
    [|injection H as <-; right; exact (set_cols_strided_err _ _ _ E3)].
  destruct (PE.set_cols_strided 1 _ _) as [pe2|e4] eqn:E4; cbn [bind] in H;
    [|injection H as <-; right; exact (set_cols_strided_err _ _ _ E4)].
  destruct (period =? 0); cbn [bind] in H; [|discriminate H].
  injection H as <-. left. reflexivity.
Qed.

Lemma monotonic_init_errors (d_model max_len : nat) (o : string) (e : error) :
  PositionalEncoding.init d_model max_len o = Err e ->
  e = ZeroDivisionError \/ e = RuntimeError \/ e = IndexError.
Proof.
  unfold PositionalEncoding.init. intros H.
  destruct (PE.div_term d_model) as [dt|e1] eqn:E1; cbn [bind] in H;
    [|injection H as <-; left; exact (div_term_err _ E1)].
  destruct (broadcast2 Rmult (PE.position max_len) (as_row dt)) as [ang|e2] eqn:E2;
    cbn [bind] in H;
    [|injection H as <-; right; left; exact (broadcast2_err _ _ _ E2)].
  destruct (PE.set_mid0_cols_strided 0 _ _) as [pe1|e3] eqn:E3; cbn [bind] in H;
    [|injection H as <-; right; exact (set_mid0_cols_strided_err _ _ _ E3)].
  destruct (PE.set_mid0_cols_strided 1 _ _) as [pe2|e4] eqn:E4; cbn [bind] in H;
    [discriminate H|].
  injection H as <-. right. exact (set_mid0_cols_strided_err _ _ _ E4).
Qed.

(** X17. [positional_encoding_from_cfg] chooses the encoder class by
    [cfg.positional_encoding.type] and builds it with the width
    [cfg.feature_dim].  A type that is neither of the two class names
    raises [ValueError].  When the call returns, the encoder is of the
    class the type names: the periodic class takes [period],
    [max_seq_len] and [op] (defaults 25, 600, "add") and its table has
    [(max_seq_len // period + 1) * period] rows; the monotonic class takes
    [max_len] and [op] (defaults 600, "add") and its table has [max_len]
    entries along axis 0. *)
Theorem positional_encoding_from_cfg_dispatch (c : cfg) :
  let p := positional_encoding c in
  (pe_type p <> "PeriodicPositionalEncoding"%string ->
   pe_type p <> "PositionalEncoding"%string ->
   positional_encoding_from_cfg c = Err ValueError)
  /\ (forall enc, positional_encoding_from_cfg c = Ok enc ->
        (pe_type p = "PeriodicPositionalEncoding"%string
         /\ exists q, enc = Periodic q
              /\ PeriodicPositionalEncoding.op q = default (pe_op p) "add"%string
              /\ dim0 (PeriodicPositionalEncoding.pe q) = 1
              /\ dim1 (PeriodicPositionalEncoding.pe q)
                 = (default (pe_max_seq_len p) 600 / default (pe_period p) 25 + 1)
                   * default (pe_period p) 25
              /\ dim2 (PeriodicPositionalEncoding.pe q) = feature_dim c)
        \/ (pe_type p = "PositionalEncoding"%string
            /\ exists q, enc = Monotonic q
                 /\ PositionalEncoding.op q = default (pe_op p) "add"%string
                 /\ dim0 (PositionalEncoding.pe q) = default (pe_max_len p) 600
                 /\ dim1 (PositionalEncoding.pe q) = 1
                 /\ dim2 (PositionalEncoding.pe q) = feature_dim c)).
Proof.
  cbv zeta. unfold positional_encoding_from_cfg. split.
  - intros E1 E2.
    destruct (String.eqb_spec (pe_type (positional_encoding c))
                "PeriodicPositionalEncoding"); [contradiction|].
    destruct (String.eqb_spec (pe_type (positional_encoding c))
                "PositionalEncoding"); [contradiction|].
    reflexivity.
  - intros enc H.
    destruct (String.eqb_spec (pe_type (positional_encoding c))
                "PeriodicPositionalEncoding") as [E1|E1].
    { left. split; [exact E1|].
      bind_named H q Hq. injection H as <-.
      destruct (periodic_init_inv _ _ _ _ Hq) as (_ & _ & Ho & H0 & H1 & H2 & _).
      exists q. repeat split; assumption. }
    destruct (String.eqb_spec (pe_type (positional_encoding c))
                "PositionalEncoding") as [E2|E2]; [|discriminate H].
    right. split; [exact E2|].
    bind_named H q Hq. injection H as <-.
    destruct (monotonic_init_inv _ _ _ Hq) as (Ho & H0 & H1 & H2).
    exists q. repeat split; assumption.
Qed.

Lemma positional_encoding_from_cfg_dispatch_witness :
  positional_encoding_from_cfg
    {| feature_dim := 2; nhead := 1; max_len := 2; period := 1; num_layers := 1;
       vertices_dim := 3; num_training_subjects := 1;
       positional_encoding :=
         {| pe_type := "LearnedPositionalEncoding";
            pe_period := None; pe_max_seq_len := None; pe_max_len := None;
            pe_op := None |} |}
  = Err ValueError
  /\ exists q,
       positional_encoding_from_cfg Demo.config = Ok (Periodic q)
       /\ PeriodicPositionalEncoding.op q = "add"%string
       /\ dim0 (PeriodicPositionalEncoding.pe q) = 1
       /\ dim1 (PeriodicPositionalEncoding.pe q) = 625
       /\ dim2 (PeriodicPositionalEncoding.pe q) = 2.
Proof.
  split.
  - apply (positional_encoding_from_cfg_dispatch
             {| feature_dim := 2; nhead := 1; max_len := 2; period := 1;
                num_layers := 1; vertices_dim := 3; num_training_subjects := 1;
                positional_encoding :=
                  {| pe_type := "LearnedPositionalEncoding";
                     pe_period := None; pe_max_seq_len := None;
                     pe_max_len := None; pe_op := None |} |});
      discriminate.
  - destruct (demo_init Demo.zero_parameters) as (self & Hinit).
    unfold FaceFormerDecoder_init in Hinit. bind_named Hinit enc Eenc.
    destruct (proj2 (positional_encoding_from_cfg_dispatch Demo.config) enc Eenc)
      as [(_ & q & -> & Ho & H0 & H1 & H2) | (Hty & _)]; [|discriminate Hty].
    exists q. split; [reflexivity|]. split; [exact Ho|]. split; [exact H0|].
    split; [exact H1 | exact H2].
Defined.

(** X18. What [__init__] of the decoder leaves behind.  The number of
    steps the decoder reports is [cfg.max_len], the side of a bias mask
    with [cfg.nhead] slices; the frame embedder maps [vertices_dim] to
    [feature_dim] with a bias, the style embedder maps
    [num_training_subjects] to [feature_dim] without one, the output head
    maps [feature_dim] back to [vertices_dim]; and a decoder is only
    built for at least one head and a positive [cfg.period]. *)
Theorem FaceFormerDecoder_init_layout
  (attention : tensor3 R -> tensor3 R -> tensor3 xreal -> tensor2 bool ->
               nat -> nat -> nat -> R)
  (c : cfg) (w : fresh_parameters) (self : FaceFormerDecoder) :
  FaceFormerDecoder_init c w = Ok self ->
  @_max_auto_regressive_steps _ (FaceFormer_decoder attention) self = max_len c
  /\ dim0 (biased_mask self) = nhead c
  /\ dim1 (biased_mask self) = max_len c
  /\ dim2 (biased_mask self) = max_len c
  /\ 0 < nhead c /\ 0 < period c
  /\ positional_encoding_from_cfg c = Ok (PE self)
  /\ Linear.in_features (vertice_map self) = vertices_dim c
  /\ Linear.out_features (vertice_map self) = feature_dim c
  /\ Linear.bias (vertice_map self) = Some (vertice_map_bias w)
  /\ Linear.in_features (obj_vector self) = num_training_subjects c
  /\ Linear.out_features (obj_vector self) = feature_dim c
  /\ Linear.bias (obj_vector self) = None
  /\ Linear.in_features (vertex_map self) = feature_dim c
  /\ Linear.out_features (vertex_map self) = vertices_dim c.
Proof.
  unfold FaceFormerDecoder_init. intros H.
  bind_named H enc Eenc. bind_named H mask Emask.
  injection H as <-.
  apply init_biased_mask_inv in Emask.
  destruct Emask as (Hh & Hp & M0 & M1 & M2).
  cbn. repeat split; assumption.
Qed.

Lemma FaceFormerDecoder_init_layout_witness :
  exists self,
    FaceFormerDecoder_init Demo.config Demo.trained_parameters = Ok self
    /\ @_max_auto_regressive_steps _ (FaceFormer_decoder Demo.pass_through) self = 2
    /\ dim0 (biased_mask self) = 1
    /\ dim1 (biased_mask self) = 2
    /\ dim2 (biased_mask self) = 2
    /\ 0 < 1 /\ 0 < 1
    /\ positional_encoding_from_cfg Demo.config = Ok (PE self)
    /\ Linear.in_features (vertice_map self) = 3
    /\ Linear.out_features (vertice_map self) = 2
    /\ Linear.bias (vertice_map self)
       = Some (vertice_map_bias Demo.trained_parameters)
    /\ Linear.in_features (obj_vector self) = 1
    /\ Linear.out_features (obj_vector self) = 2
    /\ Linear.bias (obj_vector self) = None
    /\ Linear.in_features (vertex_map self) = 2
    /\ Linear.out_features (vertex_map self) = 3.
Proof.
  destruct (demo_init Demo.trained_parameters) as (self & Hinit).
  exists self. split; [exact Hinit|].
  exact (@FaceFormerDecoder_init_layout Demo.pass_through Demo.config
           Demo.trained_parameters self Hinit).
Defined.

End DecoderConstruction.

(** ** What a call of [forward] needs and what it leaves *)

Lemma bdim_one (a b : nat) : bdim a b = Some 1 -> a = 1 /\ b = 1.
Proof.
  intros H. apply bdim_some in H. lia.
Qed.

Lemma for_range_first {S : Type} (n : nat) (body : S -> nat -> result S) (s s' : S) :
  for_range (Datatypes.S n) body s = Ok s' -> exists s1, body s 0 = Ok s1.
Proof.
  unfold for_range. cbn [seq for_each].
  destruct (body s 0) as [s1|e]; cbn [bind]; [|discriminate].
  intros _. exists s1. reflexivity.
Qed.

(** An encoder that returns one sequence was given one sequence and has a
    table whose leading axis has size one. *)
Lemma combine_dim0_one (o : string) (table x y : tensor3 R) :
  PE.combine o table x = Ok y -> dim0 y = 1 -> dim0 x = 1 /\ dim0 table = 1.
Proof.
  unfold PE.combine, PE.dropout. intros H Hy.
  destruct (PE.op_is_add o).
  - bind_named H z E. injection H as <-.
    apply broadcast3_inv in E. destruct E as (E0 & _).
    cbn [dim0 slice1] in E0. rewrite Hy in E0. apply bdim_one in E0. exact E0.
  - destruct (PE.op_is_concat o); [|discriminate].
    bind_named H z E. injection H as <-.
    unfold cat2 in E.
    destruct (_ && _) eqn:Hc in E; [|discriminate]. injection E as <-.
    cbn [dim0] in Hy.
    apply andb_prop in Hc. destruct Hc as [Hc _]. apply Nat.eqb_eq in Hc.
    cbn [dim0 repeat3 slice1] in Hc. lia.
Qed.

Lemma PE_forward_dim0_one (enc : positional_encoder) (x y : tensor3 R) :
  PE_forward enc x = Ok y -> dim0 y = 1 ->
  dim0 x = 1 /\ dim0 (PE_table enc) = 1.
Proof.
  destruct enc; cbn [PE_forward PE_table]; apply combine_dim0_one.
Qed.

Section ForwardContract.

Variable attention :
  tensor3 R -> tensor3 R -> tensor3 xreal -> tensor2 bool -> nat -> nat -> nat -> R.

Variable self : FaceFormerDecoder.
Hypothesis Hwf : well_formed self.

(** A successful [_decode] worked on one sequence. *)
Lemma decode_one_sequence (s : sample) (vin h out : tensor3 R) :
  _decode attention self s vin h = Ok out ->
  dim0 vin = 1 /\ dim0 h = 1 /\ dim0 out = 1
  /\ dim1 out = dim1 vin
  /\ dim2 out = Linear.out_features (vertex_map self)
  /\ dim1 vin <= dim1 (biased_mask self).
Proof.
  intros H. apply decode_shape in H.
  destruct H as (D0 & D1 & D2 & Dh & Dm & Dle & _).
  destruct Hwf as (_ & Hhead & Hm0 & _).
  assert (HB : dim0 vin = 1) by nia.
  repeat split; try assumption; congruence.
Qed.

(** What a successful teacher-forced step read and wrote. *)
Lemma teacher_forced_step_shapes (s s' : sample) :
  FaceFormer_teacher_forced_step attention self s = Ok s' ->
  exists gt tmpl h oh out,
    gt_vertices s = Some gt /\ template s = Some tmpl
    /\ hidden_feature s = Some h /\ one_hot s = Some oh
    /\ s' = set_predicted_vertices s out
    /\ dim0 gt = 1 /\ nrows tmpl = 1 /\ nrows oh = 1 /\ dim0 h = 1
    /\ dim0 (PE_table (PE self)) = 1
    /\ dim2 gt = ncols tmpl
    /\ dim0 out = 1
    /\ dim1 out = Nat.max 1 (dim1 gt)
    /\ dim2 out = Linear.out_features (vertex_map self)
    /\ dim1 out <= dim1 (biased_mask self).
Proof.
  intros H. unfold FaceFormer_teacher_forced_step in H.
  bind_named H gt Egt. bind_named H tmpl Etm. bind_named H h Eh.
  bind_named H oh Eoh. bind_named H emb Eemb.
  bind_named H x1 E1. bind_named H x2 E2. bind_named H x3 E3.
  bind_named H x4 E4. bind_named H vin E5. bind_named H out E6.
  injection H as <-.
  destruct (decode_one_sequence _ _ _ E6) as (V0 & H0 & O0 & O1 & O2 & Ole).
  destruct (PE_forward_dim0_one _ _ E5 V0) as (X40 & T0).
  pose proof (PE_forward_dim1 _ _ E5 ltac:(destruct Hwf; assumption)) as V1.
  apply broadcast3_inv in E4. destruct E4 as (B40 & B41 & _).
  cbn [dim0 dim1 unsqueeze1] in B40, B41.
  rewrite X40 in B40. apply bdim_one in B40. destruct B40 as (X30 & Oh0).
  rewrite bdim_1_r in B41. injection B41 as B41.
  apply forward2_shape in Eemb. destruct Eemb as (Em0 & _).
  apply forward3_shape in E3. destruct E3 as (L0 & L1 & _).
  apply broadcast3_inv in E2. destruct E2 as (B20 & B21 & _).
  cbn [dim0 dim1 unsqueeze1] in B20, B21.
  rewrite bdim_1_r in B21. injection B21 as B21.
  apply cat1_shape in E1. destruct E1 as (C0 & C1 & C2 & C3 & C4).
  cbn [dim0 dim1 dim2 unsqueeze1 drop_last1] in C0, C1, C2, C3, C4.
  rewrite C0, bdim_refl in B20. injection B20 as B20.
  exists gt, tmpl, h, oh, out.
  destruct (gt_vertices s); cbn [getitem] in Egt; [|discriminate]. injection Egt as ->.
  destruct (template s); cbn [getitem] in Etm; [|discriminate]. injection Etm as ->.
  destruct (hidden_feature s); cbn [getitem] in Eh; [|discriminate]. injection Eh as ->.
  destruct (one_hot s); cbn [getitem] in Eoh; [|discriminate]. injection Eoh as ->.
  repeat split; try assumption; try congruence; lia.
Qed.

(** What a successful first step of the stepping loop read. *)
Lemma autoregressive_first_step_shapes (s s' : sample) :
  FaceFormer_autoregressive_step attention self s 0 = Ok s' ->
  exists h oh,
    hidden_feature s = Some h /\ one_hot s = Some oh
    /\ nrows oh = 1 /\ dim0 h = 1
    /\ dim0 (PE_table (PE self)) = 1.
Proof.
  intros H. unfold FaceFormer_autoregressive_step in H.
  bind_named H h Eh. bind_named H st Est.
  destruct st as [[[s1 vertice_emb] style] vin].
  bind_named H out Eout.
  cbn [Nat.eqb] in Est.
  bind_named Est oh Eoh. bind_named Est emb Eemb. bind_named Est v Ev.
  injection Est as <- <- <- <-.
  destruct (decode_one_sequence _ _ _ Eout) as (V0 & H0 & _).
  destruct (PE_forward_dim0_one _ _ Ev V0) as (X0 & T0).
  cbn [dim0 unsqueeze1] in X0.
  apply forward2_shape in Eemb. destruct Eemb as (Em0 & _).
  exists h, oh.
  destruct (hidden_feature s); cbn [getitem] in Eh; [|discriminate]. injection Eh as ->.
  destruct (one_hot s); cbn [getitem] in Eoh; [|discriminate]. injection Eoh as ->.
  repeat split; try assumption; congruence.
Qed.

(** A step of the stepping loop leaves the inputs of the sample alone. *)
Lemma autoregressive_step_keeps (s s' : sample) (i : nat) :
  FaceFormer_autoregressive_step attention self s i = Ok s' ->
  seq_encoder_output s' = seq_encoder_output s
  /\ hidden_feature s' = hidden_feature s
  /\ gt_vertices s' = gt_vertices s
  /\ template s' = template s
  /\ one_hot s' = one_hot s.
Proof.
  intros H. unfold FaceFormer_autoregressive_step in H.
  bind_named H h Eh. bind_named H st Est.
  destruct st as [[[s1 vertice_emb] style] vin].
  bind_named H out Eout. bind_named H last Elast.
  bind_named H y1 E1. bind_named H y2 E2. bind_named H y3 E3.
  injection H as <-.
  assert (Hs1 : s1 = s \/ exists v, s1 = set_style_emb s v).
  { destruct (i =? 0).
    - bind_named Est oh Eoh. bind_named Est emb Eemb. bind_named Est v Ev.
      injection Est as <- <- <- <-. right. eexists. reflexivity.
    - bind_named Est e Ee. bind_named Est st0 Est0. bind_named Est v Ev.
      injection Est as <- <- <- <-. left. reflexivity. }
  destruct Hs1 as [->|(v & ->)]; repeat split.
Qed.

Lemma stepping_loop_keeps (s s' : sample) (k : nat) :
  for_range k (FaceFormer_autoregressive_step attention self) s = Ok s' ->
  seq_encoder_output s' = seq_encoder_output s
  /\ hidden_feature s' = hidden_feature s
  /\ gt_vertices s' = gt_vertices s
  /\ template s' = template s
  /\ one_hot s' = one_hot s.
Proof.
  induction k as [|k IH] in s' |- *; intros H.
  - injection H as <-. repeat split.
  - apply for_range_S_ok in H. destruct H as (s1 & H1 & H2).
    destruct (IH _ H1) as (A1 & A2 & A3 & A4 & A5).
    destruct (autoregressive_step_keeps _ _ H2) as (B1 & B2 & B3 & B4 & B5).
    repeat split; congruence.
Qed.

(** The parts of a successful autoregressive call on a sample that carries
    no earlier prediction. *)
Lemma forward_autoregressive_trace (s s' : sample) (train : bool) :
  predicted_vertices s = None ->
  FaceFormer_forward attention self s train false = Ok s' ->
  exists h n s1 sN,
    seq_encoder_output s = Some h
    /\ n = Nat.min (requested_frames s h) (dim1 (biased_mask self))
    /\ 1 <= n
    /\ FaceFormer_autoregressive_step attention self (set_hidden_feature s h) 0 = Ok s1
    /\ for_range n (FaceFormer_autoregressive_step attention self)
         (set_hidden_feature s h) = Ok sN
    /\ FaceFormer_post_prediction self sN = Ok s'.
Proof.
  intros Hfresh H. unfold FaceFormer_forward, forward in H.
  bind_named H h Eh. cbv zeta in H. bind_named H sN EN.
  cbn [_post_prediction _max_auto_regressive_steps _autoregressive_step
       FaceFormer_decoder] in H, EN.
  unfold FaceFormer_max_auto_regressive_steps in EN.
  change (requested_frames (set_hidden_feature s h) h)
    with (requested_frames s h) in EN.
  destruct (seq_encoder_output s) as [h0|]; cbn [getitem] in Eh; [|discriminate].
  injection Eh as ->.
  remember (Nat.min (requested_frames s h) (dim1 (biased_mask self))) as n eqn:Hn.
  destruct n as [|n].
  { injection EN as <-. unfold FaceFormer_post_prediction in H.
    cbn [template predicted_vertices set_hidden_feature] in H.
    rewrite Hfresh in H. destruct (template s); discriminate H. }
  destruct (for_range_first _ _ _ EN) as (s1 & H1).
  exists h, (S n), s1, sN. repeat split; try assumption. lia.
Qed.

(** X19. [_decode] serves one sequence.  On a decoder with the buffers of
    [__init__], for a non-empty decoder input and a non-empty conditioning,
    a call that returns was given a single sequence in both, each of width
    [d_model], an input no longer than the side of the bias mask, and an
    output head that reads [d_model] values; it returns
    [(1, T, vertices_dim)] for an input of [T] positions.  A batch of two
    or more sequences never comes back: the bias mask has one slice per
    head, where the attention stack wants one per head and sequence. *)
Theorem decode_returns_one_sequence (s : sample) (vin h out : tensor3 R) :
  1 <= dim1 vin -> 1 <= dim1 h ->
  _decode attention self s vin h = Ok out ->
  dim0 vin = 1 /\ dim0 h = 1
  /\ dim2 vin = d_model self /\ dim2 h = d_model self
  /\ dim1 vin <= dim1 (biased_mask self)
  /\ dim2 vin = Linear.in_features (vertex_map self)
  /\ dim0 out = 1 /\ dim1 out = dim1 vin
  /\ dim2 out = Linear.out_features (vertex_map self).
Proof.
  intros _ _ E.
  destruct (decode_one_sequence _ _ _ E) as (V0 & H0 & O0 & O1 & O2 & Hle).
  unfold _decode in E. bind_named E mm Emm. bind_named E tout Et.
  unfold _decode_vertices in E. apply forward3_shape in E.
  destruct E as (_ & _ & _ & Hin & _).
  unfold transformer_decoder in Et.
  destruct (_ && _) eqn:Hc in Et; [|discriminate]. injection Et as <-.
  cbn [dim2] in Hin.
  repeat (apply andb_prop in Hc; destruct Hc as [Hc ?]).
  repeat match goal with
         | Hx : (_ =? _) = true |- _ => apply Nat.eqb_eq in Hx
         end.
  repeat split; assumption.
Qed.

(** X20. Length law of the teacher-forced pass.  When [forward] returns
    with [teacher_forcing] on, the sample holds one ground-truth sequence
    of [T] frames, one template row and one identity row, and the
    prediction has shape [(1, max(T, 1), .)]: as many frames as the ground
    truth, and one frame for an empty ground truth, the template being fed
    in any case.  That length is within the side of the bias mask.  The
    returned sample is the one passed in with [hidden_feature] and
    [predicted_vertices] set, and nothing else changed. *)
Theorem teacher_forced_output_length (s s' : sample) (train : bool) :
  FaceFormer_forward attention self s train true = Ok s' ->
  exists h gt tmpl oh pv,
    seq_encoder_output s = Some h
    /\ gt_vertices s = Some gt /\ template s = Some tmpl /\ one_hot s = Some oh
    /\ s' = set_predicted_vertices (set_hidden_feature s h) pv
    /\ dim0 gt = 1 /\ nrows tmpl = 1 /\ nrows oh = 1
    /\ dim0 pv = 1
    /\ dim1 pv = Nat.max 1 (dim1 gt)
    /\ dim1 pv <= dim1 (biased_mask self).
Proof.
  intros H. unfold FaceFormer_forward, forward in H.
  bind_named H h Eh. cbv zeta in H. bind_named H s1 E1.
  cbn [_post_prediction _teacher_forced_step FaceFormer_decoder] in H, E1.
  destruct (teacher_forced_step_shapes _ E1)
    as (gt & tmpl & h' & oh & out & Hgt & Htm & Hh & Hoh & -> & G0 & T0 & O0 & H0
        & _ & _ & P0 & P1 & P2 & Ple).
  cbn [gt_vertices template one_hot set_hidden_feature] in Hgt, Htm, Hoh.
  unfold FaceFormer_post_prediction in H.
  cbn [template predicted_vertices set_predicted_vertices set_hidden_feature] in H.
  rewrite Htm in H. cbn [getitem bind] in H.
  bind_named H pv Epv. injection H as <-.
  apply broadcast3_inv in Epv. destruct Epv as (B0 & B1 & _).
  cbn [dim0 dim1 as_leading1] in B0, B1.
  rewrite P0, bdim_refl in B0. injection B0 as B0.
  rewrite T0, bdim_1_r in B1. injection B1 as B1.
  exists h, gt, tmpl, oh, pv.
  split.
  { destruct (seq_encoder_output s); cbn [getitem] in Eh;
      [congruence | discriminate]. }
  repeat split; try assumption; try congruence; lia.
Qed.

(** X21. [forward] leaves the inputs of the sample alone.  Whenever it
    returns, in either mode, the entries [seq_encoder_output],
    [gt_vertices], [template] and [one_hot] of the returned sample are the
    ones passed in, and [hidden_feature] holds the conditioning
    sequence. *)
Theorem forward_keeps_inputs (s s' : sample) (train teacher_forcing : bool) :
  FaceFormer_forward attention self s train teacher_forcing = Ok s' ->
  seq_encoder_output s' = seq_encoder_output s
  /\ gt_vertices s' = gt_vertices s
  /\ template s' = template s
  /\ one_hot s' = one_hot s
  /\ hidden_feature s' = seq_encoder_output s.
Proof.
  intros H. unfold FaceFormer_forward, forward in H.
  bind_named H h Eh. cbv zeta in H. bind_named H s1 E1.
  cbn [_post_prediction FaceFormer_decoder] in H.
  assert (Hh : seq_encoder_output s = Some h).
  { destruct (seq_encoder_output s); cbn [getitem] in Eh; [congruence | discriminate]. }
  assert (K : seq_encoder_output s1 = seq_encoder_output s
              /\ hidden_feature s1 = Some h
              /\ gt_vertices s1 = gt_vertices s
              /\ template s1 = template s
              /\ one_hot s1 = one_hot s).
  { destruct teacher_forcing.
    - cbn [_teacher_forced_step FaceFormer_decoder] in E1.
      destruct (teacher_forced_step_shapes _ E1)
        as (gt & tmpl & h' & oh & out & _ & _ & _ & _ & -> & _).
      repeat split.
    - cbn [_autoregressive_step FaceFormer_decoder] in E1.
      apply stepping_loop_keeps in E1. exact E1. }
  destruct K as (K1 & K2 & K3 & K4 & K5).
  unfold FaceFormer_post_prediction in H.
  bind_named H tmpl Et. bind_named H pv Ep. bind_named H pv' Ep'.
  injection H as <-.
  cbn [seq_encoder_output gt_vertices template one_hot hidden_feature
       set_predicted_vertices].
  repeat split; congruence.
Qed.

(** X22. The keys [forward] needs.  Without [seq_encoder_output] every
    call raises [KeyError], and so does every teacher-forced call without
    [gt_vertices].  A call that returns on a sample without an earlier
    prediction found [seq_encoder_output], [template] and [one_hot] in
    it. *)
Theorem forward_needs_keys (s : sample) (train : bool) :
  (seq_encoder_output s = None ->
   forall teacher_forcing,
     FaceFormer_forward attention self s train teacher_forcing = Err KeyError)
  /\ (gt_vertices s = None ->
      FaceFormer_forward attention self s train true = Err KeyError)
  /\ (predicted_vertices s = None ->
      forall teacher_forcing s',
        FaceFormer_forward attention self s train teacher_forcing = Ok s' ->
        exists h tmpl oh,
          seq_encoder_output s = Some h /\ template s = Some tmpl
          /\ one_hot s = Some oh).
Proof.
  split; [|split].
  - intros Hnone tf. unfold FaceFormer_forward, forward.
    rewrite Hnone. reflexivity.
  - intros Hnone. unfold FaceFormer_forward, forward.
    destruct (seq_encoder_output s) as [h|]; [|reflexivity].
    cbn [getitem bind _teacher_forced_step FaceFormer_decoder].
    unfold FaceFormer_teacher_forced_step.
    cbn [gt_vertices set_hidden_feature]. rewrite Hnone. reflexivity.
  - intros Hfresh tf s' H.
    destruct tf.
    + unfold FaceFormer_forward, forward in H.
      bind_named H h Eh. cbv zeta in H. bind_named H s1 E1.
      cbn [_teacher_forced_step FaceFormer_decoder] in E1.
      destruct (teacher_forced_step_shapes _ E1)
        as (gt & tmpl & h' & oh & out & _ & Htm & _ & Hoh & _).
      cbn [template one_hot set_hidden_feature] in Htm, Hoh.
      exists h, tmpl, oh. repeat split; try assumption.
      destruct (seq_encoder_output s); cbn [getitem] in Eh; [congruence | discriminate].
    + destruct (@forward_autoregressive_trace s s' train Hfresh H)
        as (h & n & s1 & sN & Hh & _ & _ & H1 & HN & Hpost).
      destruct (autoregressive_first_step_shapes _ H1)
        as (h' & oh & _ & Hoh & _).
      cbn [one_hot set_hidden_feature] in Hoh.
      unfold FaceFormer_post_prediction in Hpost.
      bind_named Hpost tmpl Et.
      destruct (stepping_loop_keeps _ _ HN) as (_ & _ & _ & L4 & _).
      cbn [template set_hidden_feature] in L4.
      exists h, tmpl, oh. repeat split; try assumption.
      destruct (template sN); cbn [getitem] in Et; [congruence | discriminate].
Qed.

(** X23. [forward] serves one sequence per call.  When it returns, in
    either mode, on a sample without an earlier prediction, the
    conditioning holds exactly one sequence, the identity exactly one row,
    the positional table has a leading axis of size one, and the
    prediction holds one sequence. *)
Theorem forward_one_sequence (s s' : sample) (train teacher_forcing : bool) :
  predicted_vertices s = None ->
  FaceFormer_forward attention self s train teacher_forcing = Ok s' ->
  exists h oh pv,
    seq_encoder_output s = Some h /\ dim0 h = 1
    /\ one_hot s = Some oh /\ nrows oh = 1
    /\ dim0 (PE_table (PE self)) = 1
    /\ predicted_vertices s' = Some pv /\ dim0 pv = 1.
Proof.
  intros Hfresh H. destruct teacher_forcing.
  - unfold FaceFormer_forward, forward in H.
    bind_named H h Eh. cbv zeta in H. bind_named H s1 E1.
    cbn [_post_prediction _teacher_forced_step FaceFormer_decoder] in H, E1.
    destruct (teacher_forced_step_shapes _ E1)
      as (gt & tmpl & h' & oh & out & _ & Htm & Hh' & Hoh & -> & _ & T0 & O0 & H0
          & Tb & _ & P0 & _).
    cbn [template one_hot hidden_feature set_hidden_feature] in Htm, Hoh, Hh'.
    injection Hh' as <-.
    unfold FaceFormer_post_prediction in H.
    cbn [template predicted_vertices set_predicted_vertices set_hidden_feature] in H.
    rewrite Htm in H. cbn [getitem bind] in H.
    bind_named H pv Epv. injection H as <-.
    apply broadcast3_inv in Epv. destruct Epv as (B0 & _).
    cbn [dim0 as_leading1] in B0. rewrite P0, bdim_refl in B0. injection B0 as B0.
    exists h, oh, pv. cbn [predicted_vertices set_predicted_vertices].
    repeat split; try assumption; try congruence.
    destruct (seq_encoder_output s); cbn [getitem] in Eh; [congruence | discriminate].
  - destruct (@forward_autoregressive_trace s s' train Hfresh H)
      as (h & n & s1 & sN & Hh & _ & Hn & H1 & HN & Hpost).
    destruct (autoregressive_first_step_shapes _ H1)
      as (h' & oh & Hh' & Hoh & O0 & H0 & Tb).
    cbn [one_hot hidden_feature set_hidden_feature] in Hoh, Hh'.
    injection Hh' as <-.
    pose proof (@stepping_loop_inv attention self Hwf _ _ _ Hn HN) as St.
    destruct St as (_ & _ & _ & _ & _ & h2 & pvN & e & st
                    & _ & _ & Ip & _ & _ & P0 & _).
    unfold FaceFormer_post_prediction in Hpost.
    bind_named Hpost tmpl Et. bind_named Hpost pv0 Ep. bind_named Hpost pv Epv.
    injection Hpost as <-.
    rewrite Ip in Ep. cbn [getitem] in Ep. injection Ep as <-.
    apply broadcast3_inv in Epv. destruct Epv as (B0 & _).
    cbn [dim0 as_leading1] in B0. rewrite P0, bdim_refl in B0. injection B0 as B0.
    exists h, oh, pv. cbn [predicted_vertices set_predicted_vertices].
    repeat split; try assumption; congruence.
Qed.

End ForwardContract.

(** ** The teacher-forced pass through [forward] *)

Section ForcedRuns.

Local Open Scope R_scope.

Variable attention :
  tensor3 R -> tensor3 R -> tensor3 xreal -> tensor2 bool -> nat -> nat -> nat -> R.

Variable self : FaceFormerDecoder.
Variables F D K : nat.
Hypothesis Hwf : well_formed self.
Hypothesis Hshape : periodic_add_decoder self F D K.

(** [forward] with teacher forcing on one sequence of [T >= 1] ground-truth
    frames that the bias mask and the table cover: it returns, and the
    prediction is the output of the head on the attention stack, plus the
    template. *)
Lemma forward_teacher_forced_values (s : sample) (train : bool)
  (h : tensor3 R) (oh tmpl : tensor2 R) (gt : tensor3 R) (T : nat) :
  seq_encoder_output s = Some h -> one_hot s = Some oh ->
  template s = Some tmpl -> gt_vertices s = Some gt ->
  dim0 h = 1%nat -> dim2 h = F ->
  nrows oh = 1%nat -> ncols oh = K ->
  nrows tmpl = 1%nat -> ncols tmpl = D ->
  dim0 gt = 1%nat -> dim1 gt = T -> dim2 gt = D ->
  (1 <= T)%nat -> (T <= dim1 (biased_mask self))%nat ->
  (T <= PE_rows (PE self))%nat ->
  exists s' vin mm pv,
    FaceFormer_forward attention self s train true = Ok s'
    /\ predicted_vertices s' = Some pv
    /\ dim0 pv = 1%nat /\ dim1 pv = T /\ dim2 pv = D
    /\ dim0 vin = 1%nat /\ dim1 vin = T /\ dim2 vin = F
    /\ (forall r kk, (r < T)%nat -> (kk < F)%nat ->
          at3 vin 0 r kk =
          forced_row self oh tmpl gt r kk + at3 (PE_table (PE self)) 0 r kk)
    /\ Alignment.enc_dec_mask T (dim1 h) Alignment.default_dataset = Ok mm
    /\ forall r j, (r < T)%nat -> (j < D)%nat ->
         at3 pv 0 r j =
         Linear.apply_row (vertex_map self)
           (attention vin h (slice12 T T (biased_mask self)) mm 0%nat r) j
         + at2 tmpl 0 j.
Proof.
  intros Hh Hoh Htm Hgt Hh0 Hh2 Hoh0 Hoh1 Htm0 Htm1 Hgt0 Hgt1 Hgt2 HT Hmask Hrows.
  destruct (@teacher_forced_ok attention self F D K Hwf Hshape
              (set_hidden_feature s h) h oh tmpl gt T
              Hh0 Hh2 Hoh0 Hoh1 Htm0 Htm1 Hgt0 Hgt1 Hgt2
              eq_refl Hoh Htm Hgt HT Hmask Hrows)
    as (vin & out & mm & Hstep & V0 & V1 & V2 & Vv & Hmm & O0 & O1 & O2 & Ov).
  unfold FaceFormer_forward, forward. rewrite Hh. cbn [getitem].
  rewrite bind_Ok. cbv beta zeta.
  cbn [_teacher_forced_step _post_prediction FaceFormer_decoder].
  rewrite Hstep, bind_Ok. cbv beta.
  unfold FaceFormer_post_prediction.
  cbn [template predicted_vertices set_predicted_vertices set_hidden_feature].
  rewrite Htm. cbn [getitem]. rewrite !bind_Ok. cbv beta.
  destruct (@broadcast3_ex _ _ _ Rplus out (as_leading1 tmpl) 1%nat T D)
    as (pv & Hpv & P0 & P1 & P2 & Pv).
  { cbn [dim0 as_leading1]. rewrite O0. apply bdim_refl. }
  { cbn [dim1 as_leading1]. rewrite O1, Htm0. apply bdim_1_r. }
  { cbn [dim2 as_leading1]. rewrite O2, Htm1. apply bdim_refl. }
  rewrite Hpv, bind_Ok. cbv beta.
  eexists. exists vin, mm, pv. split; [reflexivity|].
  cbn [predicted_vertices set_predicted_vertices].
  repeat split; try assumption.
  intros r j Hr Hj. rewrite Pv. cbn [dim0 dim1 dim2 at3 as_leading1].
  rewrite O0, O1, O2, Htm0, Htm1.
  rewrite !bidx_1, (bidx_lt Hr), !(bidx_lt Hj), Ov. reflexivity.
Qed.

End ForcedRuns.

(** The demo decoder on a training sample, teacher forcing on. *)
Lemma demo_forward_teacher_forced (w : fresh_parameters) (self : FaceFormerDecoder)
  (S T : nat) (train : bool) :
  FaceFormerDecoder_init Demo.config w = Ok self ->
  1 <= T -> T <= 2 ->
  exists s', FaceFormer_forward Demo.pass_through self (Demo.training_sample S T)
               train true = Ok s'.
Proof.
  intros Hinit HT HT2.
  destruct (demo_decoder Hinit) as (Hwf & Hshape & Hmask & Hrows).
  destruct (@forward_teacher_forced_values Demo.pass_through self 2 3 1 Hwf Hshape
              (Demo.training_sample S T) train _ _ _ _ T
              eq_refl eq_refl eq_refl eq_refl
              eq_refl eq_refl eq_refl eq_refl eq_refl eq_refl
              eq_refl eq_refl eq_refl)
    as (s' & _ & _ & _ & Hs' & _); try lia.
  exists s'. exact Hs'.
Qed.

(** ** The contract of [forward] on the demo decoder *)

Lemma decode_returns_one_sequence_witness :
  exists self out,
    FaceFormerDecoder_init Demo.config Demo.zero_parameters = Ok self
    /\ _decode Demo.pass_through self (Demo.inference_sample 3)
         (T3 1 2 2 (fun _ _ _ => 0%R)) (T3 1 3 2 (fun _ _ _ => 0%R)) = Ok out
    /\ 2 = d_model self
    /\ 2 <= dim1 (biased_mask self)
    /\ 2 = Linear.in_features (vertex_map self)
    /\ dim0 out = 1 /\ dim1 out = 2
    /\ dim2 out = Linear.out_features (vertex_map self).
Proof.
  destruct (demo_init Demo.zero_parameters) as (self & Hinit).
  destruct (demo_decoder Hinit) as (Hwf & Hshape & Hmask & _).
  destruct (@decode_ok Demo.pass_through self 2 3 1 Hwf Hshape
              (Demo.inference_sample 3)
              (T3 1 2 2 (fun _ _ _ => 0%R)) (T3 1 3 2 (fun _ _ _ => 0%R))
              eq_refl eq_refl)
    as (out & Hd & _); [cbn [dim1]; rewrite Hmask; lia | reflexivity | reflexivity |].
  assert (Hv : 1 <= 2) by lia. assert (Hc : 1 <= 3) by lia.
  destruct (@decode_returns_one_sequence Demo.pass_through self Hwf
              (Demo.inference_sample 3)
              (T3 1 2 2 (fun _ _ _ => 0%R)) (T3 1 3 2 (fun _ _ _ => 0%R)) out
              Hv Hc Hd)
    as (_ & _ & V2 & _ & Hle & Hin & O0 & O1 & O2).
  exists self, out. split; [exact Hinit|]. split; [exact Hd|].
  repeat split; assumption.
Defined.

Lemma teacher_forced_output_length_witness :
  exists self s',
    FaceFormerDecoder_init Demo.config Demo.zero_parameters = Ok self
    /\ FaceFormer_forward Demo.pass_through self (Demo.training_sample 2 2) false true
       = Ok s'
    /\ exists h gt tmpl oh pv,
         seq_encoder_output (Demo.training_sample 2 2) = Some h
         /\ gt_vertices (Demo.training_sample 2 2) = Some gt
         /\ template (Demo.training_sample 2 2) = Some tmpl
         /\ one_hot (Demo.training_sample 2 2) = Some oh
         /\ s' = set_predicted_vertices
                   (set_hidden_feature (Demo.training_sample 2 2) h) pv
         /\ dim0 gt = 1 /\ nrows tmpl = 1 /\ nrows oh = 1
         /\ dim0 pv = 1
         /\ dim1 pv = Nat.max 1 (dim1 gt)
         /\ dim1 pv <= dim1 (biased_mask self).
Proof.
  destruct (demo_init Demo.zero_parameters) as (self & Hinit).
  destruct (demo_decoder Hinit) as (Hwf & _).
  destruct (@demo_forward_teacher_forced _ self 2 2 false Hinit) as (s' & Hs');
    [lia | lia |].
  exists self, s'. split; [exact Hinit|]. split; [exact Hs'|].
  exact (@teacher_forced_output_length Demo.pass_through self Hwf
           (Demo.training_sample 2 2) s' false Hs').
Defined.

Lemma forward_keeps_inputs_witness :
  exists self s',
    FaceFormerDecoder_init Demo.config Demo.zero_parameters = Ok self
    /\ FaceFormer_forward Demo.pass_through self (Demo.inference_sample 2) false false
       = Ok s'
    /\ seq_encoder_output s' = seq_encoder_output (Demo.inference_sample 2)
    /\ gt_vertices s' = gt_vertices (Demo.inference_sample 2)
    /\ template s' = template (Demo.inference_sample 2)
    /\ one_hot s' = one_hot (Demo.inference_sample 2)
    /\ hidden_feature s' = seq_encoder_output (Demo.inference_sample 2).
Proof.
  destruct (demo_init Demo.zero_parameters) as (self & Hinit).
  destruct (demo_decoder Hinit) as (Hwf & Hshape & Hmask & Hrows).
  destruct (@forward_autoregressive_ok Demo.pass_through self 2 3 1 Hwf Hshape
              (Demo.inference_sample 2) 2 false (demo_inference_batch 2))
    as (s' & Hs'); [simpl; rewrite Hmask; simpl; lia ..|].
  exists self, s'. split; [exact Hinit|]. split; [exact Hs'|].
  exact (@forward_keeps_inputs Demo.pass_through self Hwf
           (Demo.inference_sample 2) s' false false Hs').
Defined.

Lemma forward_needs_keys_witness :
  exists self,
    FaceFormerDecoder_init Demo.config Demo.zero_parameters = Ok self
    /\ (seq_encoder_output (Demo.inference_sample 2) = None ->
        forall teacher_forcing,
          FaceFormer_forward Demo.pass_through self (Demo.inference_sample 2)
            false teacher_forcing = Err KeyError)
    /\ (gt_vertices (Demo.inference_sample 2) = None ->
        FaceFormer_forward Demo.pass_through self (Demo.inference_sample 2)
          false true = Err KeyError)
    /\ (predicted_vertices (Demo.inference_sample 2) = None ->
        forall teacher_forcing s',
          FaceFormer_forward Demo.pass_through self (Demo.inference_sample 2)
            false teacher_forcing = Ok s' ->
          exists h tmpl oh,
            seq_encoder_output (Demo.inference_sample 2) = Some h
            /\ template (Demo.inference_sample 2) = Some tmpl
            /\ one_hot (Demo.inference_sample 2) = Some oh).
Proof.
  destruct (demo_init Demo.zero_parameters) as (self & Hinit).
  destruct (demo_decoder Hinit) as (Hwf & _).
  exists self. split; [exact Hinit|].
  exact (@forward_needs_keys Demo.pass_through self Hwf
           (Demo.inference_sample 2) false).
Defined.

Lemma forward_one_sequence_witness :
  exists self s',
    FaceFormerDecoder_init Demo.config Demo.zero_parameters = Ok self
    /\ FaceFormer_forward Demo.pass_through self (Demo.inference_sample 2) false false
       = Ok s'
    /\ exists h oh pv,
         seq_encoder_output (Demo.inference_sample 2) = Some h /\ dim0 h = 1
         /\ one_hot (Demo.inference_sample 2) = Some oh /\ nrows oh = 1
         /\ dim0 (PE_table (PE self)) = 1
         /\ predicted_vertices s' = Some pv /\ dim0 pv = 1.
Proof.
  destruct (demo_init Demo.zero_parameters) as (self & Hinit).
  destruct (demo_decoder Hinit) as (Hwf & Hshape & Hmask & Hrows).
  destruct (@forward_autoregressive_ok Demo.pass_through self 2 3 1 Hwf Hshape
              (Demo.inference_sample 2) 2 false (demo_inference_batch 2))
    as (s' & Hs'); [simpl; rewrite Hmask; simpl; lia ..|].
  exists self, s'. split; [exact Hinit|]. split; [exact Hs'|].
  exact (@forward_one_sequence Demo.pass_through self Hwf
           (Demo.inference_sample 2) s' false false eq_refl Hs').
Defined.

(** ** Limits of the stepping loop *)

Lemma for_range_prefix {S : Type} (a b : nat) (body : S -> nat -> result S) (s s' : S) :
  for_range (a + b) body s = Ok s' -> exists s1, for_range a body s = Ok s1.
Proof.
  induction b as [|b IH] in s' |- *; intros H.
  - rewrite Nat.add_0_r in H. exists s'. exact H.
  - rewrite Nat.add_succ_r in H. apply for_range_S_ok in H.
    destruct H as (s1 & H1 & _). exact (IH _ H1).
Qed.

(** Decoders built from a configuration with the periodic encoder. *)
Lemma periodic_cfg_init (c : cfg) (w : fresh_parameters) :
  pe_type (positional_encoding c) = "PeriodicPositionalEncoding"%string ->
  0 < feature_dim c -> Nat.even (feature_dim c) = true ->
  0 < default (pe_period (positional_encoding c)) 25 ->
  0 < nhead c -> 0 < period c ->
  exists self, FaceFormerDecoder_init c w = Ok self.
Proof.
  intros Hty Hd He Hp Hh Hper.
  unfold FaceFormerDecoder_init, positional_encoding_from_cfg.
  rewrite Hty. cbn [String.eqb Ascii.eqb Bool.eqb].
  destruct (@periodic_init_total (feature_dim c)
              (default (pe_period (positional_encoding c)) 25)
              (default (pe_max_seq_len (positional_encoding c)) 600)
              (default (pe_op (positional_encoding c)) "add"%string) Hd He Hp)
    as (p & Hpe).
  rewrite Hpe, !bind_Ok. cbv beta.
  destruct (@init_biased_mask_closed_form (nhead c) (max_len c) (period c) Hh Hper)
    as (_ & m & _ & _ & Hm & _).
  rewrite Hm, bind_Ok. eexists. reflexivity.
Qed.

(** Decoders built from a configuration with the monotonic encoder. *)
Lemma monotonic_cfg_init (c : cfg) (w : fresh_parameters) :
  pe_type (positional_encoding c) = "PositionalEncoding"%string ->
  0 < feature_dim c -> Nat.even (feature_dim c) = true ->
  0 < nhead c -> 0 < period c ->
  exists self, FaceFormerDecoder_init c w = Ok self.
Proof.
  intros Hty Hd He Hh Hper.
  unfold FaceFormerDecoder_init, positional_encoding_from_cfg.
  rewrite Hty. cbn [String.eqb Ascii.eqb Bool.eqb].
  destruct (@monotonic_init_total (feature_dim c)
              (default (pe_max_len (positional_encoding c)) 600)
              (default (pe_op (positional_encoding c)) "add"%string) Hd He)
    as (p & Hpe).
  rewrite Hpe, !bind_Ok. cbv beta.
  destruct (@init_biased_mask_closed_form (nhead c) (max_len c) (period c) Hh Hper)
    as (_ & m & _ & _ & Hm & _).
  rewrite Hm, bind_Ok. eexists. reflexivity.
Qed.

(** The encoder of a decoder configured with the monotonic class. *)
Lemma init_monotonic_table (c : cfg) (w : fresh_parameters) (self : FaceFormerDecoder) :
  FaceFormerDecoder_init c w = Ok self ->
  pe_type (positional_encoding c) = "PositionalEncoding"%string ->
  dim0 (PE_table (PE self)) = default (pe_max_len (positional_encoding c)) 600.
Proof.
  unfold FaceFormerDecoder_init. intros H Hty.
  bind_named H enc Eenc. bind_named H mask Emask. injection H as <-.
  cbn [PE]. unfold positional_encoding_from_cfg in Eenc.
  rewrite Hty in Eenc. cbn [String.eqb Ascii.eqb Bool.eqb] in Eenc.
  bind_named Eenc q Hq. injection Eenc as <-.
  destruct (monotonic_init_inv _ _ _ Hq) as (_ & H0 & _).
  exact H0.
Qed.

(** Sum mode of the periodic encoder on an input longer than its table. *)
Lemma periodic_add_overlong (p : PeriodicPositionalEncoding.t) (x : tensor3 R) :
  PE.op_is_add (PeriodicPositionalEncoding.op p) = true ->
  2 <= dim1 (PeriodicPositionalEncoding.pe p) ->
  dim1 (PeriodicPositionalEncoding.pe p) < dim1 x ->
  PeriodicPositionalEncoding.forward p x = Err RuntimeError.
Proof.
  intros Hop Hrows Hlen.
  unfold PeriodicPositionalEncoding.forward, PE.combine. rewrite Hop.
  unfold broadcast3. cbn [dim0 dim1 dim2 slice1].
  replace (Nat.min (dim1 x) (dim1 (PeriodicPositionalEncoding.pe p)))
    with (dim1 (PeriodicPositionalEncoding.pe p)) by lia.
  assert (Hb : bdim (dim1 x) (dim1 (PeriodicPositionalEncoding.pe p)) = None).
  { unfold bdim.
    destruct (Nat.eqb_spec (dim1 x) (dim1 (PeriodicPositionalEncoding.pe p))); [lia|].
    destruct (Nat.eqb_spec (dim1 x) 1); [lia|].
    destruct (Nat.eqb_spec (dim1 (PeriodicPositionalEncoding.pe p)) 1); [lia|].
    reflexivity. }
  rewrite Hb. destruct (bdim (dim0 x) _); reflexivity.
Qed.

Section LoopLimits.

Variable attention :
  tensor3 R -> tensor3 R -> tensor3 xreal -> tensor2 bool -> nat -> nat -> nat -> R.

(** [_decode] does not look at the sample. *)
Lemma decode_ignores_sample (self : FaceFormerDecoder) (s1 s2 : sample)
  (vin h : tensor3 R) :
  _decode attention self s1 vin h = _decode attention self s2 vin h.
Proof. reflexivity. Qed.

(** A step of the loop does not look at the ground truth. *)
Lemma autoregressive_step_ignores_gt (self : FaceFormerDecoder)
  (s : sample) (g : tensor3 R) (i : nat) :
  FaceFormer_autoregressive_step attention self (set_gt_vertices s g) i
  = on_ok (fun s' => set_gt_vertices s' g)
          (FaceFormer_autoregressive_step attention self s i).
Proof.
  unfold FaceFormer_autoregressive_step.
  cbn [hidden_feature one_hot embedded_output style_emb set_gt_vertices].
  destruct (getitem (hidden_feature s)) as [h|e]; cbn [bind on_ok]; [|reflexivity].
  destruct (i =? 0).
  - destruct (getitem (one_hot s)) as [oh|e]; cbn [bind on_ok]; [|reflexivity].
    destruct (Linear.forward2 (obj_vector self) oh) as [emb|e];
      cbn [bind on_ok]; [|reflexivity].
    destruct (PE_forward (PE self) (unsqueeze1 emb)) as [vin|e];
      cbn [bind on_ok]; [|reflexivity].
    rewrite (decode_ignores_sample self
               (set_style_emb (set_gt_vertices s g) (unsqueeze1 emb))
               (set_style_emb s (unsqueeze1 emb))).
    destruct (_decode attention self _ vin h) as [out|e];
      cbn [bind on_ok]; [|reflexivity].
    destruct (last1 out) as [l|e]; cbn [bind on_ok]; [|reflexivity].
    destruct (Linear.forward2 (vertice_map self) l) as [no|e];
      cbn [bind on_ok]; [|reflexivity].
    destruct (broadcast3 Rplus (unsqueeze1 no) (unsqueeze1 emb)) as [n2|e];
      cbn [bind on_ok]; [|reflexivity].
    destruct (cat1 (unsqueeze1 emb) n2) as [e2|e]; cbn [bind on_ok]; reflexivity.
  - destruct (getitem (embedded_output s)) as [ve|e]; cbn [bind on_ok]; [|reflexivity].
    destruct (getitem (style_emb s)) as [st|e]; cbn [bind on_ok]; [|reflexivity].
    destruct (PE_forward (PE self) ve) as [vin|e]; cbn [bind on_ok]; [|reflexivity].
    rewrite (decode_ignores_sample self (set_gt_vertices s g) s).
    destruct (_decode attention self _ vin h) as [out|e];
      cbn [bind on_ok]; [|reflexivity].
    destruct (last1 out) as [l|e]; cbn [bind on_ok]; [|reflexivity].
    destruct (Linear.forward2 (vertice_map self) l) as [no|e];
      cbn [bind on_ok]; [|reflexivity].
    destruct (broadcast3 Rplus (unsqueeze1 no) st) as [n2|e];
      cbn [bind on_ok]; [|reflexivity].
    destruct (cat1 ve n2) as [e2|e]; cbn [bind on_ok]; reflexivity.
Qed.

Lemma stepping_loop_ignores_gt (self : FaceFormerDecoder)
  (g : tensor3 R) (l : list nat) (s : sample) :
  for_each l (FaceFormer_autoregressive_step attention self) (set_gt_vertices s g)
  = on_ok (fun s' => set_gt_vertices s' g)
          (for_each l (FaceFormer_autoregressive_step attention self) s).
Proof.
  induction l as [|i l IH] in s |- *; [reflexivity|].
  cbn [for_each]. rewrite autoregressive_step_ignores_gt.
  destruct (FaceFormer_autoregressive_step attention self s i) as [s1|e];
    cbn [bind on_ok]; [apply IH | reflexivity].
Qed.

(** X24. In autoregressive mode the ground truth gives the number of
    frames and nothing else: replacing [gt_vertices] by any tensor with
    the same number of frames changes neither the exception raised nor any
    entry of the returned sample other than [gt_vertices] itself. *)
Theorem autoregressive_reads_gt_length_only
  (self : FaceFormerDecoder) (s : sample) (gt gt' : tensor3 R) (train : bool) :
  gt_vertices s = Some gt ->
  dim1 gt' = dim1 gt ->
  FaceFormer_forward attention self (set_gt_vertices s gt') train false
  = on_ok (fun s' => set_gt_vertices s' gt')
          (FaceFormer_forward attention self s train false).
Proof.
  intros Hgt Hlen. unfold FaceFormer_forward, forward.
  cbn [seq_encoder_output set_gt_vertices].
  destruct (getitem (seq_encoder_output s)) as [h|e]; cbn [bind on_ok]; [|reflexivity].
  cbn [_max_auto_regressive_steps _autoregressive_step _post_prediction
       FaceFormer_decoder].
  assert (Hreq : requested_frames (set_hidden_feature (set_gt_vertices s gt') h) h
                 = requested_frames (set_hidden_feature s h) h).
  { unfold requested_frames. cbn [gt_vertices set_hidden_feature set_gt_vertices].
    rewrite Hgt. exact Hlen. }
  rewrite Hreq. unfold for_range.
  change (set_hidden_feature (set_gt_vertices s gt') h)
    with (set_gt_vertices (set_hidden_feature s h) gt').
  rewrite stepping_loop_ignores_gt.
  destruct (for_each _ (FaceFormer_autoregressive_step attention self)
              (set_hidden_feature s h)) as [sN|e]; cbn [bind on_ok]; [|reflexivity].
  unfold FaceFormer_post_prediction.
  cbn [template predicted_vertices set_gt_vertices].
  destruct (getitem (template sN)) as [tmpl|e]; cbn [bind on_ok]; [|reflexivity].
  destruct (getitem (predicted_vertices sN)) as [pv|e]; cbn [bind on_ok]; [|reflexivity].
  destruct (broadcast3 Rplus pv (as_leading1 tmpl)) as [pv'|e];
    cbn [bind on_ok]; reflexivity.
Qed.

(** X25. The stepping loop is cut to the side of the bias mask, not to
    the positional table.  With the periodic encoder in sum mode and a
    table of [R >= 2] rows, an autoregressive call that asks for more than
    [R] frames (after the cut to the mask) never returns: round [R] of the
    loop hands [R + 1] positions to the encoder, which raises. *)
Theorem autoregressive_outruns_positional_table
  (self : FaceFormerDecoder) (F D K : nat) (s : sample) (h : tensor3 R)
  (train : bool) :
  well_formed self ->
  periodic_add_decoder self F D K ->
  seq_encoder_output s = Some h ->
  2 <= PE_rows (PE self) ->
  PE_rows (PE self) < Nat.min (requested_frames s h) (dim1 (biased_mask self)) ->
  is_ok (FaceFormer_forward attention self s train false) = false.
Proof.
  intros Hwf Hshape Hh Hrows Hlong.
  destruct (FaceFormer_forward attention self s train false) as [s'|e] eqn:H;
    [|reflexivity].
  exfalso. unfold FaceFormer_forward, forward in H.
  rewrite Hh in H. cbn [getitem] in H. rewrite bind_Ok in H. cbv beta zeta in H.
  bind_named H sN EN.
  cbn [_max_auto_regressive_steps _autoregressive_step FaceFormer_decoder] in EN.
  unfold FaceFormer_max_auto_regressive_steps in EN.
  change (requested_frames (set_hidden_feature s h) h)
    with (requested_frames s h) in EN.
  set (n := Nat.min (requested_frames s h) (dim1 (biased_mask self))) in *.
  set (R := PE_rows (PE self)) in *.
  replace n with (S R + (n - S R)) in EN by lia.
  apply for_range_prefix in EN. destruct EN as (s2 & E2).
  apply for_range_S_ok in E2. destruct E2 as (sR & ER & Estep).
  pose proof (@stepping_loop_inv attention self Hwf _ _ R ltac:(lia) ER) as St.
  destruct St as (_ & I2 & _ & _ & _ & h' & pv & e & st
                  & Ih & _ & _ & Ie & Ist & _ & _ & _ & Ielen & _).
  unfold FaceFormer_autoregressive_step in Estep.
  rewrite I2, Ih in Estep. cbn [getitem] in Estep.
  rewrite bind_Ok in Estep. cbv beta in Estep.
  destruct (Nat.eqb_spec R 0) as [HR0|_]; [lia|].
  rewrite Ie, Ist in Estep. cbn [getitem] in Estep.
  rewrite !bind_Ok in Estep. cbv beta in Estep.
  destruct Hshape as (p & HPE & Hop & _).
  assert (Hfail : PE_forward (PE self) e = Err RuntimeError).
  { rewrite HPE. cbn [PE_forward]. apply periodic_add_overlong.
    - exact Hop.
    - unfold R in Hrows. rewrite HPE in Hrows. exact Hrows.
    - unfold R in Ielen. rewrite HPE in Ielen. cbn [PE_rows] in Ielen. lia. }
  rewrite Hfail in Estep. discriminate Estep.
Qed.

(** X26. A decoder configured with the monotonic [PositionalEncoding]
    completes no call of [forward] unless its [max_len] is 1: the encoder
    returns one sequence per table position, and the attention stack
    accepts the bias mask for a single sequence only.  This holds in both
    modes, on every sample without an earlier prediction. *)
Theorem monotonic_decoder_never_returns
  (c : cfg) (w : fresh_parameters) (self : FaceFormerDecoder)
  (s : sample) (train teacher_forcing : bool) :
  FaceFormerDecoder_init c w = Ok self ->
  pe_type (positional_encoding c) = "PositionalEncoding"%string ->
  default (pe_max_len (positional_encoding c)) 600 <> 1 ->
  predicted_vertices s = None ->
  is_ok (FaceFormer_forward attention self s train teacher_forcing) = false.
Proof.
  intros Hinit Hty Hlen Hfresh.
  destruct (FaceFormerDecoder_init_inv _ _ Hinit) as (Hwf & _).
  pose proof (init_monotonic_table _ _ Hinit Hty) as Htab.
  destruct (FaceFormer_forward attention self s train teacher_forcing)
    as [s'|e] eqn:H; [|reflexivity].
  exfalso. apply Hlen. rewrite <- Htab. destruct teacher_forcing.
  - unfold FaceFormer_forward, forward in H.
    bind_named H h Eh. cbv zeta in H. bind_named H s1 E1.
    cbn [_teacher_forced_step FaceFormer_decoder] in E1.
    destruct (@teacher_forced_step_shapes attention self Hwf _ _ E1)
      as (gt & tmpl & h' & oh & out & _ & _ & _ & _ & _ & _ & _ & _ & _ & Tb & _).
    exact Tb.
  - destruct (@forward_autoregressive_trace attention self s s' train Hfresh H)
      as (h & n & s1 & sN & _ & _ & _ & H1 & _).
    destruct (@autoregressive_first_step_shapes attention self Hwf _ _ H1)
      as (h' & oh & _ & _ & _ & _ & Tb).
    exact Tb.
Qed.

End LoopLimits.

Lemma autoregressive_reads_gt_length_only_witness :
  exists self,
    FaceFormerDecoder_init Demo.config Demo.trained_parameters = Ok self
    /\ FaceFormer_forward Demo.pass_through self
         (set_gt_vertices (Demo.training_sample 3 2) (T3 1 2 3 (fun _ _ _ => 7%R)))
         false false
       = on_ok (fun s' => set_gt_vertices s' (T3 1 2 3 (fun _ _ _ => 7%R)))
               (FaceFormer_forward Demo.pass_through self
                  (Demo.training_sample 3 2) false false).
Proof.
  destruct (demo_init Demo.trained_parameters) as (self & Hinit).
  exists self. split; [exact Hinit|].
  exact (@autoregressive_reads_gt_length_only Demo.pass_through self
           (Demo.training_sample 3 2)
           _ (T3 1 2 3 (fun _ _ _ => 7%R)) false eq_refl eq_refl).
Defined.

Lemma autoregressive_outruns_positional_table_witness :
  exists self,
    FaceFormerDecoder_init Examples.short_table_config Demo.zero_parameters = Ok self
    /\ PE_rows (PE self) = 2
    /\ dim1 (biased_mask self) = 5
    /\ is_ok (FaceFormer_forward Demo.pass_through self (Demo.inference_sample 4)
                false false) = false.
Proof.
  destruct (@periodic_cfg_init Examples.short_table_config Demo.zero_parameters)
    as (self & Hinit); [reflexivity | cbn; lia | reflexivity | cbn; lia ..|].
  destruct (FaceFormerDecoder_init_inv _ _ Hinit) as (Hwf & Hm & _).
  destruct (init_periodic_shapes _ _ Hinit eq_refl eq_refl) as (Hshape & Hr).
  exists self. split; [exact Hinit|]. split; [exact Hr|]. split; [exact Hm|].
  apply (@autoregressive_outruns_positional_table Demo.pass_through self _ _ _
           (Demo.inference_sample 4) _ false Hwf Hshape eq_refl).
  - rewrite Hr. cbn. lia.
  - rewrite Hr, Hm. cbn. lia.
Defined.

Lemma monotonic_decoder_never_returns_witness :
  exists self,
    FaceFormerDecoder_init Examples.monotonic_config Demo.zero_parameters = Ok self
    /\ is_ok (FaceFormer_forward Demo.pass_through self (Demo.inference_sample 2)
                false false) = false.
Proof.
  destruct (@monotonic_cfg_init Examples.monotonic_config Demo.zero_parameters)
    as (self & Hinit); [reflexivity | cbn; lia | reflexivity | cbn; lia ..|].
  exists self. split; [exact Hinit|].
  apply (@monotonic_decoder_never_returns Demo.pass_through Examples.monotonic_config
           Demo.zero_parameters self (Demo.inference_sample 2) false false Hinit
           eq_refl); [cbn; lia | reflexivity].
Defined.

(** ** Causality: what a predicted frame depends on *)

Section CausalRuns.

Local Open Scope R_scope.

Variable attention :
  tensor3 R -> tensor3 R -> tensor3 xreal -> tensor2 bool -> nat -> nat -> nat -> R.

Variable self : FaceFormerDecoder.
Variables F D K : nat.
Hypothesis Hwf : well_formed self.
Hypothesis Hshape : periodic_add_decoder self F D K.

(** One round of the stepping loop on one sequence, with the values it
    computes: the round reads a running sequence of [i + 1] entries, and
    leaves one that starts with the same [i + 1] entries. *)
Lemma autoregressive_step_values (s : sample) (S i : nat) (h : tensor3 R) :
  batch_of_one s F D K S ->
  hidden_feature s = Some h -> dim0 h = 1%nat -> dim2 h = F ->
  (i + 1 <= dim1 (biased_mask self))%nat ->
  (i + 1 <= PE_rows (PE self))%nat ->
  (i = 0%nat \/ exists e p, stepped_state attention self F D h i s e p) ->
  exists s' e' p' st',
    FaceFormer_autoregressive_step attention self s i = Ok s'
    /\ stepped_state attention self F D h (i + 1) s' e' p'
    /\ (forall e, i <> 0%nat -> embedded_output s = Some e ->
          forall r kk, (r <= i)%nat -> (kk < F)%nat ->
                       at3 e' 0 r kk = at3 e 0 r kk)
    /\ style_emb s' = Some st'
    /\ (forall kk, (kk < F)%nat ->
          at3 e' 0 (i + 1) kk
          = Linear.apply_row (vertice_map self) (at3 p' 0 i) kk + at3 st' 0 0 kk)
    /\ (i = 0%nat ->
        forall oh, one_hot s = Some oh ->
        forall kk, (kk < F)%nat ->
          at3 st' 0 0 kk = style_row self oh kk
          /\ at3 e' 0 0 kk = at3 st' 0 0 kk)
    /\ (i <> 0%nat -> style_emb s = Some st').
Proof.
  intros Hb Hh H0 H2 Hmask Hrows Hi.
  pose proof Hb as (h0 & oh & tmpl & _ & _ & _ & _ & Hoh & Or & Oc & _).
  pose proof Hshape as (q & _ & _ & _ & _ & Dm & MI & MO & OI & OO & VI & VO).
  unfold FaceFormer_autoregressive_step. rewrite Hh. cbn [getitem].
  rewrite bind_Ok. cbv beta.
  match goal with |- context [bind ?r _] => set (pre := r) end.
  assert (Hpre : exists s1 ve st vin,
             pre = Ok (s1, ve, st, vin)
             /\ hidden_feature s1 = Some h
             /\ style_emb s1 = Some st
             /\ dim0 ve = 1%nat /\ dim1 ve = (i + 1)%nat /\ dim2 ve = F
             /\ dim0 st = 1%nat /\ dim1 st = 1%nat /\ dim2 st = F
             /\ dim0 vin = 1%nat /\ dim1 vin = (i + 1)%nat /\ dim2 vin = F
             /\ (forall r kk, (r <= i)%nat -> (kk < F)%nat ->
                   at3 vin 0 r kk
                   = at3 ve 0 r kk + at3 (PE_table (PE self)) 0 r kk)
             /\ (i <> 0%nat -> embedded_output s = Some ve)
             /\ (i = 0%nat -> ve = st
                              /\ forall kk, at3 st 0 0 kk = style_row self oh kk)
             /\ (i <> 0%nat -> style_emb s = Some st)).
  { subst pre. destruct (Nat.eqb_spec i 0) as [->|Hne].
    - rewrite Hoh. cbn [getitem]. rewrite bind_Ok. cbv beta.
      destruct (@forward2_ok (obj_vector self) oh) as (emb & Hemb & Em0 & Em1 & Emv);
        [congruence|].
      rewrite Hemb, bind_Ok. cbv beta zeta.
      destruct (@PE_add_ok self F D K Hshape (unsqueeze1 emb))
        as (vin & Hvin & V0 & V1 & V2 & Vv);
        [cbn [dim1 unsqueeze1]; lia | cbn [dim2 unsqueeze1]; congruence |].
      rewrite Hvin, bind_Ok. cbv beta.
      cbn [dim0 dim1 dim2 unsqueeze1] in V0, V1, V2, Vv.
      do 4 eexists. split; [reflexivity|].
      cbn [hidden_feature style_emb set_style_emb dim0 dim1 dim2 unsqueeze1].
      repeat split; try congruence; try lia.
      + intros r kk Hr Hk. assert (r = 0)%nat by lia. subst r.
        apply Vv; lia.
      + intros kk. cbn [at3 unsqueeze1]. rewrite Emv. reflexivity.
    - destruct Hi as [?|(e & p & St)]; [contradiction|].
      destruct St as (_ & He & E0 & E1 & E2 & (st & Hst & S0 & S1 & S2) & _).
      rewrite He, Hst. cbn [getitem]. rewrite !bind_Ok. cbv beta.
      destruct (@PE_add_ok self F D K Hshape e) as (vin & Hvin & V0 & V1 & V2 & Vv);
        [lia | assumption |].
      rewrite Hvin, bind_Ok. cbv beta.
      do 4 eexists. split; [reflexivity|].
      repeat split; try congruence; try assumption.
      intros r kk Hr Hk. apply Vv; lia. }
  destruct Hpre as (s1 & ve & st & vin & Hpre & Hh1 & Hst1
                    & E0 & E1 & E2 & S0 & S1 & S2 & V0 & V1 & V2 & Vv & Hve
                    & Hst0 & Hstk).
  rewrite Hpre, bind_Ok. cbv beta iota.
  destruct (@decode_values attention self F D K Hwf Hshape s1 vin h)
    as (out & mm & Hout & Hmm & O0 & O1 & O2 & Ov);
    try assumption; try lia.
  rewrite Hout, bind_Ok. cbv beta zeta.
  unfold last1. destruct (Nat.eqb_spec (dim1 out) 0) as [|_]; [lia|].
  rewrite bind_Ok. cbv beta.
  set (lst := T2 (dim0 out) (dim2 out) (fun b k => at3 out b (dim1 out - 1) k)).
  destruct (@forward2_ok (vertice_map self) lst) as (no & Hno & N0 & N1 & Nv);
    [subst lst; cbn [ncols]; congruence|].
  rewrite Hno, bind_Ok. cbv beta zeta.
  assert (L0 : nrows lst = dim0 out) by reflexivity.
  destruct (@broadcast3_ex _ _ _ Rplus (unsqueeze1 no) st 1%nat 1%nat F)
    as (new & Hnew & W0 & W1 & W2 & Wv).
  { cbn [dim0 unsqueeze1]. rewrite N0, L0, O0, S0. apply bdim_refl. }
  { cbn [dim1 unsqueeze1]. rewrite S1. apply bdim_refl. }
  { cbn [dim2 unsqueeze1]. rewrite N1, MO, S2. apply bdim_refl. }
  rewrite Hnew, bind_Ok. cbv beta.
  destruct (@cat1_ok _ ve new) as (e' & He' & Z0 & Z1 & Z2 & Zv); [congruence ..|].
  rewrite He', bind_Ok. cbv beta.
  rewrite V1 in *.
  assert (Hrows' : forall r kk, (r <= i)%nat -> at3 e' 0%nat r kk = at3 ve 0%nat r kk).
  { intros r kk Hr. rewrite Zv, E1.
    destruct (Nat.ltb_spec r (i + 1)); [reflexivity | lia]. }
  exists (set_embedded_output (set_predicted_vertices s1 out) e'), e', out, st.
  split; [reflexivity|]. split; [|split; [|split; [|split; [|split]]]].
  - unfold stepped_state.
    cbn [hidden_feature embedded_output style_emb predicted_vertices
         set_embedded_output set_predicted_vertices].
    split; [exact Hh1|]. split; [reflexivity|].
    split; [congruence|]. split; [rewrite Z1, E1, W1; lia|]. split; [congruence|].
    split; [exists st; repeat split; assumption|].
    split; [reflexivity|]. split; [exact O0|]. split; [exact O1|].
    split; [exact O2|].
    exists vin, mm. repeat split; try assumption.
    intros r kk Hr Hk. rewrite Vv by lia. rewrite Hrows' by lia. reflexivity.
  - intros e Hi0 He r kk Hr Hk.
    rewrite (Hve Hi0) in He. injection He as <-. apply Hrows'. exact Hr.
  - cbn [style_emb set_embedded_output set_predicted_vertices]. exact Hst1.
  - intros kk Hk. rewrite Zv, E1.
    destruct (Nat.ltb_spec (i + 1) (i + 1)); [lia|].
    rewrite Nat.sub_diag, Wv. cbn [dim0 dim1 dim2 at3 unsqueeze1].
    rewrite N0, L0, O0, N1, MO, S0, S1, S2, !bidx_1, !(bidx_lt Hk).
    rewrite Nv. f_equal. subst lst. cbn [at2].
    apply apply_row_ext. intros d Hd. rewrite O1.
    replace (i + 1 - 1)%nat with i by lia. reflexivity.
  - intros Hi0 oh' Hoh' kk Hk.
    rewrite Hoh in Hoh'. injection Hoh' as <-.
    destruct (Hst0 Hi0) as (Hves & Hsv).
    split; [apply Hsv|].
    rewrite Hrows' by lia. rewrite Hves. reflexivity.
  - exact Hstk.
Qed.

Variable s : sample.
Variable S : nat.
Variable h : tensor3 R.
Hypothesis Hb : batch_of_one s F D K S.
Hypothesis Hh : hidden_feature s = Some h.
Hypothesis Hh0 : dim0 h = 1%nat.
Hypothesis Hh2 : dim2 h = F.

(** The loop after [m >= 1] rounds that the bias mask and the table
    cover. *)
Lemma stepping_loop_values (m : nat) :
  (1 <= m)%nat -> (m <= dim1 (biased_mask self))%nat ->
  (m <= PE_rows (PE self))%nat ->
  exists sm e p,
    for_range m (FaceFormer_autoregressive_step attention self) s = Ok sm
    /\ stepped_state attention self F D h m sm e p.
Proof.
  induction m as [|m IH]; intros Hm Hmask Hrows; [lia|].
  destruct m as [|m].
  - destruct (@autoregressive_step_values s S 0 h Hb Hh Hh0 Hh2)
      as (s' & e' & p' & st' & Hs' & St & _); try lia.
    exists s', e', p'. rewrite for_range_1. split; assumption.
  - destruct IH as (sm & e & p & Hsm & St); try lia.
    destruct (@stepping_loop_keeps attention self _ _ _ Hsm)
      as (K1 & K2 & K3 & K4 & K5).
    destruct (@autoregressive_step_values sm S (Datatypes.S m) h)
      as (s' & e' & p' & st' & Hs' & St' & _); try assumption; try lia.
    { destruct Hb as (h0 & oh & tmpl & B).
      exists h0, oh, tmpl. rewrite K1, K5, K4. exact B. }
    { destruct St as (St & _). exact St. }
    { right. exists e, p. exact St. }
    exists s', e', p'. rewrite for_range_S, Hsm, bind_Ok.
    replace (Datatypes.S (Datatypes.S m)) with (Datatypes.S m + 1)%nat by lia.
    split; assumption.
Qed.

(** Going on from [k] rounds to [m >= k] rounds leaves the first [k + 1]
    entries of the running sequence as they are. *)
Lemma stepping_loop_extends (k m : nat) (stk : sample) (ek pk : tensor3 R) :
  (1 <= k)%nat -> (k <= m)%nat -> (m <= dim1 (biased_mask self))%nat ->
  (m <= PE_rows (PE self))%nat ->
  for_range k (FaceFormer_autoregressive_step attention self) s = Ok stk ->
  stepped_state attention self F D h k stk ek pk ->
  exists sm em pm,
    for_range m (FaceFormer_autoregressive_step attention self) s = Ok sm
    /\ stepped_state attention self F D h m sm em pm
    /\ forall r kk, (r <= k)%nat -> (kk < F)%nat -> at3 em 0 r kk = at3 ek 0 r kk.
Proof.
  intros Hk Hkm Hmask Hrows Hrun St.
  induction m as [|m IH]; [lia|].
  destruct (Nat.eq_dec k (Datatypes.S m)) as [<-|Hne].
  - exists stk, ek, pk. split; [exact Hrun|]. split; [exact St|]. reflexivity.
  - destruct IH as (sm & em & pm & Hsm & Stm & Hag); try lia.
    destruct (@stepping_loop_keeps attention self _ _ _ Hsm)
      as (K1 & K2 & K3 & K4 & K5).
    destruct (@autoregressive_step_values sm S m h)
      as (s' & e' & p' & st' & Hs' & St' & Hext & _); try assumption; try lia.
    { destruct Hb as (h0 & oh & tmpl & B).
      exists h0, oh, tmpl. rewrite K1, K5, K4. exact B. }
    { destruct Stm as (Stm & _). exact Stm. }
    { right. exists em, pm. exact Stm. }
    exists s', e', p'. rewrite for_range_S, Hsm, bind_Ok.
    replace (Datatypes.S m) with (m + 1)%nat by lia.
    split; [exact Hs'|]. split; [exact St'|].
    intros r kk Hr Hkk.
    destruct Stm as (_ & Hem & _).
    rewrite (Hext em ltac:(lia) Hem r kk ltac:(lia) Hkk).
    apply Hag; assumption.
Qed.

End CausalRuns.

Section CausalClaims.

Local Open Scope R_scope.

Variable attention :
  tensor3 R -> tensor3 R -> tensor3 xreal -> tensor2 bool -> nat -> nat -> nat -> R.

Variable self : FaceFormerDecoder.
Variables F D K : nat.
Hypothesis Hwf : well_formed self.
Hypothesis Hshape : periodic_add_decoder self F D K.
Hypothesis Hcausal : causal_attention attention.
Hypothesis Hfuture : future_masked (biased_mask self).

(** Two decoder inputs that agree on their first [n] positions give the
    same first [n] frames. *)
Lemma causal_prefix (vin vin' h : tensor3 R) (n : nat) (mm mm' : tensor2 bool) :
  dim0 vin = 1%nat -> dim0 vin' = 1%nat -> dim2 vin = F -> dim2 vin' = F ->
  (n <= dim1 vin)%nat -> (n <= dim1 vin')%nat ->
  (forall r kk, (r < n)%nat -> (kk < F)%nat -> at3 vin' 0 r kk = at3 vin 0 r kk) ->
  Alignment.enc_dec_mask (dim1 vin) (dim1 h) Alignment.default_dataset = Ok mm ->
  Alignment.enc_dec_mask (dim1 vin') (dim1 h) Alignment.default_dataset = Ok mm' ->
  forall r j, (r < n)%nat ->
    Linear.apply_row (vertex_map self)
      (attention vin' h (slice12 (dim1 vin') (dim1 vin') (biased_mask self)) mm'
         0%nat r) j
    = Linear.apply_row (vertex_map self)
        (attention vin h (slice12 (dim1 vin) (dim1 vin) (biased_mask self)) mm
           0%nat r) j.
Proof.
  intros V0 V0' V2 V2' Hn Hn' Hag Hmm Hmm' r j Hr.
  pose proof Hshape as (q & _ & _ & _ & _ & _ & _ & _ & _ & _ & VI & _).
  apply apply_row_ext. intros k Hk. rewrite VI in Hk.
  destruct (enc_dec_mask_vocaset (dim1 vin) (dim1 h)) as (m1 & Hm1 & _ & _ & M1).
  destruct (enc_dec_mask_vocaset (dim1 vin') (dim1 h)) as (m2 & Hm2 & _ & _ & M2).
  rewrite Hmm in Hm1. injection Hm1 as <-.
  rewrite Hmm' in Hm2. injection Hm2 as <-.
  pose proof (Hcausal vin vin' h
                (slice12 (dim1 vin) (dim1 vin) (biased_mask self))
                (slice12 (dim1 vin') (dim1 vin') (biased_mask self)) mm mm') as C.
  apply (C n);
    try congruence; try lia.
  - intros b' r' k' Hb' Hr' Hk'.
    assert (b' = 0)%nat by lia. subst b'. apply Hag; [assumption | congruence].
  - reflexivity.
  - reflexivity.
  - intros h' r' c' Hh' Hr' Hle Hc'. cbn [dim0 dim2 slice12 at3] in Hc', Hh' |- *.
    apply Hfuture; lia.
  - intros h' r' c' Hh' Hr' Hle Hc'. cbn [dim0 dim2 slice12 at3] in Hc', Hh' |- *.
    apply Hfuture; lia.
  - intros r' c' Hr' Hc'. rewrite M1, M2.
    destruct (Nat.eqb_spec r' c') as [->|]; [|reflexivity].
    cbn [andb negb].
    destruct (Nat.ltb_spec c' (Nat.min (dim1 vin') (dim1 h))),
             (Nat.ltb_spec c' (Nat.min (dim1 vin) (dim1 h))); try reflexivity; lia.
Qed.

(** [_post_prediction] on one sequence. *)
Lemma post_prediction_values (s : sample) (tmpl : tensor2 R) (p : tensor3 R) (n : nat) :
  template s = Some tmpl -> nrows tmpl = 1%nat -> ncols tmpl = D ->
  predicted_vertices s = Some p ->
  dim0 p = 1%nat -> dim1 p = n -> dim2 p = D ->
  exists pv,
    FaceFormer_post_prediction self s = Ok (set_predicted_vertices s pv)
    /\ dim0 pv = 1%nat /\ dim1 pv = n /\ dim2 pv = D
    /\ forall r j, (r < n)%nat -> (j < D)%nat ->
         at3 pv 0 r j = at3 p 0 r j + at2 tmpl 0 j.
Proof.
  intros Htm T0 T1 Hp P0 P1 P2.
  unfold FaceFormer_post_prediction. rewrite Htm, Hp. cbn [getitem].
  rewrite !bind_Ok. cbv beta.
  destruct (@broadcast3_ex _ _ _ Rplus p (as_leading1 tmpl) 1%nat n D)
    as (pv & Hpv & Q0 & Q1 & Q2 & Qv).
  { cbn [dim0 as_leading1]. rewrite P0. apply bdim_refl. }
  { cbn [dim1 as_leading1]. rewrite P1, T0. apply bdim_1_r. }
  { cbn [dim2 as_leading1]. rewrite P2, T1. apply bdim_refl. }
  rewrite Hpv, bind_Ok. cbv beta.
  exists pv. split; [reflexivity|]. repeat split; try assumption.
  intros r j Hr Hj. rewrite Qv. cbn [dim0 dim1 dim2 at3 as_leading1].
  rewrite P0, P1, P2, T0, T1.
  rewrite !bidx_1, (bidx_lt Hr), !(bidx_lt Hj). reflexivity.
Qed.

(** X27. Teacher forcing does not look ahead.  With a causal attention
    stack, on one sequence with a non-empty conditioning and [T]
    ground-truth frames, frame [t] of the
    teacher-forced prediction depends on the ground-truth frames before
    [t] only: a second ground truth of the same shape that agrees with the
    first on the frames before [t] gives the same predicted frames
    [0 .. t].  In particular the last ground-truth frame is never
    read. *)
Theorem teacher_forced_no_lookahead
  (s : sample) (train : bool) (S T t : nat) (gt gt' : tensor3 R) :
  batch_of_one s F D K S -> (1 <= S)%nat ->
  gt_vertices s = Some gt ->
  dim0 gt = 1%nat -> dim1 gt = T -> dim2 gt = D ->
  dim0 gt' = 1%nat -> dim1 gt' = T -> dim2 gt' = D ->
  (T <= dim1 (biased_mask self))%nat -> (T <= PE_rows (PE self))%nat ->
  (t < T)%nat ->
  (forall r k, (r < t)%nat -> (k < D)%nat -> at3 gt' 0 r k = at3 gt 0 r k) ->
  exists s1 s2 pv pv',
    FaceFormer_forward attention self s train true = Ok s1
    /\ FaceFormer_forward attention self (set_gt_vertices s gt') train true = Ok s2
    /\ predicted_vertices s1 = Some pv /\ predicted_vertices s2 = Some pv'
    /\ dim1 pv = T /\ dim1 pv' = T
    /\ forall r j, (r <= t)%nat -> (j < D)%nat -> at3 pv' 0 r j = at3 pv 0 r j.
Proof.
  intros Hb _ Hgt G0 G1 G2 G0' G1' G2' Hmask Hrows Ht Hag.
  destruct Hb as (h & oh & tmpl & Hh & H0 & _ & H2 & Hoh & O0 & O1 & Htm & T0 & T1).
  pose proof Hshape as (q & _ & _ & _ & _ & _ & MI & _).
  destruct (@forward_teacher_forced_values attention self F D K Hwf Hshape
              s train h oh tmpl gt T Hh Hoh Htm Hgt H0 H2 O0 O1 T0 T1 G0 G1 G2)
    as (s1 & vin & mm & pv & Hs1 & Hpv & P0 & P1 & P2 & V0 & V1 & V2 & Vv & Hmm & Pv);
    try lia.
  destruct (@forward_teacher_forced_values attention self F D K Hwf Hshape
              (set_gt_vertices s gt') train h oh tmpl gt' T
              Hh Hoh Htm eq_refl H0 H2 O0 O1 T0 T1 G0' G1' G2')
    as (s2 & vin' & mm' & pv' & Hs2 & Hpv' & P0' & P1' & P2' & V0' & V1' & V2' & Vv'
        & Hmm' & Pv');
    try lia.
  exists s1, s2, pv, pv'. repeat split; try assumption.
  intros r j Hr Hj. rewrite Pv, Pv' by (try assumption; lia). f_equal.
  pose proof (@causal_prefix vin vin' h (t + 1)%nat mm mm' V0 V0' V2 V2') as C.
  rewrite V1, V1' in C. apply C; try assumption; try lia.
  intros r' kk Hr' Hkk. rewrite Vv, Vv' by (try assumption; lia). f_equal.
  unfold forced_row, embedded_frame. f_equal.
  apply apply_row_ext. intros d Hd. rewrite MI in Hd.
  destruct (r' <? 1)%nat eqn:E; [reflexivity|].
  apply Nat.ltb_ge in E. rewrite Hag by (try assumption; lia). reflexivity.
Qed.

(** X28. The stepping loop never revises a frame.  With a causal
    attention stack, on one sequence with a non-empty conditioning, an
    autoregressive call for [k]
    frames returns the first [k] frames of the call for [N >= k] frames
    (the number of frames being set by the length of [gt_vertices]): what
    round [k] predicts for the frames [0 .. k - 1] is what every later
    round predicts for them. *)
Theorem autoregressive_frames_are_final
  (s : sample) (train : bool) (S k N : nat) (gt gt' : tensor3 R) :
  batch_of_one s F D K S -> (1 <= S)%nat ->
  gt_vertices s = Some gt -> dim1 gt = N -> dim1 gt' = k ->
  (1 <= k)%nat -> (k <= N)%nat ->
  (N <= dim1 (biased_mask self))%nat -> (N <= PE_rows (PE self))%nat ->
  exists s1 s2 pv pv',
    FaceFormer_forward attention self s train false = Ok s1
    /\ FaceFormer_forward attention self (set_gt_vertices s gt') train false = Ok s2
    /\ predicted_vertices s1 = Some pv /\ predicted_vertices s2 = Some pv'
    /\ dim1 pv = N /\ dim1 pv' = k
    /\ forall r j, (r < k)%nat -> (j < D)%nat -> at3 pv' 0 r j = at3 pv 0 r j.
Proof.
  intros Hb _ Hgt Gn Gk Hk HkN Hmask Hrows.
  pose proof Hb as (h & oh & tmpl & Hh & H0 & H1 & H2 & Hoh & O0 & O1 & Htm & T0 & T1).
  set (s0 := set_hidden_feature s h).
  assert (Hb0 : batch_of_one s0 F D K S).
  { exists h, oh, tmpl. subst s0.
    cbn [seq_encoder_output one_hot template set_hidden_feature].
    repeat split; assumption. }
  destruct (@stepping_loop_values attention self F D K Hwf Hshape s0 S h
              Hb0 eq_refl H0 H2 k Hk ltac:(lia) ltac:(lia))
    as (sk & ek & pk & Hsk & Stk).
  destruct (@stepping_loop_extends attention self F D K Hwf Hshape s0 S h
              Hb0 H0 H2 k N sk ek pk Hk HkN Hmask Hrows Hsk Stk)
    as (sN & eN & pN & HsN & StN & Hext).
  destruct (@stepping_loop_keeps attention self _ _ _ Hsk) as (_ & _ & _ & Kt & _).
  destruct (@stepping_loop_keeps attention self _ _ _ HsN) as (_ & _ & _ & Nt & _).
  subst s0. cbn [template set_hidden_feature] in Kt, Nt.
  pose proof Stk as (_ & _ & _ & _ & _ & _ & Hpk & Pk0 & Pk1 & Pk2
                     & vk & mk & Vk0 & Vk1 & Vk2 & Vkv & Hmk & Pkv).
  pose proof StN as (_ & _ & _ & _ & _ & _ & HpN & PN0 & PN1 & PN2
                     & vN & mN & VN0 & VN1 & VN2 & VNv & HmN & PNv).
  assert (HtN : template sN = Some tmpl) by congruence.
  assert (Htk : template (set_gt_vertices sk gt') = Some tmpl)
    by (cbn [template set_gt_vertices]; congruence).
  destruct (@post_prediction_values sN tmpl pN N HtN T0 T1 HpN PN0 PN1 PN2)
    as (pv & Hpost & Q0 & Q1 & Q2 & Qv).
  destruct (@post_prediction_values (set_gt_vertices sk gt') tmpl pk k
              Htk T0 T1 Hpk Pk0 Pk1 Pk2)
    as (pv' & Hpost' & Q0' & Q1' & Q2' & Qv').
  exists (set_predicted_vertices sN pv),
         (set_predicted_vertices (set_gt_vertices sk gt') pv'), pv, pv'.
  split; [|split].
  - unfold FaceFormer_forward, forward. rewrite Hh. cbn [getitem].
    rewrite bind_Ok. cbv beta zeta.
    cbn [_max_auto_regressive_steps _autoregressive_step _post_prediction
         FaceFormer_decoder].
    unfold FaceFormer_max_auto_regressive_steps, requested_frames.
    cbn [gt_vertices set_hidden_feature]. rewrite Hgt, Gn.
    replace (Nat.min N (dim1 (biased_mask self))) with N by lia.
    rewrite HsN, bind_Ok. exact Hpost.
  - unfold FaceFormer_forward, forward.
    cbn [seq_encoder_output set_gt_vertices]. rewrite Hh. cbn [getitem].
    rewrite bind_Ok. cbv beta zeta.
    cbn [_max_auto_regressive_steps _autoregressive_step _post_prediction
         FaceFormer_decoder].
    unfold FaceFormer_max_auto_regressive_steps, requested_frames.
    cbn [gt_vertices set_hidden_feature set_gt_vertices]. rewrite Gk.
    replace (Nat.min k (dim1 (biased_mask self))) with k by lia.
    change (set_hidden_feature (set_gt_vertices s gt') h)
      with (set_gt_vertices (set_hidden_feature s h) gt').
    unfold for_range. rewrite stepping_loop_ignores_gt.
    unfold for_range in Hsk. rewrite Hsk. cbn [on_ok bind]. exact Hpost'.
  - cbn [predicted_vertices set_predicted_vertices].
    split; [reflexivity|]. split; [reflexivity|].
    split; [exact Q1|]. split; [exact Q1'|].
    intros r j Hr Hj. rewrite Qv, Qv' by (try assumption; lia). f_equal.
    rewrite Pkv, PNv.
    rewrite <- Vk1 in Hmk |- *. rewrite <- VN1 in HmN |- *.
    symmetry.
    apply (@causal_prefix vk vN h k mk mN); try assumption; try lia.
    intros r' kk Hr' Hkk.
    rewrite Vkv, VNv by (try assumption; lia).
    rewrite Hext by (try assumption; lia). reflexivity.
Qed.

End CausalClaims.

Lemma demo_training_batch (S T : nat) :
  batch_of_one (Demo.training_sample S T) 2 3 1 S.
Proof.
  unfold batch_of_one, Demo.training_sample.
  cbn [seq_encoder_output one_hot template].
  do 3 eexists. repeat split.
Qed.

Lemma teacher_forced_no_lookahead_witness :
  exists self s1 s2 pv pv',
    FaceFormerDecoder_init Demo.config Demo.trained_parameters = Ok self
    /\ FaceFormer_forward Demo.pass_through self (Demo.training_sample 2 2) false true
       = Ok s1
    /\ FaceFormer_forward Demo.pass_through self
         (set_gt_vertices (Demo.training_sample 2 2)
            (T3 1 2 3 (fun _ r c => INR (r + c) * INR (1 - r))%R))
         false true = Ok s2
    /\ predicted_vertices s1 = Some pv /\ predicted_vertices s2 = Some pv'
    /\ dim1 pv = 2 /\ dim1 pv' = 2
    /\ forall r j, r <= 1 -> j < 3 -> at3 pv' 0 r j = at3 pv 0 r j.
Proof.
  destruct (demo_init Demo.trained_parameters) as (self & Hinit).
  destruct (demo_decoder Hinit) as (Hwf & Hshape & Hmask & Hrows).
  destruct (@teacher_forced_no_lookahead Demo.pass_through self 2 3 1 Hwf Hshape
              pass_through_causal (init_future_masked _ _ Hinit)
              (Demo.training_sample 2 2) false 2 2 1 _
              (T3 1 2 3 (fun _ r c => INR (r + c) * INR (1 - r))%R)
              (demo_training_batch 2 2) (le_S _ _ (le_n 1))
              eq_refl eq_refl eq_refl eq_refl
              eq_refl eq_refl eq_refl)
    as (s1 & s2 & pv & pv' & H); try lia.
  { intros r k Hr Hk. assert (r = 0) by lia. subst r.
    cbn [at3 Nat.add Nat.sub INR]. lra. }
  exists self, s1, s2, pv, pv'. split; [exact Hinit | exact H].
Defined.

Lemma autoregressive_frames_are_final_witness :
  exists self s1 s2 pv pv',
    FaceFormerDecoder_init Demo.config Demo.trained_parameters = Ok self
    /\ FaceFormer_forward Demo.pass_through self (Demo.training_sample 2 2) false false
       = Ok s1
    /\ FaceFormer_forward Demo.pass_through self
         (set_gt_vertices (Demo.training_sample 2 2) (T3 1 1 3 (fun _ _ _ => 0%R)))
         false false = Ok s2
    /\ predicted_vertices s1 = Some pv /\ predicted_vertices s2 = Some pv'
    /\ dim1 pv = 2 /\ dim1 pv' = 1
    /\ forall r j, r < 1 -> j < 3 -> at3 pv' 0 r j = at3 pv 0 r j.
Proof.
  destruct (demo_init Demo.trained_parameters) as (self & Hinit).
  destruct (demo_decoder Hinit) as (Hwf & Hshape & Hmask & Hrows).
  destruct (@autoregressive_frames_are_final Demo.pass_through self 2 3 1 Hwf Hshape
              pass_through_causal (init_future_masked _ _ Hinit)
              (Demo.training_sample 2 2) false 2 1 2 _
              (T3 1 1 3 (fun _ _ _ => 0%R))
              (demo_training_batch 2 2) (le_S _ _ (le_n 1))
              eq_refl eq_refl eq_refl)
    as (s1 & s2 & pv & pv' & H); try lia.
  exists self, s1, s2, pv, pv'. split; [exact Hinit | exact H].
Defined.

(** ** What the stepping loop feeds back *)

Section Feedback.

Local Open Scope R_scope.

Variable attention :
  tensor3 R -> tensor3 R -> tensor3 xreal -> tensor2 bool -> nat -> nat -> nat -> R.

Variable self : FaceFormerDecoder.
Variables F D K : nat.
Hypothesis Hwf : well_formed self.
Hypothesis Hshape : periodic_add_decoder self F D K.
Hypothesis Hcausal : causal_attention attention.
Hypothesis Hfuture : future_masked (biased_mask self).

(** Two states of the stepping loop whose running sequences agree on the
    first [k] entries hold the same first [k] frames. *)
Lemma stepped_frames_agree (h : tensor3 R) (k n : nat) (sk sn : sample)
  (ek pk en pn : tensor3 R) :
  stepped_state attention self F D h k sk ek pk ->
  stepped_state attention self F D h n sn en pn ->
  (k <= n)%nat ->
  (forall r kk, (r < k)%nat -> (kk < F)%nat -> at3 en 0 r kk = at3 ek 0 r kk) ->
  forall r j, (r < k)%nat -> at3 pn 0 r j = at3 pk 0 r j.
Proof.
  intros Stk Stn Hkn Hext r j Hr.
  pose proof Stk as (_ & _ & _ & _ & _ & _ & _ & _ & _ & _
                     & vk & mk & Vk0 & Vk1 & Vk2 & Vkv & Hmk & Pkv).
  pose proof Stn as (_ & _ & _ & _ & _ & _ & _ & _ & _ & _
                     & vn & mn & Vn0 & Vn1 & Vn2 & Vnv & Hmn & Pnv).
  rewrite Pkv, Pnv.
  rewrite <- Vk1 in Hmk |- *. rewrite <- Vn1 in Hmn |- *.
  apply (@causal_prefix attention self F D K Hshape Hcausal Hfuture
           vk vn h k mk mn); try assumption; try lia.
  intros r' kk Hr' Hkk.
  rewrite Vkv, Vnv by (try assumption; lia).
  rewrite Hext by (try assumption; lia). reflexivity.
Qed.

(** After [m >= 1] rounds on one sequence, the running sequence starts with
    the style embedding, and each later entry is the embedding of the frame
    before it, as the prediction holds it at the end, plus the style. *)
Lemma stepping_loop_feedback (s : sample) (S : nat) (h : tensor3 R)
  (oh : tensor2 R) (m : nat) :
  batch_of_one s F D K S ->
  hidden_feature s = Some h -> dim0 h = 1%nat -> dim2 h = F ->
  one_hot s = Some oh ->
  (1 <= m)%nat -> (m <= dim1 (biased_mask self))%nat ->
  (m <= PE_rows (PE self))%nat ->
  exists sm e p st,
    for_range m (FaceFormer_autoregressive_step attention self) s = Ok sm
    /\ stepped_state attention self F D h m sm e p
    /\ style_emb sm = Some st
    /\ (forall kk, (kk < F)%nat -> at3 st 0 0 kk = style_row self oh kk)
    /\ (forall kk, (kk < F)%nat -> at3 e 0 0 kk = at3 st 0 0 kk)
    /\ forall r kk, (1 <= r)%nat -> (r <= m)%nat -> (kk < F)%nat ->
         at3 e 0 r kk
         = Linear.apply_row (vertice_map self) (at3 p 0 (r - 1)) kk
           + at3 st 0 0 kk.
Proof.
  intros Hb Hh Hh0 Hh2 Hoh.
  induction m as [|m IH]; intros Hm Hmask Hrows; [lia|].
  destruct m as [|m].
  - destruct (@autoregressive_step_values attention self F D K Hwf Hshape
                s S 0 h Hb Hh Hh0 Hh2)
      as (s' & e' & p' & st' & Hs' & St & _ & Hst & Hnew & Hfirst & _); try lia.
    exists s', e', p', st'. rewrite for_range_1.
    split; [exact Hs'|]. split; [exact St|]. split; [exact Hst|].
    split; [|split].
    + intros kk Hkk. apply (Hfirst eq_refl oh Hoh kk Hkk).
    + intros kk Hkk. apply (Hfirst eq_refl oh Hoh kk Hkk).
    + intros r kk Hr1 Hr2 Hkk. assert (r = 1)%nat by lia. subst r.
      apply (Hnew kk Hkk).
  - destruct IH as (sm & e & p & st & Hsm & St & Hst & Hsty & He0 & Hfb); try lia.
    destruct (@stepping_loop_keeps attention self _ _ _ Hsm)
      as (K1 & K2 & K3 & K4 & K5).
    destruct (@autoregressive_step_values attention self F D K Hwf Hshape
                sm S (Datatypes.S m) h)
      as (s' & e' & p' & st' & Hs' & St' & Hext & Hst' & Hnew & _ & Hsame);
      try assumption; try lia.
    { destruct Hb as (h0 & oh0 & tmpl & B).
      exists h0, oh0, tmpl. rewrite K1, K5, K4. exact B. }
    { destruct St as (St & _). exact St. }
    { right. exists e, p. exact St. }
    assert (st' = st) as ->.
    { specialize (Hsame ltac:(lia)). congruence. }
    pose proof St as (_ & He & _).
    assert (Hag : forall r kk, (r <= Datatypes.S m)%nat -> (kk < F)%nat ->
                               at3 e' 0 r kk = at3 e 0 r kk).
    { intros r kk Hr Hkk. apply (Hext e ltac:(lia) He r kk Hr Hkk). }
    pose proof Hshape as (q & _ & _ & _ & _ & _ & VI & _).
    exists s', e', p', st. rewrite for_range_S, Hsm, bind_Ok.
    replace (Datatypes.S (Datatypes.S m)) with (Datatypes.S m + 1)%nat by lia.
    split; [exact Hs'|]. split; [exact St'|]. split; [exact Hst'|].
    split; [exact Hsty|]. split.
    + intros kk Hkk. rewrite Hag by (try assumption; lia). apply He0, Hkk.
    + intros r kk Hr1 Hr2 Hkk.
      destruct (Nat.eq_dec r (Datatypes.S m + 1)) as [->|Hne].
      * replace (Datatypes.S m + 1 - 1)%nat with (Datatypes.S m) by lia.
        apply (Hnew kk Hkk).
      * rewrite Hag by (try assumption; lia).
        rewrite Hfb by (try assumption; lia). f_equal.
        apply apply_row_ext. intros d Hd. symmetry.
        apply (@stepped_frames_agree h (Datatypes.S m) (Datatypes.S m + 1)
                 sm s' e p e' p' St St'); try lia.
        intros r' kk' Hr' Hkk'. apply Hag; [lia | exact Hkk'].
Qed.

(** X29. What the stepping loop feeds back.  With a causal attention
    stack, on one sequence with a non-empty conditioning and [N >= 1]
    requested frames within the mask and the positional table, the
    running sequence left in ["embedded_output"] holds [N + 1] entries:
    entry [0] is the style embedding, the identity layer on the one-hot
    vector, and entry [r >= 1] is the embedding layer on frame [r - 1] of
    the returned prediction taken relative to the template, plus the
    style embedding.  So each round extends the input by the frame the
    model has just predicted, and that frame is the one returned. *)
Theorem autoregressive_feeds_back_predictions
  (s : sample) (train : bool) (S N : nat) (gt : tensor3 R) :
  batch_of_one s F D K S -> (1 <= S)%nat ->
  gt_vertices s = Some gt -> dim1 gt = N ->
  (1 <= N)%nat ->
  (N <= dim1 (biased_mask self))%nat -> (N <= PE_rows (PE self))%nat ->
  exists s1 oh tmpl pv e st,
    FaceFormer_forward attention self s train false = Ok s1
    /\ one_hot s = Some oh /\ template s = Some tmpl
    /\ predicted_vertices s1 = Some pv
    /\ embedded_output s1 = Some e
    /\ style_emb s1 = Some st
    /\ dim1 pv = N /\ dim1 e = (N + 1)%nat
    /\ (forall kk, (kk < F)%nat ->
          at3 st 0 0 kk = Linear.apply_row (obj_vector self) (at2 oh 0) kk)
    /\ (forall kk, (kk < F)%nat -> at3 e 0 0 kk = at3 st 0 0 kk)
    /\ forall r kk, (1 <= r)%nat -> (r <= N)%nat -> (kk < F)%nat ->
         at3 e 0 r kk
         = Linear.apply_row (vertice_map self)
             (fun d => at3 pv 0 (r - 1) d - at2 tmpl 0 d) kk
           + at3 st 0 0 kk.
Proof.
  intros Hb _ Hgt Gn HN Hmask Hrows.
  pose proof Hb as (h & oh & tmpl & Hh & H0 & H1 & H2 & Hoh & O0 & O1 & Htm & T0 & T1).
  set (s0 := set_hidden_feature s h).
  assert (Hb0 : batch_of_one s0 F D K S).
  { exists h, oh, tmpl. subst s0.
    cbn [seq_encoder_output one_hot template set_hidden_feature].
    repeat split; assumption. }
  destruct (@stepping_loop_feedback s0 S h oh N Hb0 eq_refl H0 H2 Hoh HN Hmask Hrows)
    as (sN & e & p & st & HsN & St & Hst & Hsty & He0 & Hfb).
  destruct (@stepping_loop_keeps attention self _ _ _ HsN) as (_ & _ & _ & Nt & _).
  subst s0. cbn [template set_hidden_feature] in Nt.
  pose proof St as (_ & He & E0 & E1 & E2 & _ & Hp & P0 & P1 & P2 & _).
  assert (HtN : template sN = Some tmpl) by congruence.
  destruct (@post_prediction_values self D sN tmpl p N HtN T0 T1 Hp P0 P1 P2)
    as (pv & Hpost & Q0 & Q1 & Q2 & Qv).
  pose proof Hshape as (q & _ & _ & _ & _ & _ & VI & _).
  exists (set_predicted_vertices sN pv), oh, tmpl, pv, e, st.
  split.
  { unfold FaceFormer_forward, forward. rewrite Hh. cbn [getitem].
    rewrite bind_Ok. cbv beta zeta.
    cbn [_max_auto_regressive_steps _autoregressive_step _post_prediction
         FaceFormer_decoder].
    unfold FaceFormer_max_auto_regressive_steps, requested_frames.
    cbn [gt_vertices set_hidden_feature]. rewrite Hgt, Gn.
    replace (Nat.min N (dim1 (biased_mask self))) with N by lia.
    rewrite HsN, bind_Ok. exact Hpost. }
  cbn [predicted_vertices embedded_output style_emb set_predicted_vertices].
  split; [exact Hoh|]. split; [exact Htm|]. split; [reflexivity|].
  split; [exact He|]. split; [exact Hst|]. split; [exact Q1|].
  split; [exact E1|]. split; [exact Hsty|]. split; [exact He0|].
  intros r kk Hr1 Hr2 Hkk. rewrite Hfb by assumption. f_equal.
  apply apply_row_ext. intros d Hd. rewrite VI in Hd.
  rewrite Qv by (try assumption; lia). ring.
Qed.

End Feedback.

Lemma autoregressive_feeds_back_predictions_witness :
  exists self s1 oh tmpl pv e st,
    FaceFormerDecoder_init Demo.config Demo.trained_parameters = Ok self
    /\ FaceFormer_forward Demo.pass_through self (Demo.training_sample 2 2) false false
       = Ok s1
    /\ one_hot (Demo.training_sample 2 2) = Some oh
    /\ template (Demo.training_sample 2 2) = Some tmpl
    /\ predicted_vertices s1 = Some pv
    /\ embedded_output s1 = Some e
    /\ style_emb s1 = Some st
    /\ dim1 pv = 2 /\ dim1 e = 3
    /\ (forall kk, kk < 2 ->
          at3 st 0 0 kk = Linear.apply_row (obj_vector self) (at2 oh 0) kk)
    /\ (forall kk, kk < 2 -> at3 e 0 0 kk = at3 st 0 0 kk)
    /\ forall r kk, 1 <= r -> r <= 2 -> kk < 2 ->
         at3 e 0 r kk
         = (Linear.apply_row (vertice_map self)
              (fun d => at3 pv 0 (r - 1) d - at2 tmpl 0 d) kk
            + at3 st 0 0 kk)%R.
Proof.
  destruct (demo_init Demo.trained_parameters) as (self & Hinit).
  destruct (demo_decoder Hinit) as (Hwf & Hshape & Hmask & Hrows).
  destruct (@autoregressive_feeds_back_predictions Demo.pass_through self 2 3 1
              Hwf Hshape pass_through_causal (init_future_masked _ _ Hinit)
              (Demo.training_sample 2 2) false 2 2 _
              (demo_training_batch 2 2) (le_S _ _ (le_n 1))
              eq_refl eq_refl (le_S _ _ (le_n 1)))
    as (s1 & oh & tmpl & pv & e & st & H); try lia.
  exists self, s1, oh, tmpl, pv, e, st. split; [exact Hinit | exact H].
Defined.

(** ** The two positional tables side by side *)

Section TablesCompared.

(** X30. The periodic table is the monotonic one, wrapped.  For the same
    model width, row [t] of the [PeriodicPositionalEncoding] table holds
    the code that the [PositionalEncoding] table holds at position
    [t mod period], when that position is below [max_len]; the first has
    the positions along axis 1, the second along axis 0.  In particular
    the two agree on every position below [period] that both hold. *)
Theorem periodic_table_wraps_monotonic
  (d_model period max_seq_len max_len : nat) (o o' : string)
  (p : PeriodicPositionalEncoding.t) (q : PositionalEncoding.t) :
  PeriodicPositionalEncoding.init d_model period max_seq_len o = Ok p ->
  PositionalEncoding.init d_model max_len o' = Ok q ->
  (forall t c, t < dim1 (PeriodicPositionalEncoding.pe p) ->
     t mod period < max_len -> c < d_model ->
     at3 (PeriodicPositionalEncoding.pe p) 0 t c
     = at3 (PositionalEncoding.pe q) (t mod period) 0 c)
  /\ (forall t c, t < dim1 (PeriodicPositionalEncoding.pe p) ->
        t < period -> t < max_len -> c < d_model ->
        at3 (PeriodicPositionalEncoding.pe p) 0 t c
        = at3 (PositionalEncoding.pe q) t 0 c).
Proof.
  intros Hp Hq.
  pose proof (@periodic_init_values _ _ _ _ _ Hp) as P.
  pose proof (@monotonic_init_values _ _ _ _ Hq) as Q.
  assert (W : forall t c, t mod period < max_len -> c < d_model ->
            at3 (PeriodicPositionalEncoding.pe p) 0 t c
            = at3 (PositionalEncoding.pe q) (t mod period) 0 c).
  { intros t c Ht Hc.
    destruct (Nat.Even_or_Odd c) as [[k ->]|[k ->]].
    - destruct (P 0 t k) as [Ps _]. destruct (Q (t mod period) k Ht) as [Qs _].
      rewrite Ps, Qs by exact Hc. reflexivity.
    - destruct (P 0 t k) as [_ Ps]. destruct (Q (t mod period) k Ht) as [_ Qs].
      rewrite Ps, Qs by exact Hc. reflexivity. }
  split.
  - intros t c _ Ht Hc. apply W; assumption.
  - intros t c _ Htp Ht Hc.
    rewrite <- (Nat.mod_small t period Htp) at 2.
    apply W; [rewrite Nat.mod_small by exact Htp; exact Ht | exact Hc].
Qed.

End TablesCompared.

Lemma periodic_table_wraps_monotonic_witness :
  exists p q,
    PeriodicPositionalEncoding.init 2 2 3 "add" = Ok p
    /\ PositionalEncoding.init 2 2 "add" = Ok q
    /\ dim1 (PeriodicPositionalEncoding.pe p) = 4
    /\ (forall t c, t < 4 -> c < 2 ->
          at3 (PeriodicPositionalEncoding.pe p) 0 t c
          = at3 (PositionalEncoding.pe q) (t mod 2) 0 c).
Proof.
  eexists. eexists.
  split; [reflexivity|]. split; [reflexivity|]. split; [reflexivity|].
  intros t c Ht Hc.
  refine (proj1 (@periodic_table_wraps_monotonic 2 2 3 2 "add" "add" _ _
                   eq_refl eq_refl) t c Ht _ Hc).
  apply Nat.mod_upper_bound. discriminate.
Defined.

(** ** The direct head on floats that are not finite *)

Section FloatHead.

Local Open Scope R_scope.

Import Float32.

Lemma add_nan_r (a : Float32.t) : add a NaN = NaN.
Proof. destruct a; reflexivity. Qed.

Lemma mul_zero_finite (a : Float32.t) :
  is_finite a = true -> mul a (Finite 0) = Finite 0.
Proof.
  destruct a as [x| |]; try discriminate. intros _.
  cbn [mul]. f_equal. lra.
Qed.

Lemma mul_zero_not_finite (a : Float32.t) :
  is_finite a = false -> mul a (Finite 0) = NaN.
Proof.
  destruct a as [x|n|]; try discriminate; intros _; [|reflexivity].
  cbn [mul]. destruct (Req_dec_T 0 0) as [_|Hne]; [reflexivity|].
  exfalso. apply Hne. reflexivity.
Qed.

(** A sum of products with zero weights: zero when every input read is
    finite. *)
Lemma zero_sum_finite (x : nat -> Float32.t) (l : list nat) :
  (forall k, In k l -> is_finite (x k) = true) ->
  fold_right add (Finite 0) (map (fun k => mul (x k) (Finite 0)) l) = Finite 0.
Proof.
  induction l as [|k l IH]; intros H; [reflexivity|].
  cbn [map fold_right]. rewrite IH by (intros k' Hk'; apply H; right; exact Hk').
  rewrite mul_zero_finite by (apply H; left; reflexivity).
  cbn [add]. f_equal. lra.
Qed.

(** The same sum is NaN as soon as one input read is not finite. *)
Lemma zero_sum_not_finite (x : nat -> Float32.t) (l : list nat) (k : nat) :
  In k l -> is_finite (x k) = false ->
  fold_right add (Finite 0) (map (fun k => mul (x k) (Finite 0)) l) = NaN.
Proof.
  induction l as [|k0 l IH]; intros Hin Hk; [contradiction|].
  cbn [map fold_right]. destruct Hin as [->|Hin].
  - rewrite (mul_zero_not_finite _ Hk). reflexivity.
  - rewrite (IH Hin Hk). apply add_nan_r.
Qed.

(** One coordinate of a layer with zero weights and a zero bias. *)
Lemma zero_layer_row_float (l : Linear.t) (x : nat -> Float32.t) (j : nat) :
  (forall j k, Linear.weight l j k = 0) ->
  (exists b, Linear.bias l = Some b /\ forall j, b j = 0) ->
  ((forall k, (k < Linear.in_features l)%nat -> is_finite (x k) = true) ->
   apply_row l x j = Finite 0)
  /\ ((exists k, (k < Linear.in_features l)%nat /\ is_finite (x k) = false) ->
      apply_row l x j = NaN).
Proof.
  intros Hw (b & Hb & Hb0). unfold apply_row, sum_upto. rewrite Hb, Hb0.
  assert (Hmap : map (fun k => mul (x k) (Finite (Linear.weight l j k)))
                     (seq 0 (Linear.in_features l))
                 = map (fun k => mul (x k) (Finite 0))
                       (seq 0 (Linear.in_features l))).
  { apply map_ext. intros k. rewrite Hw. reflexivity. }
  rewrite Hmap. split.
  - intros Hfin. rewrite zero_sum_finite.
    + cbn [add]. f_equal. lra.
    + intros k Hk. apply Hfin. apply in_seq in Hk. lia.
  - intros (k & Hk & Hnf).
    rewrite (@zero_sum_not_finite x _ k); [reflexivity | | exact Hnf].
    apply in_seq. lia.
Qed.

(** The head with zero parameters on one sequence: the offset and the
    frame of every position, by the entries the attention stack returned
    for that position. *)
Lemma zero_head_on_floats (self : FaceFormerDecoder)
  (transformer_out : tensor3 Float32.t) (template : tensor2 R) :
  (forall j k, Linear.weight (vertex_map self) j k = 0) ->
  (exists b, Linear.bias (vertex_map self) = Some b /\ forall j, b j = 0) ->
  dim0 transformer_out = 1%nat ->
  dim2 transformer_out = Linear.in_features (vertex_map self) ->
  nrows template = 1%nat ->
  ncols template = Linear.out_features (vertex_map self) ->
  exists offset frames,
    Float32._decode_vertices self transformer_out = Ok offset
    /\ add_template offset template = Ok frames
    /\ dim0 frames = 1%nat /\ dim1 frames = dim1 transformer_out
    /\ dim2 frames = ncols template
    /\ forall r j, (r < dim1 transformer_out)%nat -> (j < ncols template)%nat ->
         ((forall k, (k < dim2 transformer_out)%nat ->
                     is_finite (at3 transformer_out 0 r k) = true) ->
          at3 offset 0 r j = Finite 0
          /\ at3 frames 0 r j = Finite (at2 template 0 j))
         /\ ((exists k, (k < dim2 transformer_out)%nat
                        /\ is_finite (at3 transformer_out 0 r k) = false) ->
             at3 offset 0 r j = NaN /\ at3 frames 0 r j = NaN).
Proof.
  intros Hw Hb X0 X2 T0 T1.
  unfold Float32._decode_vertices, forward3. rewrite X2, Nat.eqb_refl.
  exists (T3 (dim0 transformer_out) (dim1 transformer_out)
             (Linear.out_features (vertex_map self))
             (fun b r j => apply_row (vertex_map self) (at3 transformer_out b r) j)).
  unfold add_template, broadcast3.
  cbn [dim0 dim1 dim2 as_leading1 of_reals nrows ncols].
  rewrite X0, T0, T1, !bdim_refl, bdim_1_r.
  eexists. split; [reflexivity|]. split; [reflexivity|].
  cbn [dim0 dim1 dim2 at3 at2]. split; [reflexivity|]. split; [reflexivity|].
  split; [reflexivity|].
  intros r j Hr Hj. rewrite ?bidx_1, ?(bidx_lt Hr), ?(bidx_lt Hj).
  destruct (@zero_layer_row_float (vertex_map self) (at3 transformer_out 0 r) j Hw Hb)
    as (Hfin & Hnan).
  split.
  - intros Hall. rewrite (Hfin Hall). split; [reflexivity|].
    cbn [add at3 at2 as_leading1 of_reals]. f_equal. lra.
  - intros Hsome. rewrite (Hnan Hsome). split; reflexivity.
Qed.

(** C7, amended.  At construction the final projection of the direct head
    has zero weights and a zero bias.  On one sequence, for every template
    and every output of the attention stack whose entries at a position
    are all finite, the decoded offset at that position is zero and the
    composed frame is the template, exactly.  Where an entry is an
    infinity or NaN (what the stack returns once a float32 overflows in
    it), the offset and the frame are NaN, since [inf * 0] and [nan * 0]
    are NaN. *)
Theorem untrained_head_returns_template_if_finite
  (c : cfg) (w : fresh_parameters) (self : FaceFormerDecoder)
  (transformer_out : tensor3 Float32.t) (template : tensor2 R) :
  FaceFormerDecoder_init c w = Ok self ->
  dim0 transformer_out = 1%nat -> dim2 transformer_out = feature_dim c ->
  nrows template = 1%nat -> ncols template = vertices_dim c ->
  (forall j k, Linear.weight (vertex_map self) j k = 0)
  /\ (exists b, Linear.bias (vertex_map self) = Some b /\ forall j, b j = 0)
  /\ exists offset frames,
       Float32._decode_vertices self transformer_out = Ok offset
       /\ add_template offset template = Ok frames
       /\ dim0 frames = 1%nat /\ dim1 frames = dim1 transformer_out
       /\ dim2 frames = vertices_dim c
       /\ forall r j, (r < dim1 transformer_out)%nat -> (j < vertices_dim c)%nat ->
            ((forall k, (k < feature_dim c)%nat ->
                        is_finite (at3 transformer_out 0 r k) = true) ->
             at3 offset 0 r j = Finite 0
             /\ at3 frames 0 r j = Finite (at2 template 0 j))
            /\ ((exists k, (k < feature_dim c)%nat
                           /\ is_finite (at3 transformer_out 0 r k) = false) ->
                at3 offset 0 r j = NaN /\ at3 frames 0 r j = NaN).
Proof.
  intros Hinit X0 X2 T0 T1.
  destruct (FaceFormerDecoder_init_inv _ _ Hinit)
    as (_ & _ & _ & _ & Hin & Hout & Hw & Hb).
  split; [exact Hw|]. split; [exact Hb|].
  destruct (@zero_head_on_floats self transformer_out template Hw Hb X0)
    as (offset & frames & Hd & Hf & F0 & F1 & F2 & Hv); try congruence.
  exists offset, frames. rewrite <- T1, <- X2.
  repeat (split; [assumption|]). exact Hv.
Qed.

End FloatHead.

(** The hidden output used below: one sequence of two positions of width
    two, finite at position 0 and NaN at position 1. *)
Lemma untrained_head_returns_template_if_finite_witness :
  exists self offset frames,
    FaceFormerDecoder_init Demo.config Demo.trained_parameters = Ok self
    /\ Float32._decode_vertices self
         (T3 1 2 2 (fun _ r _ => if r =? 0 then Float32.Finite 5 else Float32.NaN))
       = Ok offset
    /\ Float32.add_template offset (T2 1 3 (fun _ c => INR c)) = Ok frames
    /\ dim1 frames = 2
    /\ (forall j, j < 3 ->
          at3 offset 0 0 j = Float32.Finite 0
          /\ at3 frames 0 0 j = Float32.Finite (INR j))
    /\ (forall j, j < 3 -> at3 frames 0 1 j = Float32.NaN).
Proof.
  destruct (demo_init Demo.trained_parameters) as (self & Hinit).
  destruct (@untrained_head_returns_template_if_finite
              Demo.config Demo.trained_parameters self
              (T3 1 2 2 (fun _ r _ => if r =? 0 then Float32.Finite 5 else Float32.NaN))
              (T2 1 3 (fun _ c => INR c)) Hinit eq_refl eq_refl eq_refl eq_refl)
    as (_ & _ & offset & frames & Hd & Hf & _ & F1 & _ & Hv).
  exists self, offset, frames.
  split; [exact Hinit|]. split; [exact Hd|]. split; [exact Hf|].
  split; [exact F1|]. split.
  - intros j Hj. destruct (Hv 0 j) as (Hfin & _); [cbn; lia | exact Hj |].
    apply Hfin. intros k _. reflexivity.
  - intros j Hj. destruct (Hv 1 j) as (_ & Hnan); [cbn; lia | exact Hj |].
    apply Hnan. exists 0. split; [cbn; lia | reflexivity].
Defined.

(** C7 fails as stated, "for every hidden decoder output".  On the freshly
    built demo decoder, a hidden output of NaN entries (one sequence, one
    position) gives a NaN offset and a NaN frame, where the claim has the
    zero offset and the template. *)
Lemma untrained_head_nan_frame :
  exists self offset frames,
    FaceFormerDecoder_init Demo.config Demo.zero_parameters = Ok self
    /\ Float32._decode_vertices self (T3 1 1 2 (fun _ _ _ => Float32.NaN)) = Ok offset
    /\ Float32.add_template offset (T2 1 3 (fun _ c => INR c)) = Ok frames
    /\ at3 offset 0 0 0 <> Float32.Finite 0
    /\ at3 frames 0 0 0 <> Float32.Finite (at2 (T2 1 3 (fun _ c => INR c)) 0 0).
Proof.
  destruct (demo_init Demo.zero_parameters) as (self & Hinit).
  destruct (FaceFormerDecoder_init_inv _ _ Hinit)
    as (_ & _ & _ & _ & Hin & Hout & Hw & Hb).
  destruct (@zero_head_on_floats self (T3 1 1 2 (fun _ _ _ => Float32.NaN))
              (T2 1 3 (fun _ c => INR c)) Hw Hb eq_refl)
    as (offset & frames & Hd & Hf & _ & _ & _ & Hv);
    [rewrite Hin; reflexivity | reflexivity | rewrite Hout; reflexivity |].
  exists self, offset, frames.
  split; [exact Hinit|]. split; [exact Hd|]. split; [exact Hf|].
  destruct (Hv 0 0) as (_ & Hnan); [cbn; lia | cbn; lia |].
  destruct Hnan as (Ho & Hfr).
  { exists 0. split; [cbn; lia | reflexivity]. }
  rewrite Ho, Hfr. split; discriminate.
Qed.
